(** * PolyDoc library: bundle builder and language-folder initializer

    A shallow embedding of the Cloud Functions of the repository
    ([generateBundleLogic.ts], [languageFolderUtils.ts] and the storage
    trigger [createLanguageFolders] of [index.ts]) and the statements
    proved about them.

    Conventions of the embedding.
    - A JavaScript string is a [string]: a sequence of code units, here
      restricted to the 8-bit range (read as Latin-1).  Every operation the
      code uses ([===], [endsWith], template concatenation, the regular
      expressions, [trim]) works code unit by code unit.
    - A [Map] is an insertion-ordered association list ([JsMap]); a plain
      object used as a dictionary is the ordered list of its own enumerable
      properties ([JsObject]), with the behaviour of the assignment
      [o[k] = v] written out.
    - The storage bucket is reached through a small monad of storage
      programs ([Storage]); a call to the service either resolves or
      rejects, and [exec] runs a program against a bucket and a fault plan. *)

From Stdlib Require Import String Ascii List Bool Arith NArith DecimalString Lia.
Import ListNotations.

Open Scope list_scope.
Open Scope string_scope.

Set Implicit Arguments.

(** ** Strings *)

Module Str.

(** [s.startsWith(p)]; also the prefix test of a bucket listing. *)
Fixpoint startsWith (s p : string) {struct p} : bool :=
  match p with
  | EmptyString => true
  | String a p' =>
      match s with
      | EmptyString => false
      | String b s' => Ascii.eqb b a && startsWith s' p'
      end
  end.

(** [s.endsWith(suf)]: [s] is [suf], or the rest of [s] ends with [suf]. *)
Fixpoint endsWith (s suf : string) : bool :=
  String.eqb s suf ||
  match s with
  | EmptyString => false
  | String _ s' => endsWith s' suf
  end.

(** [s.split(sep)] for a one-character separator: never the empty list. *)
Fixpoint split (sep : ascii) (s : string) : list string :=
  match s with
  | EmptyString => [EmptyString]
  | String c s' =>
      if Ascii.eqb c sep then EmptyString :: split sep s'
      else match split sep s' with
           | hd :: tl => String c hd :: tl
           | [] => [String c EmptyString]
           end
  end.

(** [xs.join(sep)] *)
Fixpoint join (sep : string) (xs : list string) : string :=
  match xs with
  | [] => EmptyString
  | [x] => x
  | x :: rest => x ++ sep ++ join sep rest
  end.

(** No code unit of [s] is [c]. *)
Fixpoint lacks (c : ascii) (s : string) : bool :=
  match s with
  | EmptyString => true
  | String a s' => negb (Ascii.eqb a c) && lacks c s'
  end.

Definition nonempty (s : string) : bool :=
  match s with EmptyString => false | String _ _ => true end.

(** WhiteSpace and LineTerminator code units below 256: TAB, LF, VT, FF, CR,
    SP and NBSP. *)
Definition isWhiteSpace (c : ascii) : bool :=
  let n := nat_of_ascii c in
  ((9 <=? n) && (n <=? 13) || (n =? 32) || (n =? 160))%nat.

Fixpoint trimStart (s : string) : string :=
  match s with
  | EmptyString => EmptyString
  | String c s' => if isWhiteSpace c then trimStart s' else s
  end.

Fixpoint trimEnd (s : string) : string :=
  match s with
  | EmptyString => EmptyString
  | String c s' =>
      match trimEnd s' with
      | EmptyString => if isWhiteSpace c then EmptyString else String c EmptyString
      | t => String c t
      end
  end.

(** [s.trim()] *)
Definition trim (s : string) : string := trimEnd (trimStart s).

(** Every code unit of [s] is white space. *)
Fixpoint blank (s : string) : bool :=
  match s with
  | EmptyString => true
  | String c s' => isWhiteSpace c && blank s'
  end.

End Str.

(** ** Regular expressions

    The fragment of regular expressions the code uses, with the captures of
    a match.  [Matches r s cs] says that [r] matches exactly the string [s]
    and that its groups capture [cs], in order.  The expressions below are
    unambiguous (see [asset_match_regex] and [videoDir_match_regex]), so the
    captures of the leftmost-greedy search of the engine are the captures of
    any match. *)

Module Regex.

Inductive re : Type :=
| Lit (s : string)               (* literal text *)
| Plus (cls : ascii -> bool)     (* [cls]+ : a non-empty run of a class *)
| Group (r : re)                 (* ( r ) *)
| Cat (r1 r2 : re)               (* r1 r2 *)
| Alt (r1 r2 : re).              (* r1 | r2 *)

Fixpoint all (cls : ascii -> bool) (s : string) : bool :=
  match s with
  | EmptyString => true
  | String c s' => cls c && all cls s'
  end.

Inductive Matches : re -> string -> list string -> Prop :=
| MLit s : Matches (Lit s) s []
| MPlus cls s :
    Str.nonempty s = true -> all cls s = true -> Matches (Plus cls) s []
| MGroup r s cs : Matches r s cs -> Matches (Group r) s (s :: cs)
| MCat r1 r2 s1 s2 cs1 cs2 :
    Matches r1 s1 cs1 -> Matches r2 s2 cs2 ->
    Matches (Cat r1 r2) (s1 ++ s2) (cs1 ++ cs2)%list
| MAltL r1 r2 s cs : Matches r1 s cs -> Matches (Alt r1 r2) s cs
| MAltR r1 r2 s cs : Matches r2 s cs -> Matches (Alt r1 r2) s cs.

(** A pattern anchored at both ends, [/^r$/]. *)
Definition MatchesWhole (r : re) (s : string) (cs : list string) : Prop :=
  Matches r s cs.

(** A pattern anchored at the start only, [/^r/]. *)
Definition MatchesPrefix (r : re) (s : string) (cs : list string) : Prop :=
  exists m rest, s = m ++ rest /\ Matches r m cs.

(** The class [[^/]]. *)
Definition notSlash (c : ascii) : bool := negb (Ascii.eqb c "/").

Definition segment : re := Group (Plus notSlash).

(** [/^videos\/([^/]+)\/([^/]+)\/([^/]+)\/([^/]+)\/[^/]+\.(mp4|vtt)$/] *)
Definition asset_re : re :=
  Cat (Lit "videos/")
 (Cat segment (Cat (Lit "/")
 (Cat segment (Cat (Lit "/")
 (Cat segment (Cat (Lit "/")
 (Cat segment (Cat (Lit "/")
 (Cat (Plus notSlash) (Cat (Lit ".") (Group (Alt (Lit "mp4") (Lit "vtt"))))))))))))).

(** [/^videos\/([^/]+)\/([^/]+)\/([^/]+)\//] *)
Definition videoDir_re : re :=
  Cat (Lit "videos/")
 (Cat segment (Cat (Lit "/")
 (Cat segment (Cat (Lit "/")
 (Cat segment (Lit "/")))))).

End Regex.

(** ** The two path patterns, as executable matchers *)

(** The last segment of an asset path: [[^/]+\.(mp4|vtt)] on a segment
    without ["/"], that is a non-empty stem followed by [.mp4] or [.vtt]. *)
Definition fileExt (fileName : string) : option string :=
  if (4 <? String.length fileName)%nat && Str.endsWith fileName ".mp4" then Some "mp4"
  else if (4 <? String.length fileName)%nat && Str.endsWith fileName ".vtt" then Some "vtt"
  else None.

(** [filePath.match(/^videos\/([^/]+)\/([^/]+)\/([^/]+)\/([^/]+)\/[^/]+\.(mp4|vtt)$/)]:
    the five captures [fileClinic, fileDept, videoId, lang, ext], or [None]
    when the pattern does not match. *)
Definition asset_match (filePath : string)
  : option (string * string * string * string * string) :=
  match Str.split "/" filePath with
  | [root; c; d; v; l; f] =>
      if String.eqb root "videos" && Str.nonempty c && Str.nonempty d
         && Str.nonempty v && Str.nonempty l
      then match fileExt f with
           | Some e => Some (c, d, v, l, e)
           | None => None
           end
      else None
  | _ => None
  end.

(** [path.match(/^videos\/([^/]+)\/([^/]+)\/([^/]+)\//)]: the captures
    [clinic, department, videoName], or [None]. *)
Definition videoDir_match (path : string) : option (string * string * string) :=
  match Str.split "/" path with
  | root :: c :: d :: v :: _ :: _ =>
      if String.eqb root "videos" && Str.nonempty c && Str.nonempty d && Str.nonempty v
      then Some (c, d, v)
      else None
  | _ => None
  end.

(** ** [Map]: an insertion-ordered dictionary with string keys *)

Module JsMap.
Section Ops.
Variable V : Type.

Definition t := list (string * V).

Definition empty : t := [].

Fixpoint get (k : string) (m : t) : option V :=
  match m with
  | [] => None
  | (k', v) :: m' => if String.eqb k' k then Some v else get k m'
  end.

Definition has (k : string) (m : t) : bool :=
  match get k m with Some _ => true | None => false end.

(** [m.set(k, v)]: a present key keeps its position, a new key goes last. *)
Fixpoint set (k : string) (v : V) (m : t) : t :=
  match m with
  | [] => [(k, v)]
  | (k', v') :: m' =>
      if String.eqb k' k then (k, v) :: m' else (k', v') :: set k v m'
  end.

(** [m.entries()], in insertion order. *)
Definition entries (m : t) : list (string * V) := m.

Definition keys (m : t) : list string := map fst m.
End Ops.
End JsMap.

(** ** A plain object used as a dictionary

    The list is the object's own enumerable string-keyed properties in the
    order [JSON.stringify] and [Object.keys] enumerate them: array-index keys
    first, by ascending numeric value, then the other keys in the order of
    their creation. *)

Module JsObject.
Section Ops.
Variable V : Type.

Definition t := list (string * V).

Definition empty : t := [].

Definition isDigit (c : ascii) : bool :=
  let n := nat_of_ascii c in ((48 <=? n) && (n <=? 57))%nat.

Fixpoint digitsValue (acc : N) (s : string) : option N :=
  match s with
  | EmptyString => Some acc
  | String c s' =>
      if isDigit c then digitsValue (10 * acc + (N_of_ascii c - 48))%N s'
      else None
  end.

(** The array index a key denotes: a canonical decimal numeral (no leading
    zero unless it is ["0"]) below [2^32 - 1]. *)
Definition arrayIndex (k : string) : option N :=
  match k with
  | EmptyString => None
  | String c rest =>
      if Ascii.eqb c "0" && Str.nonempty rest then None
      else match digitsValue 0 k with
           | Some n => if (n <? 4294967295)%N then Some n else None
           | None => None
           end
  end.

Fixpoint get (k : string) (o : t) : option V :=
  match o with
  | [] => None
  | (k', v) :: o' => if String.eqb k' k then Some v else get k o'
  end.

Fixpoint replace (k : string) (v : V) (o : t) : t :=
  match o with
  | [] => []
  | (k', v') :: o' =>
      if String.eqb k' k then (k, v) :: o' else (k', v') :: replace k v o'
  end.

(** A new array-index key goes before the first key that is not a smaller
    array index. *)
Fixpoint insertIndex (i : N) (k : string) (v : V) (o : t) : t :=
  match o with
  | [] => [(k, v)]
  | (k', v') :: o' =>
      match arrayIndex k' with
      | Some j => if (j <? i)%N then (k', v') :: insertIndex i k v o'
                  else (k, v) :: o
      | None => (k, v) :: o
      end
  end.

(** [o[k] = v] for an object [o] created by [{}] and a value [v] that is
    an object.  The key ["__proto__"] is not an own property: it is the
    accessor inherited from [Object.prototype] (ECMAScript, "set
    Object.prototype.__proto__"), whose setter replaces the prototype of
    [o] and creates nothing on [o] itself, so that [JSON.stringify], which
    walks own properties, does not see it.  Every other key creates or
    overwrites an own data property: the other properties of
    [Object.prototype] are writable data properties. *)
Definition assign (k : string) (v : V) (o : t) : t :=
  if String.eqb k "__proto__" then o
  else match get k o with
       | Some _ => replace k v o
       | None =>
           match arrayIndex k with
           | Some i => insertIndex i k v o
           | None => (o ++ [(k, v)])%list
           end
       end.

Definition keys (o : t) : list string := map fst o.
End Ops.
End JsObject.

(** ** JSON values and [JSON.stringify(value, null, 2)] *)

Module JSON.

#[warnings="-register-all"] Inductive value : Type :=
| JString (s : string)
| JArray (items : list value)
| JObject (props : list (string * value)).

Definition LF : string := String (ascii_of_nat 10) EmptyString.
Definition DQUOTE : string := String (ascii_of_nat 34) EmptyString.
Definition BACKSLASH : string := String (ascii_of_nat 92) EmptyString.

Definition hexDigit (n : nat) : string :=
  String (ascii_of_nat (if (n <? 10)%nat then 48 + n else 87 + n)) EmptyString.

(** One code unit inside a JSON string literal (QuoteJSONString). *)
Definition escape (c : ascii) : string :=
  let n := nat_of_ascii c in
  if (n =? 34)%nat then BACKSLASH ++ DQUOTE
  else if (n =? 92)%nat then BACKSLASH ++ BACKSLASH
  else if (n =? 8)%nat then BACKSLASH ++ "b"
  else if (n =? 12)%nat then BACKSLASH ++ "f"
  else if (n =? 10)%nat then BACKSLASH ++ "n"
  else if (n =? 13)%nat then BACKSLASH ++ "r"
  else if (n =? 9)%nat then BACKSLASH ++ "t"
  else if (n <? 32)%nat then BACKSLASH ++ "u00" ++ hexDigit (n / 16) ++ hexDigit (n mod 16)
  else String c EmptyString.

Fixpoint escapeAll (s : string) : string :=
  match s with
  | EmptyString => EmptyString
  | String c s' => escape c ++ escapeAll s'
  end.

Definition quote (s : string) : string := DQUOTE ++ escapeAll s ++ DQUOTE.

Definition gap : string := "  ".

(** SerializeJSONProperty with a gap of two spaces; [indent] is the
    indentation of the enclosing line. *)
Fixpoint serialize (indent : string) (v : value) : string :=
  let inner := indent ++ gap in
  let sep := "," ++ LF ++ inner in
  match v with
  | JString s => quote s
  | JArray [] => "[]"
  | JArray items =>
      "[" ++ LF ++ inner ++ Str.join sep (map (serialize inner) items)
          ++ LF ++ indent ++ "]"
  | JObject [] => "{}"
  | JObject props =>
      "{" ++ LF ++ inner
          ++ Str.join sep
               (map (fun kv => quote (fst kv) ++ ": " ++ serialize inner (snd kv)) props)
          ++ LF ++ indent ++ "}"
  end.

Definition stringify (v : value) : string := serialize EmptyString v.

End JSON.

(** ** The storage service

    A storage program issues calls to the bucket and to the console; each
    awaited call either resolves or rejects.  The continuation of a call
    receives the outcome, so that [try]/[catch] is a transformation of the
    program. *)

Definition error := string.

(** The options of [file.save]: the content type (given at top level by the
    bundle builder and under [metadata] by the folder initializer), the
    [resumable] flag when given, and the custom metadata. *)
Record SaveOptions : Type := {
  contentType : string;
  resumable : option bool;
  customMetadata : list (string * string)
}.

Inductive level : Type := LOG | WARN | ERROR.

Inductive Storage (A : Type) : Type :=
| Ret (a : A)
| Throw (e : error)
| GetFiles (prefix : string) (maxResults : option nat)
           (k : error + list string -> Storage A)
| Save (path : string) (content : string) (opts : SaveOptions)
       (k : option error -> Storage A)
| Now (k : string -> Storage A)
| Console (lv : level) (msg : string) (k : Storage A).

Arguments Ret {A} a.
Arguments Throw {A} e.

Fixpoint bind {A B : Type} (m : Storage A) (f : A -> Storage B) : Storage B :=
  match m with
  | Ret a => f a
  | Throw e => Throw e
  | GetFiles p n k => GetFiles p n (fun r => bind (k r) f)
  | Save p c o k => Save p c o (fun r => bind (k r) f)
  | Now k => Now (fun t => bind (k t) f)
  | Console lv msg k => Console lv msg (bind k f)
  end.

(** [try { m } catch (error) { h error }] *)
Fixpoint tryCatch {A : Type} (m : Storage A) (h : error -> Storage A) : Storage A :=
  match m with
  | Ret a => Ret a
  | Throw e => h e
  | GetFiles p n k => GetFiles p n (fun r => tryCatch (k r) h)
  | Save p c o k => Save p c o (fun r => tryCatch (k r) h)
  | Now k => Now (fun t => tryCatch (k t) h)
  | Console lv msg k => Console lv msg (tryCatch k h)
  end.

Declare Scope storage_scope.
Delimit Scope storage_scope with storage.
Notation "x <- m ;; k" := (bind m (fun x => k))
  (at level 61, m at next level, right associativity) : storage_scope.
Notation "m ;; k" := (bind m (fun _ => k))
  (at level 61, right associativity) : storage_scope.
Open Scope storage_scope.

(** [await bucket.getFiles({ prefix, maxResults })], keeping the names of
    the files. *)
Definition getFiles (prefix : string) (maxResults : option nat) : Storage (list string) :=
  GetFiles prefix maxResults
    (fun r => match r with inl e => Throw e | inr files => Ret files end).

(** [await bucket.file(path).save(content, opts)] *)
Definition save (path content : string) (opts : SaveOptions) : Storage unit :=
  Save path content opts
    (fun r => match r with Some e => Throw e | None => Ret tt end).

(** [new Date().toISOString()] *)
Definition now : Storage string := Now (fun t => Ret t).

Definition console (lv : level) (msg : string) : Storage unit :=
  Console lv msg (Ret tt).

(** [for (const x of xs) body], the loop state passed along. *)
Fixpoint forOf {A S : Type} (xs : list A) (body : A -> S -> Storage S) (s : S)
  : Storage S :=
  match xs with
  | [] => Ret s
  | x :: rest => s' <- body x s ;; forOf rest body s'
  end.

(** *** A bucket and the execution of a program against it *)

Record StoredObject : Type := {
  objContent : string;
  objOptions : SaveOptions
}.

Module Bucket.

(** The objects of the bucket, by name, in the order the service lists
    them.  The service promises no order; here a new name goes last. *)
Definition t := list (string * StoredObject).

Definition names (b : t) : list string := map fst b.

(** The names that begin with [prefix], cut at [maxResults]. *)
Definition list (prefix : string) (maxResults : option nat) (b : t) : list string :=
  let found := filter (fun n => Str.startsWith n prefix) (names b) in
  match maxResults with
  | Some n => firstn n found
  | None => found
  end.

(** Writing overwrites the object of that name or creates it. *)
Fixpoint put (path : string) (o : StoredObject) (b : t) : t :=
  match b with
  | [] => [(path, o)]
  | (n, o') :: b' =>
      if String.eqb n path then (path, o) :: b' else (n, o') :: put path o b'
  end.

Fixpoint get (path : string) (b : t) : option StoredObject :=
  match b with
  | [] => None
  | (n, o) :: b' => if String.eqb n path then Some o else get path b'
  end.

End Bucket.

Inductive event : Type :=
| EvList (prefix : string) (maxResults : option nat)
| EvSave (path : string) (o : StoredObject) (failed : option error)
| EvConsole (lv : level) (msg : string).

(** The world a program runs in: the bucket, the outcome the service has in
    store for each coming call ([Some e]: the call rejects with [e]; past the
    end of the plan every call resolves), the coming readings of the clock,
    and the journal of what the program did, oldest first. *)
Record World : Type := {
  bucket : Bucket.t;
  faults : list (option error);
  clock : list string;
  journal : list event
}.

Inductive outcome (A : Type) : Type :=
| Returned (a : A)
| Thrown (e : error).

Arguments Returned {A} a.
Arguments Thrown {A} e.

Definition nextFault (w : World) : option error :=
  match faults w with
  | f :: _ => f
  | [] => None
  end.

Definition nextTime (w : World) : string :=
  match clock w with
  | t :: _ => t
  | [] => "1970-01-01T00:00:00.000Z"
  end.

(** Running a program.  A call that rejects changes nothing in the bucket;
    a [save] that resolves has written the whole object. *)
Fixpoint exec {A : Type} (m : Storage A) (w : World) : outcome A * World :=
  match m with
  | Ret a => (Returned a, w)
  | Throw e => (Thrown e, w)
  | GetFiles p n k =>
      let w' := {| bucket := bucket w; faults := tl (faults w); clock := clock w;
                   journal := (journal w ++ [EvList p n])%list |} in
      match nextFault w with
      | Some e => exec (k (inl e)) w'
      | None => exec (k (inr (Bucket.list p n (bucket w)))) w'
      end
  | Save p c o k =>
      let obj := {| objContent := c; objOptions := o |} in
      match nextFault w with
      | Some e =>
          exec (k (Some e))
               {| bucket := bucket w; faults := tl (faults w); clock := clock w;
                  journal := (journal w ++ [EvSave p obj (Some e)])%list |}
      | None =>
          exec (k None)
               {| bucket := Bucket.put p obj (bucket w); faults := tl (faults w);
                  clock := clock w;
                  journal := (journal w ++ [EvSave p obj None])%list |}
      end
  | Now k =>
      exec (k (nextTime w))
           {| bucket := bucket w; faults := faults w; clock := tl (clock w);
              journal := journal w |}
  | Console lv msg k =>
      exec k {| bucket := bucket w; faults := faults w; clock := clock w;
                journal := (journal w ++ [EvConsole lv msg])%list |}
  end.

(** The [save] calls of a journal, failed or not, oldest first. *)
Fixpoint saves (j : list event) : list (string * StoredObject) :=
  match j with
  | [] => []
  | EvSave p o _ :: j' => (p, o) :: saves j'
  | _ :: j' => saves j'
  end.

(** A world in which nothing has happened yet. *)
Definition world (b : Bucket.t) (plan : list (option error)) (ticks : list string) : World :=
  {| bucket := b; faults := plan; clock := ticks; journal := [] |}.

(** ** [generateBundleLogic.ts] *)

Module GenerateBundleLogic.

(** [{ videoPath: string; subtitlePath: string }] *)
Record LangPaths : Type := {
  videoPath : string;
  subtitlePath : string
}.

Record VideoEntry : Type := {
  id : string;
  title : string;
  languages : JsObject.t LangPaths
}.

(** [interface Bundle] *)
Record Bundle : Type := {
  version : string;
  clinic : string;
  department : string;
  videos : list VideoEntry
}.

Definition VideoMap := JsMap.t (JsMap.t LangPaths).

(** The body of the loop [for (const file of files)], as the change it makes
    to [videoMap].  [langMap] and [langEntry] are references into
    [videoMap]: changing them in place is seen through [videoMap], so the
    changed values are put back under the same keys, which keeps the
    position of each key. *)
Definition scanFile (clinic department : string) (videoMap : VideoMap)
    (filePath : string) : VideoMap :=
  if negb (Str.endsWith filePath ".mp4") && negb (Str.endsWith filePath ".vtt")
  then videoMap
  else
    match asset_match filePath with
    | None => videoMap
    | Some (fileClinic, fileDept, videoId, lang, ext) =>
        if negb (String.eqb fileClinic clinic) || negb (String.eqb fileDept department)
        then videoMap
        else
          let videoMap :=
            if JsMap.has videoId videoMap then videoMap
            else JsMap.set videoId (JsMap.empty LangPaths) videoMap in
          let langMap :=
            match JsMap.get videoId videoMap with
            | Some m => m
            | None => JsMap.empty LangPaths
            end in
          let langMap :=
            if JsMap.has lang langMap then langMap
            else JsMap.set lang {| videoPath := EmptyString; subtitlePath := EmptyString |}
                           langMap in
          let langEntry :=
            match JsMap.get lang langMap with
            | Some e => e
            | None => {| videoPath := EmptyString; subtitlePath := EmptyString |}
            end in
          let langEntry :=
            if String.eqb ext "mp4"
            then {| videoPath := filePath; subtitlePath := subtitlePath langEntry |}
            else {| videoPath := videoPath langEntry; subtitlePath := filePath |} in
          JsMap.set videoId (JsMap.set lang langEntry langMap) videoMap
    end.

(** The first loop: [videoMap] after all files were seen. *)
Definition scanFiles (clinic department : string) (files : list string) : VideoMap :=
  fold_left (scanFile clinic department) files (JsMap.empty (JsMap.t LangPaths)).

(** The inner loop of the second part: [languages[lang] = {...}] for the
    entries of [langMap], starting from [{}]. *)
Definition languagesOf (langMap : JsMap.t LangPaths) : JsObject.t LangPaths :=
  fold_left
    (fun languages entry =>
       JsObject.assign (fst entry)
         {| videoPath := videoPath (snd entry);
            subtitlePath := subtitlePath (snd entry) |}
         languages)
    (JsMap.entries langMap) (JsObject.empty LangPaths).

(** The second loop: one [videos.push] for each entry of [videoMap]. *)
Definition videosOf (videoMap : VideoMap) : list VideoEntry :=
  map (fun entry =>
         {| id := fst entry; title := fst entry; languages := languagesOf (snd entry) |})
      (JsMap.entries videoMap).

Definition buildBundle (clinic department : string) (files : list string) : Bundle :=
  {| version := "1.0";
     clinic := clinic;
     department := department;
     videos := videosOf (scanFiles clinic department files) |}.

(** The bundle as the JSON value [JSON.stringify] walks: the properties of
    each object in the order of their creation, those of [languages] in
    the order of [JsObject]. *)
Definition jsonOfPaths (p : LangPaths) : JSON.value :=
  JSON.JObject [("videoPath", JSON.JString (videoPath p));
                ("subtitlePath", JSON.JString (subtitlePath p))].

Definition jsonOfVideo (v : VideoEntry) : JSON.value :=
  JSON.JObject [("id", JSON.JString (id v));
                ("title", JSON.JString (title v));
                ("languages",
                 JSON.JObject (map (fun kv => (fst kv, jsonOfPaths (snd kv))) (languages v)))].

Definition jsonOfBundle (b : Bundle) : JSON.value :=
  JSON.JObject [("version", JSON.JString (version b));
                ("clinic", JSON.JString (clinic b));
                ("department", JSON.JString (department b));
                ("videos", JSON.JArray (map jsonOfVideo (videos b)))].

Definition listPrefix (clinic department : string) : string :=
  "videos/" ++ clinic ++ "/" ++ department ++ "/".

Definition bundlePathOf (clinic department : string) : string :=
  "bundles/" ++ clinic ++ "/" ++ department ++ "/bundle.json".

Definition bundleJsonOf (clinic department : string) (files : list string) : string :=
  JSON.stringify (jsonOfBundle (buildBundle clinic department files)).

Definition bundleSaveOptions : SaveOptions :=
  {| contentType := "application/json"; resumable := Some false; customMetadata := [] |}.

(** Scans [videos/<clinic>/<department>/**] and writes
    [bundles/<clinic>/<department>/bundle.json]. *)
Definition generateBundleLogic (clinic department : string) : Storage string :=
  let prefix := listPrefix clinic department in
  files <- getFiles prefix None ;;
  let bundleJson := bundleJsonOf clinic department files in
  let bundlePath := bundlePathOf clinic department in
  save bundlePath bundleJson bundleSaveOptions ;;
  Ret bundlePath.

(** All [videoPath] and [subtitlePath] values of a bundle. *)
Definition pathsOfEntry (p : LangPaths) : list string := [videoPath p; subtitlePath p].

Definition pathsOfVideo (v : VideoEntry) : list string :=
  flat_map (fun kv => pathsOfEntry (snd kv)) (languages v).

Definition bundlePaths (b : Bundle) : list string :=
  flat_map pathsOfVideo (videos b).

(** The language entry of a bundle for a video and a language code. *)
Definition findVideo (videoId : string) (b : Bundle) : option VideoEntry :=
  find (fun v => String.eqb (id v) videoId) (videos b).

Definition langEntryOf (videoId lang : string) (b : Bundle) : option LangPaths :=
  match findVideo videoId b with
  | Some v => JsObject.get lang (languages v)
  | None => None
  end.

End GenerateBundleLogic.

(** ** [languageFolderUtils.ts] *)

Module LanguageFolderUtils.

(** The default of the parameter [languages]: ISO 639-1 codes. *)
Definition defaultLanguages : list string :=
  ["ar"; "zh"; "cs"; "de"; "en"; "es"; "fr"; "hr";
   "hu"; "it"; "pl"; "ro"; "ru"; "sk"; "tr"; "uk"].

Definition langFolderPathOf (clinic department name lang : string) : string :=
  "videos/" ++ clinic ++ "/" ++ department ++ "/" ++ name ++ "/" ++ lang ++ "/".

Definition placeholderPathOf (clinic department name lang : string) : string :=
  langFolderPathOf clinic department name lang ++ ".placeholder".

Definition placeholderOptions (name lang createdAt : string) : SaveOptions :=
  {| contentType := "text/plain";
     resumable := None;
     customMetadata := [("purpose", "language-folder-structure");
                        ("videoName", name);
                        ("language", lang);
                        ("createdAt", createdAt)] |}.

Definition showNat (n : nat) : string :=
  DecimalString.NilZero.string_of_uint (Nat.to_uint n).

(** The body of [for (const lang of languages)]; the loop state is
    [createdFolders]. *)
Definition setupLanguage (clinic department name lang : string)
    (createdFolders : list string) : Storage (list string) :=
  let langFolderPath := langFolderPathOf clinic department name lang in
  let placeholderPath := langFolderPath ++ ".placeholder" in
  existingFiles <- getFiles langFolderPath (Some 1) ;;
  if (List.length existingFiles =? 0)%nat then
    createdAt <- now ;;
    save placeholderPath EmptyString (placeholderOptions name lang createdAt) ;;
    console LOG ("[LANG-SETUP] Created folder: " ++ langFolderPath) ;;
    Ret (createdFolders ++ [lang])%list
  else Ret createdFolders.

(** Creates the language folders of a video directory: for every language
    without an object under its prefix, a placeholder.  [languages] is the
    optional fourth argument. *)
Definition createLanguageFolders (clinic department videoName : string)
    (languages : option (list string)) : Storage unit :=
  let languages :=
    match languages with
    | Some ls => ls
    | None => defaultLanguages
    end in
  let name := Str.trim videoName in
  if negb (Str.nonempty name) then
    console WARN "[LANG-SETUP] empty videoName, skipping" ;;
    Ret tt
  else
    console LOG ("[LANG-SETUP] Setting up language folders for: "
                 ++ clinic ++ "/" ++ department ++ "/" ++ name) ;;
    tryCatch
      (createdFolders <-
         forOf languages (setupLanguage clinic department name) [] ;;
       if (0 <? List.length createdFolders)%nat then
         console LOG ("[LANG-SETUP] Successfully created "
                      ++ showNat (List.length createdFolders)
                      ++ " language folders for " ++ JSON.DQUOTE ++ name ++ JSON.DQUOTE
                      ++ ": " ++ Str.join ", " createdFolders)
       else
         console LOG ("[LANG-SETUP] All language folders already exist for "
                      ++ JSON.DQUOTE ++ name ++ JSON.DQUOTE))
      (fun error =>
         console ERROR ("[LANG-SETUP] Error creating language folders for "
                        ++ JSON.DQUOTE ++ name ++ JSON.DQUOTE ++ ": " ++ error) ;;
         Throw error).

End LanguageFolderUtils.

(** ** [index.ts]: the storage trigger of the language folders *)

Module Index.

(** Supported languages for folder creation (ISO 639-1 codes). *)
Definition SUPPORTED_LANGUAGES : list string :=
  ["ar"; "zh"; "cs"; "de"; "en"; "es"; "fr"; "hr";
   "hu"; "it"; "pl"; "ro"; "ru"; "sk"; "tr"; "uk"].

(** The call the trigger makes for a matched path, inside its [try], with
    the error swallowed at the boundary. *)
Definition invokeInitializer (clinic department videoName : string) : Storage unit :=
  tryCatch
    (LanguageFolderUtils.createLanguageFolders clinic department videoName
       (Some SUPPORTED_LANGUAGES) ;;
     console LOG ("[LANGUAGE FOLDERS] Folders created for "
                  ++ clinic ++ "/" ++ department ++ "/" ++ videoName))
    (fun e => console ERROR ("[LANGUAGE FOLDERS] Error creating folders: " ++ e)).

(** [export const createLanguageFolders = onObjectFinalized(..., handler)]:
    the handler, given [event.data.name].  (The arrow of the first log line
    is outside the 8-bit range and written [->].) *)
Definition createLanguageFolders (eventName : option string) : Storage unit :=
  let path := match eventName with Some n => n | None => EmptyString end in
  match videoDir_match path with
  | None => Ret tt
  | Some (clinic, department, videoName) =>
      console LOG ("[LANGUAGE FOLDERS] " ++ path ++ " -> creating folders for "
                   ++ clinic ++ "/" ++ department ++ "/" ++ videoName) ;;
      invokeInitializer clinic department videoName
  end.

End Index.

(** ** Notions the statements use *)

Module Spec.

(** A path segment: a non-empty sequence of code units other than ["/"]. *)
Definition isSegment (s : string) : Prop :=
  Str.nonempty s = true /\ Str.lacks "/" s = true.

(** The asset path grammar under a namespace:
    [videos/<clinic>/<department>/<videoId>/<langCode>/<fileName>.<ext>]
    with [ext] one of [mp4] and [vtt]. *)
Inductive AssetPath (clinic department : string)
  : string -> string -> string -> string -> Prop :=
| AssetPath_intro videoId lang fileName ext :
    isSegment clinic -> isSegment department ->
    isSegment videoId -> isSegment lang -> isSegment fileName ->
    ext = "mp4" \/ ext = "vtt" ->
    AssetPath clinic department
      ("videos/" ++ clinic ++ "/" ++ department ++ "/" ++ videoId ++ "/" ++ lang
         ++ "/" ++ fileName ++ "." ++ ext)
      videoId lang ext.

(** The field of a language entry an extension is stored in. *)
Definition fieldOf (ext : string) (e : GenerateBundleLogic.LangPaths) : string :=
  if String.eqb ext "mp4" then GenerateBundleLogic.videoPath e
  else GenerateBundleLogic.subtitlePath e.

(** [name] is the last object of the listing with its video, language and
    extension: the listing is [before ++ name :: after] and no name of
    [after] matches the grammar with the same three. *)
Definition lastOfItsKind (clinic department : string) (files : list string)
    (name videoId lang ext : string) : Prop :=
  exists before after,
    files = (before ++ name :: after)%list /\
    forall other, In other after ->
      ~ AssetPath clinic department other videoId lang ext.

(** The segments of an upload name below [videos/]: the first three, when
    the name has them. *)
Definition firstThreeSegments (name : string) : option (string * string * string) :=
  match Str.split "/" name with
  | root :: c :: d :: v :: _ =>
      if String.eqb root "videos" && Str.nonempty c && Str.nonempty d && Str.nonempty v
      then Some (c, d, v)
      else None
  | _ => None
  end.

(** Some object of the bucket has a name that begins with [prefix]. *)
Definition hasObject (b : Bucket.t) (prefix : string) : bool :=
  existsb (fun n => Str.startsWith n prefix) (Bucket.names b).

(** The clock and fault plan aside, a world is its bucket. *)
Definition calm (b : Bucket.t) : World := world b [] [].

End Spec.

(** ** The scan of the listing, step by step

    What one round of the loop of [generateBundleLogic] does, in the terms
    the proofs use: whether the file passes the three tests, and the entry
    that is written when it does. *)

Module Scan.

Import GenerateBundleLogic.

(** The video, language and extension of a file that passes the tests of
    the loop. *)
Definition accepted (clinic department filePath : string)
  : option (string * string * string) :=
  match asset_match filePath with
  | Some (fileClinic, fileDept, videoId, lang, ext) =>
      if String.eqb fileClinic clinic && String.eqb fileDept department
      then Some (videoId, lang, ext)
      else None
  | None => None
  end.

Definition blankEntry : LangPaths :=
  {| videoPath := EmptyString; subtitlePath := EmptyString |}.

Definition setPath (ext filePath : string) (e : LangPaths) : LangPaths :=
  if String.eqb ext "mp4"
  then {| videoPath := filePath; subtitlePath := subtitlePath e |}
  else {| videoPath := videoPath e; subtitlePath := filePath |}.

Definition langMapOf (videoId : string) (videoMap : VideoMap) : JsMap.t LangPaths :=
  match JsMap.get videoId videoMap with
  | Some m => m
  | None => JsMap.empty LangPaths
  end.

Definition entryOf (lang : string) (langMap : JsMap.t LangPaths) : LangPaths :=
  match JsMap.get lang langMap with
  | Some e => e
  | None => blankEntry
  end.

(** The entry of a video and a language in [videoMap]. *)
Definition lookup (videoId lang : string) (videoMap : VideoMap) : option LangPaths :=
  JsMap.get lang (langMapOf videoId videoMap).

(** [videoMap] after an accepted file was recorded. *)
Definition record (videoId lang ext filePath : string) (videoMap : VideoMap) : VideoMap :=
  let langMap := langMapOf videoId videoMap in
  JsMap.set videoId
    (JsMap.set lang (setPath ext filePath (entryOf lang langMap)) langMap)
    videoMap.

(** A property of every language entry, given its video and language. *)
Definition AllEntries (P : string -> string -> LangPaths -> Prop) (videoMap : VideoMap) : Prop :=
  forall v lm l e, In (v, lm) videoMap -> In (l, e) lm -> P v l e.

(** No key occurs twice, neither among the videos nor among the languages
    of a video. *)
Definition WellKeyed (videoMap : VideoMap) : Prop :=
  NoDup (JsMap.keys videoMap) /\
  forall v lm, In (v, lm) videoMap -> NoDup (JsMap.keys lm).

(** A path value is empty or the name of a listed file accepted for the
    video, language and extension of the field it stands in. *)
Definition fromListing (clinic department : string) (files : list string)
    (v l ext path : string) : Prop :=
  path = EmptyString \/
  (In path files /\ accepted clinic department path = Some (v, l, ext)).

(** What the scan maintains for every language entry. *)
Definition EntryOk (clinic department : string) (files : list string)
    (v l : string) (e : LangPaths) : Prop :=
  fromListing clinic department files v l "mp4" (videoPath e) /\
  fromListing clinic department files v l "vtt" (subtitlePath e) /\
  (videoPath e <> EmptyString \/ subtitlePath e <> EmptyString).

End Scan.

(** Notions of the statements about the listing and the grammar. *)

Module Grammar.

(** The segments of a name below the root [videos/]. *)
Definition segmentsUnderRoot (name : string) : option (list string) :=
  match Str.split "/" name with
  | root :: segs => if String.eqb root "videos" then Some segs else None
  | [] => None
  end.

(** The name ends with one of the two extensions. *)
Definition hasAssetExtension (name : string) : bool :=
  Str.endsWith name ".mp4" || Str.endsWith name ".vtt".

(** A name the grammar rejects for a namespace: not five segments under
    the root, or another extension, or another clinic or department. *)
Definition outside (clinic department name : string) : Prop :=
  (forall segs, segmentsUnderRoot name = Some segs -> List.length segs <> 5) \/
  hasAssetExtension name = false \/
  (forall segs, segmentsUnderRoot name = Some segs ->
     nth_error segs 0 <> Some clinic \/ nth_error segs 1 <> Some department).

End Grammar.

(** How often a name occurs among the path values of a bundle. *)
Definition occurrences (name : string) (b : GenerateBundleLogic.Bundle) : nat :=
  count_occ string_dec (GenerateBundleLogic.bundlePaths b) name.

(** The claim on the upload trigger, in the words of the specification: a
    name with a third segment under [videos/<clinic>/<department>/] makes
    the trigger call the initializer with that segment. *)
Definition triggerOnThirdSegment : Prop :=
  forall name c d v,
    Spec.firstThreeSegments name = Some (c, d, v) ->
    exists msg,
      Index.createLanguageFolders (Some name) =
      Console LOG msg (Index.invokeInitializer c d v).

(** The completeness claim in the words of the specification: every listed
    name that matches the grammar is the value of exactly one path. *)
Definition completenessOfEveryMatch : Prop :=
  forall clinic department files name v l ext,
    In name files ->
    Spec.AssetPath clinic department name v l ext ->
    occurrences name (GenerateBundleLogic.buildBundle clinic department files) = 1.

(** What a run of the folder initializer may change: the journal grows;
    every [save] it issues is the placeholder of one of the languages, and
    that language had no object under its prefix when the run began;
    without a [save] the bucket is as it was; no name leaves the bucket. *)
Definition FolderRun (clinic department name : string) (langs : list string)
    (w w' : World) : Prop :=
  exists extra,
    journal w' = (journal w ++ extra)%list /\
    (forall p o, In (p, o) (saves extra) ->
       exists lang, In lang langs /\
         p = LanguageFolderUtils.placeholderPathOf clinic department name lang /\
         Spec.hasObject (bucket w)
           (LanguageFolderUtils.langFolderPathOf clinic department name lang) = false) /\
    (saves extra = [] -> bucket w' = bucket w) /\
    (forall n, In n (Bucket.names (bucket w)) -> In n (Bucket.names (bucket w'))).

(** The world after a line was written to the console. *)
Definition logged (lv : level) (msg : string) (w : World) : World :=
  {| bucket := bucket w; faults := faults w; clock := clock w;
     journal := (journal w ++ [EvConsole lv msg])%list |}.



(** ** [index.ts]: the other entry points *)

Module Handlers.

Import Regex.

(** [/^videos\/([^/]+)\/([^/]+)\//] *)
Definition namespace_re : re :=
  Cat (Lit "videos/") (Cat segment (Cat (Lit "/") (Cat segment (Lit "/")))).

(** [path.match(/^videos\/([^/]+)\/([^/]+)\//)]: the captures
    [clinic, department], or [None]. *)
Definition namespace_match (path : string) : option (string * string) :=
  match Str.split "/" path with
  | root :: c :: d :: _ :: _ =>
      if String.eqb root "videos" && Str.nonempty c && Str.nonempty d
      then Some (c, d)
      else None
  | _ => None
  end.

(** The handler of [autoGenerateBundle], given [event.data.name].  (As in
    the folder trigger, the arrow of the first log line is written [->].) *)
Definition autoGenerateBundle (eventName : option string) : Storage unit :=
  let path := match eventName with Some n => n | None => EmptyString end in
  match namespace_match path with
  | None => Ret tt
  | Some (clinic, department) =>
      console LOG ("[UPLOAD] " ++ path ++ " -> updating bundle for "
                   ++ clinic ++ "/" ++ department) ;;
      tryCatch
        (GenerateBundleLogic.generateBundleLogic clinic department ;;
         console LOG ("[UPLOAD] Bundle updated for " ++ clinic ++ "/" ++ department))
        (fun e => console ERROR ("[UPLOAD] Error updating bundle: " ++ e))
  end.

(** The handler of [cleanupBundle], given [event.data.name]. *)
Definition cleanupBundle (eventName : option string) : Storage unit :=
  let path := match eventName with Some n => n | None => EmptyString end in
  match namespace_match path with
  | None => Ret tt
  | Some (clinic, department) =>
      console LOG ("[DELETE] " ++ path ++ " -> cleaning bundle for "
                   ++ clinic ++ "/" ++ department) ;;
      tryCatch
        (GenerateBundleLogic.generateBundleLogic clinic department ;;
         console LOG ("[DELETE] Bundle cleaned for " ++ clinic ++ "/" ++ department))
        (fun e => console ERROR ("[DELETE] Error cleaning bundle: " ++ e))
  end.

(** What the HTTP handler sends: [res.status(status).send(body)]. *)
Record Response : Type := {
  status : nat;
  body : string
}.

(** The handler of [generateBundle], given [req.query.clinic] and
    [req.query.department]; every path of the handler sends one response,
    which is the result here. *)
Definition generateBundle (queryClinic queryDepartment : option string)
  : Storage Response :=
  let clinic := match queryClinic with Some s => s | None => EmptyString end in
  let department := match queryDepartment with Some s => s | None => EmptyString end in
  if negb (Str.nonempty clinic) || negb (Str.nonempty department) then
    Ret {| status := 400; body := "Missing clinic or department parameters." |}
  else
    tryCatch
      (console LOG ("[HTTP] Generating bundle for " ++ clinic ++ "/" ++ department) ;;
       path <- GenerateBundleLogic.generateBundleLogic clinic department ;;
       Ret {| status := 200; body := "bundle.json created at " ++ path |})
      (fun e =>
         console ERROR ("[HTTP] Error generating bundle: " ++ e) ;;
         Ret {| status := 500; body := "Error generating bundle.json" |}).

End Handlers.

(** ** Notions of the further statements *)

Module More.

(** The elements of a list, each at its first occurrence. *)
Fixpoint distinct (xs : list string) : list string :=
  match xs with
  | [] => []
  | x :: rest => x :: filter (fun y => negb (String.eqb y x)) (distinct rest)
  end.

(** The video identifiers of the files of a listing that pass the tests of
    the scan, in listing order. *)
Definition acceptedVideoIds (clinic department : string) (files : list string)
  : list string :=
  flat_map (fun f => match Scan.accepted clinic department f with
                     | Some (v, _, _) => [v]
                     | None => []
                     end) files.

Definition isAccepted (clinic department f : string) : bool :=
  match Scan.accepted clinic department f with Some _ => true | None => false end.

(** The order of own property keys: array-index keys first, ascending from
    [lo], then keys that are no array index. *)
Fixpoint orderedFrom (lo : N) (ks : list string) : bool :=
  match ks with
  | [] => true
  | k :: rest =>
      match JsObject.arrayIndex k with
      | Some n => (lo <=? n)%N && orderedFrom n rest
      | None => forallb (fun k' => match JsObject.arrayIndex k' with
                                   | Some _ => false
                                   | None => true
                                   end) rest
      end
  end.

Definition ownKeyOrder (ks : list string) : bool := orderedFrom 0 ks.

(** The prefixes a journal probed with [getFiles], oldest first. *)
Fixpoint probes (j : list event) : list string :=
  match j with
  | [] => []
  | EvList p _ :: j' => p :: probes j'
  | _ :: j' => probes j'
  end.

(** Every object of [b] is in [b'] as it was. *)
Definition keeps (b b' : Bucket.t) : Prop :=
  forall n, In n (Bucket.names b) ->
    In n (Bucket.names b') /\ Bucket.get n b' = Bucket.get n b.

End More.

(* ################################################################# *)
(** * Properties *)

Unset Implicit Arguments.

(** ** Strings: evaluation on the shapes the functions see *)

Example split_asset :
  Str.split "/" "videos/c1/d1/v1/en/a.mp4" = ["videos"; "c1"; "d1"; "v1"; "en"; "a.mp4"].
Proof. reflexivity. Qed.

Example split_edges : Str.split "/" "/a//" = [""; "a"; ""; ""].
Proof. reflexivity. Qed.

Example trim_both : Str.trim "  Bunter Star " = "Bunter Star".
Proof. reflexivity. Qed.

Example endsWith_mp4 :
  Str.endsWith "a.mp4" ".mp4" = true /\ Str.endsWith "a.mp4x" ".mp4" = false.
Proof. split; reflexivity. Qed.

(** ** Strings: concatenation, prefixes, suffixes and [split] *)

Section StringFacts.

Lemma append_nil_r (s : string) : s ++ EmptyString = s.
Proof. induction s as [|c s IH]; simpl; [reflexivity | now rewrite IH]. Qed.

Lemma append_assoc (a b c : string) : (a ++ b) ++ c = a ++ b ++ c.
Proof. induction a as [|x a IH]; simpl; [reflexivity | now rewrite IH]. Qed.

Lemma length_append (a b : string) :
  String.length (a ++ b) = String.length a + String.length b.
Proof. induction a as [|x a IH]; simpl; [reflexivity | now rewrite IH]. Qed.

Lemma append_inv_head (a b c : string) : a ++ b = a ++ c -> b = c.
Proof.
  induction a as [|x a IH]; simpl; intros H; [exact H|].
  injection H as H. now apply IH.
Qed.

Lemma append_eq_length (a b c d : string) :
  a ++ b = c ++ d -> String.length a = String.length c -> a = c /\ b = d.
Proof.
  revert c. induction a as [|x a IH]; intros [|y c]; simpl; intros H L;
    try discriminate.
  - now split.
  - injection H as -> H. injection L as L.
    destruct (IH _ H L) as [-> ->]. now split.
Qed.

Lemma append_inv_tail (a b c : string) : a ++ c = b ++ c -> a = b.
Proof.
  intros H. apply (append_eq_length _ _ _ _ H).
  apply (f_equal String.length) in H. rewrite !length_append in H. lia.
Qed.

Lemma nonempty_length (s : string) : Str.nonempty s = true <-> 0 < String.length s.
Proof. destruct s; simpl; split; intros; try easy; lia. Qed.

Lemma nonempty_app_l (a b : string) :
  Str.nonempty a = true -> Str.nonempty (a ++ b) = true.
Proof. now destruct a. Qed.

Lemma lacks_app (c : ascii) (a b : string) :
  Str.lacks c (a ++ b) = Str.lacks c a && Str.lacks c b.
Proof.
  induction a as [|x a IH]; simpl; [reflexivity|].
  now rewrite IH, andb_assoc.
Qed.

Lemma startsWith_iff (s p : string) :
  Str.startsWith s p = true <-> exists r, s = p ++ r.
Proof.
  revert s. induction p as [|a p IH]; intros s; simpl.
  - split; [intros _; now exists s | reflexivity].
  - destruct s as [|b s].
    + split; [discriminate | intros [r H]; discriminate].
    + rewrite andb_true_iff, Ascii.eqb_eq, IH. split.
      * intros [-> [r ->]]. now exists r.
      * intros [r H]. injection H as -> ->. split; [reflexivity | now exists r].
Qed.

Lemma startsWith_app (p r : string) : Str.startsWith (p ++ r) p = true.
Proof. apply startsWith_iff. now exists r. Qed.

Lemma endsWith_iff (s suf : string) :
  Str.endsWith s suf = true <-> exists pre, s = pre ++ suf.
Proof.
  induction s as [|c s IH].
  - simpl. rewrite orb_false_r. split.
    + intros H. exists EmptyString. destruct suf; [reflexivity | discriminate].
    + intros [pre H]. destruct pre; simpl in H; [now subst | discriminate].
  - change (Str.endsWith (String c s) suf)
      with (String.eqb (String c s) suf || Str.endsWith s suf).
    rewrite orb_true_iff, String.eqb_eq, IH. split.
    + intros [<- | [pre ->]]; [now exists EmptyString | now exists (String c pre)].
    + intros [[|x pre] H]; simpl in H.
      * now left.
      * injection H as <- ->. right. now exists pre.
Qed.

(** [split] and the separator *)

Lemma split_nonnil (sep : ascii) (s : string) : Str.split sep s <> [].
Proof.
  destruct s as [|c s]; simpl; [discriminate|].
  destruct (Ascii.eqb c sep); [discriminate|].
  destruct (Str.split sep s); discriminate.
Qed.

Lemma split_lacks (sep : ascii) (s : string) :
  Str.lacks sep s = true -> Str.split sep s = [s].
Proof.
  induction s as [|c s IH]; simpl; [reflexivity|].
  rewrite andb_true_iff, negb_true_iff. intros [-> H].
  now rewrite (IH H).
Qed.

Lemma split_app (sep : ascii) (a b : string) :
  Str.lacks sep a = true ->
  Str.split sep (a ++ String sep b) = a :: Str.split sep b.
Proof.
  induction a as [|c a IH]; simpl.
  - intros _. now rewrite Ascii.eqb_refl.
  - rewrite andb_true_iff, negb_true_iff. intros [-> H].
    now rewrite (IH H).
Qed.

Lemma split_all_lack (sep : ascii) (s : string) :
  Forall (fun x => Str.lacks sep x = true) (Str.split sep s).
Proof.
  induction s as [|c s IH]; simpl.
  - now repeat constructor.
  - destruct (Ascii.eqb c sep) eqn:E.
    + now constructor.
    + destruct (Str.split sep s) as [|hd tl].
      * repeat constructor. simpl. now rewrite E.
      * inversion IH; subst. constructor; [|assumption].
        simpl. now rewrite E.
Qed.

Lemma join_split (sep : ascii) (s : string) :
  Str.join (String sep EmptyString) (Str.split sep s) = s.
Proof.
  induction s as [|c s IH]; simpl; [reflexivity|].
  destruct (Ascii.eqb c sep) eqn:E.
  - apply Ascii.eqb_eq in E as ->.
    pose proof (split_nonnil sep s) as N.
    destruct (Str.split sep s) as [|hd tl]; [easy|].
    now rewrite <- IH.
  - pose proof (split_nonnil sep s) as N.
    destruct (Str.split sep s) as [|hd tl]; [easy|].
    rewrite <- IH. now destruct tl.
Qed.

End StringFacts.

(** Concatenations re-associated to the right, literals unfolded. *)
Ltac normalize_append := repeat (rewrite append_assoc || (progress simpl)).

(** ** The path patterns: matcher, grammar and regular expression agree *)

Section Patterns.

Lemma isSegment_split (s rest : string) :
  Spec.isSegment s ->
  Str.split "/" (s ++ "/" ++ rest) = s :: Str.split "/" rest.
Proof. intros [_ L]. now apply split_app. Qed.

Lemma dot_ext_differ (a b : string) : a ++ ".mp4" <> b ++ ".vtt".
Proof.
  intros H. apply append_eq_length in H as [_ H]; [discriminate|].
  apply (f_equal String.length) in H. rewrite !length_append in H. simpl in H. lia.
Qed.

Lemma fileExt_iff (f e : string) :
  fileExt f = Some e <->
  exists stem, Str.nonempty stem = true /\ f = stem ++ "." ++ e /\ (e = "mp4" \/ e = "vtt").
Proof.
  unfold fileExt. split.
  - destruct (4 <? String.length f)%nat eqn:L; simpl; [|discriminate].
    apply Nat.ltb_lt in L.
    destruct (Str.endsWith f ".mp4") eqn:E1; [|destruct (Str.endsWith f ".vtt") eqn:E2];
      intros H; inversion H; subst e.
    + apply endsWith_iff in E1 as [stem ->]. exists stem.
      rewrite length_append in L; simpl in L.
      repeat split; [apply nonempty_length; lia | now left].
    + apply endsWith_iff in E2 as [stem ->]. exists stem.
      rewrite length_append in L; simpl in L.
      repeat split; [apply nonempty_length; lia | now right].
  - intros (stem & N & -> & E). apply nonempty_length in N.
    assert (L : forall x, String.length x = 4 ->
                          (4 <? String.length (stem ++ x))%nat = true).
    { intros x Hx. apply Nat.ltb_lt. rewrite length_append. lia. }
    destruct E; subst e.
    + change (stem ++ "." ++ "mp4") with (stem ++ ".mp4").
      assert (E : Str.endsWith (stem ++ ".mp4") ".mp4" = true)
        by (apply endsWith_iff; now exists stem).
      rewrite E. now rewrite L.
    + change (stem ++ "." ++ "vtt") with (stem ++ ".vtt").
      assert (E : Str.endsWith (stem ++ ".vtt") ".vtt" = true)
        by (apply endsWith_iff; now exists stem).
      destruct (Str.endsWith (stem ++ ".vtt") ".mp4") eqn:E'.
      * apply endsWith_iff in E' as [pre E']. symmetry in E'.
        now apply dot_ext_differ in E'.
      * rewrite E. now rewrite L.
Qed.

(** The matcher accepts exactly the asset path grammar, with its parts. *)
Lemma asset_match_iff (s c d v l e : string) :
  asset_match s = Some (c, d, v, l, e) <-> Spec.AssetPath c d s v l e.
Proof.
  split.
  - unfold asset_match. intros H.
    pose proof (join_split "/" s) as J.
    pose proof (split_all_lack "/" s) as A.
    destruct (Str.split "/" s) as [|root [|c' [|d' [|v' [|l' [|f [|? ?]]]]]]];
      try discriminate.
    destruct (String.eqb root "videos") eqn:R; [|discriminate].
    destruct (Str.nonempty c') eqn:Nc; [|discriminate].
    destruct (Str.nonempty d') eqn:Nd; [|discriminate].
    destruct (Str.nonempty v') eqn:Nv; [|discriminate].
    destruct (Str.nonempty l') eqn:Nl; [|discriminate].
    simpl in H. destruct (fileExt f) as [e'|] eqn:F; [|discriminate].
    injection H as -> -> -> -> ->.
    apply String.eqb_eq in R as ->.
    apply fileExt_iff in F as (stem & Ns & -> & E).
    repeat match goal with H : Forall _ (_ :: _) |- _ => inversion H; subst; clear H end.
    match goal with H : Str.lacks _ (stem ++ _) = true |- _ =>
      rewrite lacks_app in H; apply andb_true_iff in H as [Ls _] end.
    now apply (Spec.AssetPath_intro (clinic:=c) (department:=d) (videoId:=v)
                 (lang:=l) (fileName:=stem) (ext:=e)).
  - intros [v' l' stem e' Hc Hd Hv Hl Hs He]. unfold asset_match.
    change ("videos/" ++ c ++ "/" ++ d ++ "/" ++ v' ++ "/" ++ l' ++ "/" ++ stem ++ "." ++ e')
      with ("videos" ++ "/" ++ c ++ "/" ++ d ++ "/" ++ v' ++ "/" ++ l' ++ "/" ++ stem ++ "." ++ e').
    rewrite (@isSegment_split "videos") by (now split).
    rewrite !isSegment_split by assumption.
    rewrite split_lacks.
    + destruct Hc as [-> _], Hd as [-> _], Hv as [-> _], Hl as [-> _].
      rewrite String.eqb_refl. cbn [andb].
      assert (F : fileExt (stem ++ "." ++ e') = Some e').
      { apply fileExt_iff. exists stem. now destruct Hs. }
      now rewrite F.
    + destruct Hs as [_ Ls]. rewrite lacks_app, Ls.
      now destruct He; subst e'.
Qed.

(** Whatever the matcher accepts ends with one of the two suffixes, so the
    [endsWith] test before it never decides alone. *)
Lemma asset_match_endsWith (s c d v l e : string) :
  asset_match s = Some (c, d, v, l, e) ->
  Str.endsWith s ".mp4" = true \/ Str.endsWith s ".vtt" = true.
Proof.
  intros H. apply asset_match_iff in H. destruct H as [v l stem e _ _ _ _ _ [-> | ->]].
  - left. apply endsWith_iff.
    exists ("videos/" ++ c ++ "/" ++ d ++ "/" ++ v ++ "/" ++ l ++ "/" ++ stem).
    now rewrite !append_assoc.
  - right. apply endsWith_iff.
    exists ("videos/" ++ c ++ "/" ++ d ++ "/" ++ v ++ "/" ++ l ++ "/" ++ stem).
    now rewrite !append_assoc.
Qed.

Lemma asset_match_segments (s c d v l e : string) :
  asset_match s = Some (c, d, v, l, e) ->
  Spec.isSegment c /\ Spec.isSegment d /\ Spec.isSegment v /\ Spec.isSegment l.
Proof. intros H. apply asset_match_iff in H. now destruct H. Qed.

(** The prefix pattern of the folder trigger. *)
Lemma videoDir_match_iff (path c d v : string) :
  videoDir_match path = Some (c, d, v) <->
  Spec.isSegment c /\ Spec.isSegment d /\ Spec.isSegment v /\
  exists rest, path = "videos/" ++ c ++ "/" ++ d ++ "/" ++ v ++ "/" ++ rest.
Proof.
  split.
  - unfold videoDir_match. intros H.
    pose proof (join_split "/" path) as J.
    pose proof (split_all_lack "/" path) as A.
    destruct (Str.split "/" path) as [|root [|c' [|d' [|v' [|x tl]]]]];
      try discriminate.
    destruct (String.eqb root "videos") eqn:R; [|discriminate].
    destruct (Str.nonempty c') eqn:Nc; [|discriminate].
    destruct (Str.nonempty d') eqn:Nd; [|discriminate].
    destruct (Str.nonempty v') eqn:Nv; [|discriminate].
    injection H as -> -> ->. apply String.eqb_eq in R as ->.
    repeat match goal with H : Forall _ (_ :: _) |- _ => inversion H; subst; clear H end.
    repeat split; try assumption.
    now exists (Str.join "/" (x :: tl)).
  - intros (Hc & Hd & Hv & rest & ->). unfold videoDir_match.
    change ("videos/" ++ c ++ "/" ++ d ++ "/" ++ v ++ "/" ++ rest)
      with ("videos" ++ "/" ++ c ++ "/" ++ d ++ "/" ++ v ++ "/" ++ rest).
    rewrite (@isSegment_split "videos") by (now split).
    rewrite !isSegment_split by assumption.
    pose proof (split_nonnil "/" rest) as N.
    destruct (Str.split "/" rest); [easy|].
    now destruct Hc as [-> _], Hd as [-> _], Hv as [-> _].
Qed.

End Patterns.

Section RegexFacts.

Import Regex.

Lemma all_notSlash (s : string) : all notSlash s = Str.lacks "/" s.
Proof. induction s as [|c s IH]; simpl; [reflexivity | now rewrite IH]. Qed.

Lemma cat_lit (x : string) (r : re) (s : string) (cs : list string) :
  Matches r s cs -> Matches (Cat (Lit x) r) (x ++ s) cs.
Proof. intros H. exact (MCat (MLit x) H). Qed.

Lemma matches_segment (a : string) : Spec.isSegment a -> Matches segment a [a].
Proof.
  intros [N L]. apply MGroup, MPlus; [assumption | now rewrite all_notSlash].
Qed.

Lemma cat_segment (r : re) (a s : string) (cs : list string) :
  Spec.isSegment a -> Matches r s cs -> Matches (Cat segment r) (a ++ s) (a :: cs).
Proof. intros Ha H. exact (MCat (matches_segment a Ha) H). Qed.

Lemma inv_cat_lit (x : string) (r : re) (s : string) (cs : list string) :
  Matches (Cat (Lit x) r) s cs -> exists s', s = x ++ s' /\ Matches r s' cs.
Proof.
  intros H. inversion H as [| | |? ? s1 s2 cs1 cs2 H1 H2| |]; subst.
  inversion H1; subst. now exists s2.
Qed.

Lemma inv_plus (cls : ascii -> bool) (s : string) (cs : list string) :
  Matches (Plus cls) s cs -> cs = [] /\ Str.nonempty s = true /\ all cls s = true.
Proof. intros H. inversion H; subst. now repeat split. Qed.

Lemma inv_cat_segment (r : re) (s : string) (cs : list string) :
  Matches (Cat segment r) s cs ->
  exists a s' cs', s = a ++ s' /\ cs = a :: cs' /\ Spec.isSegment a /\ Matches r s' cs'.
Proof.
  intros H. inversion H as [| | |? ? s1 s2 cs1 cs2 H1 H2| |]; subst.
  inversion H1 as [| |? ? ? H3| | |]; subst.
  apply inv_plus in H3 as (-> & N & A). rewrite all_notSlash in A.
  exists s1, s2, cs2. now repeat split.
Qed.

Lemma inv_ext (s : string) (cs : list string) :
  Matches (Group (Alt (Lit "mp4") (Lit "vtt"))) s cs ->
  cs = [s] /\ (s = "mp4" \/ s = "vtt").
Proof.
  intros H. inversion H as [| |? ? ? H1| | |]; subst.
  inversion H1 as [| | | |? ? ? ? H2|? ? ? ? H2]; subst; inversion H2; subst; auto.
Qed.

(** The expression of the bundle builder and its matcher: every match of
    the expression has the five captures the matcher returns, and every
    result of the matcher is a match. *)
Theorem asset_match_regex (s : string) :
  (forall cs, MatchesWhole asset_re s cs ->
     exists c d v l e, cs = [c; d; v; l; e] /\ asset_match s = Some (c, d, v, l, e)) /\
  (forall c d v l e, asset_match s = Some (c, d, v, l, e) ->
     MatchesWhole asset_re s [c; d; v; l; e]).
Proof.
  unfold MatchesWhole, asset_re. split.
  - intros cs H.
    apply inv_cat_lit in H as (s0 & -> & H).
    apply inv_cat_segment in H as (c & s1 & cs1 & -> & -> & Hc & H).
    apply inv_cat_lit in H as (s2 & -> & H).
    apply inv_cat_segment in H as (d & s3 & cs3 & -> & -> & Hd & H).
    apply inv_cat_lit in H as (s4 & -> & H).
    apply inv_cat_segment in H as (v & s5 & cs5 & -> & -> & Hv & H).
    apply inv_cat_lit in H as (s6 & -> & H).
    apply inv_cat_segment in H as (l & s7 & cs7 & -> & -> & Hl & H).
    apply inv_cat_lit in H as (s8 & -> & H).
    inversion H as [| | |? ? stem s9 cs9 cs10 H1 H2| |]; subst.
    apply inv_plus in H1 as (-> & N & A). rewrite all_notSlash in A.
    apply inv_cat_lit in H2 as (e & -> & H2).
    apply inv_ext in H2 as (-> & E).
    exists c, d, v, l, e. split; [reflexivity|].
    apply asset_match_iff. now constructor.
  - intros c d v l e H. apply asset_match_iff in H.
    destruct H as [v l stem e Hc Hd Hv Hl [Ns Ls] He].
    apply cat_lit, cat_segment; [assumption|].
    apply cat_lit, cat_segment; [assumption|].
    apply cat_lit, cat_segment; [assumption|].
    apply cat_lit, cat_segment; [assumption|].
    apply cat_lit.
    apply (@MCat (Plus notSlash) _ stem ("." ++ e) [] [e]).
    + apply MPlus; [assumption | now rewrite all_notSlash].
    + apply cat_lit, MGroup. destruct He; subst e; [apply MAltL | apply MAltR]; constructor.
Qed.

(** The expression of the folder trigger, anchored at the start only. *)
Theorem videoDir_match_regex (path : string) :
  (forall cs, MatchesPrefix videoDir_re path cs ->
     exists c d v, cs = [c; d; v] /\ videoDir_match path = Some (c, d, v)) /\
  (forall c d v, videoDir_match path = Some (c, d, v) ->
     MatchesPrefix videoDir_re path [c; d; v]).
Proof.
  unfold MatchesPrefix, videoDir_re. split.
  - intros cs (m & rest & -> & H).
    apply inv_cat_lit in H as (s0 & -> & H).
    apply inv_cat_segment in H as (c & s1 & cs1 & -> & -> & Hc & H).
    apply inv_cat_lit in H as (s2 & -> & H).
    apply inv_cat_segment in H as (d & s3 & cs3 & -> & -> & Hd & H).
    apply inv_cat_lit in H as (s4 & -> & H).
    apply inv_cat_segment in H as (v & s5 & cs5 & -> & -> & Hv & H).
    inversion H; subst.
    exists c, d, v. split; [reflexivity|].
    apply videoDir_match_iff.
    split; [assumption | split; [assumption | split; [assumption|]]].
    exists rest. now normalize_append.
  - intros c d v H. apply videoDir_match_iff in H as (Hc & Hd & Hv & rest & ->).
    exists ("videos/" ++ c ++ "/" ++ d ++ "/" ++ v ++ "/"), rest. split.
    + now normalize_append.
    + apply cat_lit, cat_segment; [assumption|].
      apply cat_lit, cat_segment; [assumption|].
      apply cat_lit.
      apply (@MCat segment (Lit "/") v "/" [v] []); [now apply matches_segment | constructor].
Qed.

End RegexFacts.

(** ** [Map]: lookup after [set], and keys *)

Section JsMapFacts.

Variable V : Type.
Implicit Types (m : JsMap.t V) (k : string) (v : V).

Lemma jsmap_get_set_same m k v : JsMap.get k (JsMap.set k v m) = Some v.
Proof.
  induction m as [|[k' v'] m IH]; simpl.
  - now rewrite String.eqb_refl.
  - destruct (String.eqb k' k) eqn:E; simpl.
    + now rewrite String.eqb_refl.
    + now rewrite E.
Qed.

Lemma jsmap_get_set_other m k k' v :
  k' <> k -> JsMap.get k' (JsMap.set k v m) = JsMap.get k' m.
Proof.
  intros N. induction m as [|[k0 v0] m IH]; simpl.
  - apply not_eq_sym, String.eqb_neq in N. now rewrite N.
  - destruct (String.eqb k0 k) eqn:E; simpl.
    + apply String.eqb_eq in E as ->.
      apply not_eq_sym, String.eqb_neq in N. now rewrite N.
    + now rewrite IH.
Qed.

Lemma jsmap_set_set m k v v' : JsMap.set k v (JsMap.set k v' m) = JsMap.set k v m.
Proof.
  induction m as [|[k0 v0] m IH]; simpl.
  - now rewrite String.eqb_refl.
  - destruct (String.eqb k0 k) eqn:E; simpl.
    + now rewrite String.eqb_refl.
    + now rewrite E, IH.
Qed.

Lemma jsmap_set_has m k v v' :
  JsMap.set k v (if JsMap.has k m then m else JsMap.set k v' m) = JsMap.set k v m.
Proof. destruct (JsMap.has k m); [reflexivity | apply jsmap_set_set]. Qed.

Lemma jsmap_get_has m k v' :
  JsMap.get k (if JsMap.has k m then m else JsMap.set k v' m) =
  match JsMap.get k m with Some v => Some v | None => Some v' end.
Proof.
  unfold JsMap.has. destruct (JsMap.get k m) eqn:G; [assumption|].
  apply jsmap_get_set_same.
Qed.

Lemma jsmap_get_None m k : JsMap.get k m = None <-> ~ In k (JsMap.keys m).
Proof.
  induction m as [|[k0 v0] m IH]; simpl.
  - tauto.
  - destruct (String.eqb k0 k) eqn:E.
    + apply String.eqb_eq in E. split; [discriminate | tauto].
    + apply String.eqb_neq in E. rewrite IH. tauto.
Qed.

Lemma jsmap_get_In m k v : JsMap.get k m = Some v -> In (k, v) m.
Proof.
  induction m as [|[k0 v0] m IH]; simpl; [discriminate|].
  destruct (String.eqb k0 k) eqn:E.
  - apply String.eqb_eq in E as ->. intros [= ->]. now left.
  - intros H. right. now apply IH.
Qed.

Lemma jsmap_In_get m k v :
  NoDup (JsMap.keys m) -> In (k, v) m -> JsMap.get k m = Some v.
Proof.
  induction m as [|[k0 v0] m IH]; simpl; [easy|].
  intros ND [H | H].
  - injection H as -> ->. now rewrite String.eqb_refl.
  - inversion ND as [|? ? Hn ND']; subst.
    destruct (String.eqb k0 k) eqn:E.
    + apply String.eqb_eq in E as ->. exfalso. apply Hn.
      now apply (in_map fst) in H.
    + now apply IH.
Qed.

Lemma jsmap_In_set m k v k' v' :
  In (k', v') (JsMap.set k v m) ->
  (k' = k /\ v' = v) \/ (k' <> k /\ In (k', v') m) \/ (k' = k /\ In (k', v') m).
Proof.
  induction m as [|[k0 v0] m IH]; simpl.
  - intros [[= <- <-] | []]. now left.
  - destruct (String.eqb k0 k) eqn:E; simpl.
    + intros [[= <- <-] | H]; [now left|].
      destruct (string_dec k' k) as [-> | N]; [right; right | right; left]; auto.
    + apply String.eqb_neq in E. intros [[= <- <-] | H].
      * right; left. auto.
      * destruct (IH H) as [? | [[? ?] | [? ?]]]; auto.
Qed.

Lemma jsmap_keys_set m k v :
  JsMap.keys (JsMap.set k v m) =
  if JsMap.has k m then JsMap.keys m else (JsMap.keys m ++ [k])%list.
Proof.
  unfold JsMap.has. induction m as [|[k0 v0] m IH]; simpl; [reflexivity|].
  destruct (String.eqb k0 k) eqn:E; simpl.
  - apply String.eqb_eq in E. now subst.
  - rewrite IH. now destruct (JsMap.get k m).
Qed.

Lemma jsmap_NoDup_set m k v :
  NoDup (JsMap.keys m) -> NoDup (JsMap.keys (JsMap.set k v m)).
Proof.
  intros ND. rewrite jsmap_keys_set. unfold JsMap.has.
  destruct (JsMap.get k m) eqn:G; [assumption|].
  apply jsmap_get_None in G.
  apply NoDup_rev in ND. rewrite <- (rev_involutive (_ ++ _)%list).
  apply NoDup_rev. rewrite rev_app_distr. simpl. constructor; [|assumption].
  now rewrite <- in_rev.
Qed.

(** With distinct keys, an entry of the map after [set] is the entry set or
    an entry of another key that was there. *)
Lemma jsmap_In_set_NoDup m k v k' v' :
  NoDup (JsMap.keys m) ->
  In (k', v') (JsMap.set k v m) ->
  (k' = k /\ v' = v) \/ (k' <> k /\ In (k', v') m).
Proof.
  intros ND H.
  pose proof (jsmap_NoDup_set m k v ND) as ND'.
  apply (jsmap_In_get _ _ _ ND') in H.
  destruct (string_dec k' k) as [-> | N].
  - rewrite jsmap_get_set_same in H. injection H as <-. now left.
  - rewrite jsmap_get_set_other in H by assumption.
    right. split; [assumption | now apply jsmap_get_In].
Qed.

End JsMapFacts.

(** ** One round of the scan *)

Section ScanFacts.

Import GenerateBundleLogic Scan.

Variables clinic department : string.

Lemma accepted_iff (f v l e : string) :
  accepted clinic department f = Some (v, l, e) <->
  Spec.AssetPath clinic department f v l e.
Proof.
  unfold accepted. split.
  - destruct (asset_match f) as [[[[[fc fd] v'] l'] e']|] eqn:M; [|discriminate].
    destruct (String.eqb fc clinic) eqn:Ec; [|discriminate].
    destruct (String.eqb fd department) eqn:Ed; [|discriminate].
    apply String.eqb_eq in Ec, Ed. subst. intros [= -> -> ->].
    now apply asset_match_iff.
  - intros H. apply asset_match_iff in H. rewrite H.
    now rewrite !String.eqb_refl.
Qed.

Lemma accepted_ext (f v l e : string) :
  accepted clinic department f = Some (v, l, e) -> e = "mp4" \/ e = "vtt".
Proof. intros H. apply accepted_iff in H. now destruct H. Qed.

Lemma accepted_nonempty (f v l e : string) :
  accepted clinic department f = Some (v, l, e) -> f <> EmptyString.
Proof. intros H ->. discriminate. Qed.

(** The loop body: nothing for a file that fails a test, [record] for one
    that passes. *)
Lemma scanFile_eq (videoMap : VideoMap) (f : string) :
  scanFile clinic department videoMap f =
  match accepted clinic department f with
  | Some (v, l, e) => record v l e f videoMap
  | None => videoMap
  end.
Proof.
  unfold scanFile, accepted.
  destruct (asset_match f) as [[[[[fc fd] v] l] e]|] eqn:M.
  - assert (E : negb (Str.endsWith f ".mp4") && negb (Str.endsWith f ".vtt") = false).
    { destruct (asset_match_endsWith _ _ _ _ _ _ M) as [E | E]; rewrite E;
        [reflexivity | apply andb_false_r]. }
    rewrite E.
    destruct (String.eqb fc clinic), (String.eqb fd department); cbn [negb orb andb];
      try reflexivity.
    cbv zeta. unfold record, langMapOf, entryOf, setPath, blankEntry, JsMap.has, JsMap.empty.
    destruct (JsMap.get v videoMap) as [lm|] eqn:G.
    + rewrite G. destruct (JsMap.get l lm) as [e0|] eqn:G2.
      * now rewrite G2.
      * now rewrite jsmap_get_set_same, jsmap_set_set.
    + rewrite jsmap_get_set_same. cbn [JsMap.get JsMap.set].
      rewrite String.eqb_refl. now rewrite jsmap_set_set.
  - now destruct (negb (Str.endsWith f ".mp4") && negb (Str.endsWith f ".vtt")).
Qed.

Lemma langMapOf_record_same (v l e f : string) (vm : VideoMap) :
  langMapOf v (record v l e f vm) =
  JsMap.set l (setPath e f (entryOf l (langMapOf v vm))) (langMapOf v vm).
Proof. unfold record. unfold langMapOf at 1. now rewrite jsmap_get_set_same. Qed.

Lemma langMapOf_record_other (v v' l e f : string) (vm : VideoMap) :
  v' <> v -> langMapOf v' (record v l e f vm) = langMapOf v' vm.
Proof.
  intros N. unfold record. unfold langMapOf at 1.
  now rewrite jsmap_get_set_other.
Qed.

Lemma lookup_record_same (v l e f : string) (vm : VideoMap) :
  lookup v l (record v l e f vm) = Some (setPath e f (entryOf l (langMapOf v vm))).
Proof. unfold lookup. rewrite langMapOf_record_same. apply jsmap_get_set_same. Qed.

Lemma lookup_record_other (v l v' l' e f : string) (vm : VideoMap) :
  v' <> v \/ l' <> l -> lookup v' l' (record v l e f vm) = lookup v' l' vm.
Proof.
  intros N. unfold lookup. destruct (string_dec v' v) as [-> | Nv].
  - destruct N as [N | N]; [easy|].
    rewrite langMapOf_record_same. now apply jsmap_get_set_other.
  - now rewrite langMapOf_record_other.
Qed.

Lemma langMapOf_NoDup (v : string) (vm : VideoMap) :
  WellKeyed vm -> NoDup (JsMap.keys (langMapOf v vm)).
Proof.
  intros [_ W]. unfold langMapOf. destruct (JsMap.get v vm) as [lm|] eqn:G.
  - apply (W v). now apply jsmap_get_In.
  - constructor.
Qed.

Lemma WellKeyed_record (v l e f : string) (vm : VideoMap) :
  WellKeyed vm -> WellKeyed (record v l e f vm).
Proof.
  intros W. pose proof (langMapOf_NoDup v vm W) as NL. destruct W as [ND W].
  split; [now apply jsmap_NoDup_set|].
  intros v' lm' H. apply jsmap_In_set_NoDup in H; [|assumption].
  destruct H as [[-> ->] | [_ H]].
  - now apply jsmap_NoDup_set.
  - now apply (W v').
Qed.

Lemma AllEntries_record (P : string -> string -> LangPaths -> Prop)
    (v l e f : string) (vm : VideoMap) :
  WellKeyed vm -> AllEntries P vm ->
  P v l (setPath e f (entryOf l (langMapOf v vm))) ->
  AllEntries P (record v l e f vm).
Proof.
  intros W A Hnew v' lm' l' e' Hv Hl.
  pose proof (langMapOf_NoDup v vm W) as NL. destruct W as [ND W].
  apply jsmap_In_set_NoDup in Hv; [|assumption].
  destruct Hv as [[-> ->] | [_ Hv]].
  - apply jsmap_In_set_NoDup in Hl; [|assumption].
    destruct Hl as [[-> ->] | [_ Hl]]; [assumption|].
    unfold langMapOf in Hl. destruct (JsMap.get v vm) as [lm|] eqn:G; [|easy].
    apply jsmap_get_In in G. now apply (A v lm).
  - now apply (A v' lm').
Qed.

Lemma scanFiles_snoc (files : list string) (f : string) :
  scanFiles clinic department (files ++ [f]) =
  scanFile clinic department (scanFiles clinic department files) f.
Proof. unfold scanFiles. now rewrite fold_left_app. Qed.

End ScanFacts.

(** ** The whole scan *)

Section ScanInvariants.

Import GenerateBundleLogic Scan.

Variables clinic department : string.

Lemma scanFiles_WellKeyed (files : list string) :
  WellKeyed (scanFiles clinic department files).
Proof.
  induction files as [|f files IH] using rev_ind.
  - split; [constructor | intros ? ? []].
  - rewrite scanFiles_snoc, scanFile_eq.
    destruct (accepted clinic department f) as [[[v l] e]|]; [|assumption].
    now apply WellKeyed_record.
Qed.

Lemma fromListing_mono (files : list string) (f v l ext path : string) :
  fromListing clinic department files v l ext path ->
  fromListing clinic department (files ++ [f]) v l ext path.
Proof.
  intros [H | [H1 H2]]; [now left | right].
  split; [apply in_or_app; now left | assumption].
Qed.

Lemma EntryOk_mono (files : list string) (f v l : string) (e : LangPaths) :
  EntryOk clinic department files v l e ->
  EntryOk clinic department (files ++ [f]) v l e.
Proof.
  intros (H1 & H2 & H3). repeat split; try assumption; now apply fromListing_mono.
Qed.

(** Recording an accepted file over an entry whose paths come from the
    listing gives an entry that is in order. *)
Lemma EntryOk_setPath (files : list string) (f v l ext : string) (e0 : LangPaths) :
  accepted clinic department f = Some (v, l, ext) ->
  fromListing clinic department (files ++ [f]) v l "mp4" (videoPath e0) ->
  fromListing clinic department (files ++ [f]) v l "vtt" (subtitlePath e0) ->
  EntryOk clinic department (files ++ [f]) v l (setPath ext f e0).
Proof.
  intros A H1 H2.
  assert (In f (files ++ [f])) by (apply in_or_app; right; now left).
  pose proof (accepted_nonempty _ _ _ _ _ _ A) as N.
  destruct (accepted_ext _ _ _ _ _ _ A); subst ext; unfold setPath; simpl;
    repeat split; simpl; auto; right; auto.
Qed.

(** Every language entry of the scanned map holds paths of the listing,
    each under the video, language and extension it was accepted for, and
    at least one of its two paths is set. *)
Lemma scanFiles_EntryOk (files : list string) :
  AllEntries (EntryOk clinic department files) (scanFiles clinic department files).
Proof.
  induction files as [|f files IH] using rev_ind.
  - intros ? ? ? ? [].
  - assert (M : AllEntries (EntryOk clinic department (files ++ [f]))
                  (scanFiles clinic department files)).
    { intros v lm l e Hv Hl. apply EntryOk_mono. now apply (IH v lm). }
    rewrite scanFiles_snoc, scanFile_eq.
    destruct (accepted clinic department f) as [[[v l] e]|] eqn:A; [|assumption].
    apply AllEntries_record; [apply scanFiles_WellKeyed | assumption |].
    unfold entryOf, langMapOf.
    destruct (JsMap.get v (scanFiles clinic department files)) as [lm|] eqn:Gv.
    + destruct (JsMap.get l lm) as [e0|] eqn:Gl.
      * apply jsmap_get_In in Gv, Gl. destruct (M v lm l e0 Gv Gl) as (H1 & H2 & _).
        now apply EntryOk_setPath.
      * apply EntryOk_setPath; [assumption | now left | now left].
    + apply EntryOk_setPath; [assumption | now left | now left].
Qed.

Lemma fieldOf_setPath_same (ext f : string) (e0 : LangPaths) :
  Spec.fieldOf ext (setPath ext f e0) = f.
Proof. unfold Spec.fieldOf, setPath. now destruct (String.eqb ext "mp4"). Qed.

Lemma fieldOf_setPath_other (ext ext' f : string) (e0 : LangPaths) :
  ext = "mp4" \/ ext = "vtt" -> ext' = "mp4" \/ ext' = "vtt" -> ext <> ext' ->
  Spec.fieldOf ext (setPath ext' f e0) = Spec.fieldOf ext e0.
Proof. intros [-> | ->] [-> | ->] N; try easy. Qed.

(** Later files of another kind leave the path of a kind in place. *)
Lemma scan_keeps (after : list string) (v l ext name : string) (vm : VideoMap) :
  ext = "mp4" \/ ext = "vtt" ->
  (forall other, In other after ->
     accepted clinic department other <> Some (v, l, ext)) ->
  (exists e, lookup v l vm = Some e /\ Spec.fieldOf ext e = name) ->
  exists e, lookup v l (fold_left (scanFile clinic department) after vm) = Some e /\
            Spec.fieldOf ext e = name.
Proof.
  intros Hext. revert vm. induction after as [|o after IH]; intros vm Hn H; [assumption|].
  simpl. apply IH; [intros other Ho; apply Hn; now right|].
  rewrite scanFile_eq. specialize (Hn o (or_introl eq_refl)).
  destruct (accepted clinic department o) as [[[v' l'] ext']|] eqn:A; [|assumption].
  destruct H as (e & L & F).
  destruct (string_dec v v') as [<- | Nv]; [destruct (string_dec l l') as [<- | Nl]|].
  - rewrite lookup_record_same. eexists; split; [reflexivity|].
    unfold lookup in L. unfold entryOf. rewrite L.
    rewrite fieldOf_setPath_other; [assumption | assumption | | congruence].
    now apply (accepted_ext clinic department o v l).
  - rewrite lookup_record_other by (now right). now exists e.
  - rewrite lookup_record_other by (now left). now exists e.
Qed.

(** Last write wins, in [videoMap]: the entry of a video and language holds,
    for each extension, the last accepted file of that kind. *)
Lemma scan_last (before after : list string) (name v l ext : string) :
  accepted clinic department name = Some (v, l, ext) ->
  (forall other, In other after ->
     accepted clinic department other <> Some (v, l, ext)) ->
  exists e, lookup v l (scanFiles clinic department (before ++ name :: after)) = Some e /\
            Spec.fieldOf ext e = name.
Proof.
  intros A Hn. unfold scanFiles. rewrite fold_left_app. simpl.
  apply scan_keeps; [now apply (accepted_ext clinic department name v l) | assumption |].
  rewrite scanFile_eq, A, lookup_record_same.
  eexists; split; [reflexivity | apply fieldOf_setPath_same].
Qed.

End ScanInvariants.

(** ** Plain objects: lookup, membership and keys after an assignment *)

Section JsObjectFacts.

Variable V : Type.
Implicit Types (o : JsObject.t V) (k l : string) (v : V).

Lemma jsobj_get_None o k : JsObject.get k o = None <-> ~ In k (JsObject.keys o).
Proof. exact (jsmap_get_None V o k). Qed.

Lemma jsobj_get_In o k v : JsObject.get k o = Some v -> In (k, v) o.
Proof. exact (jsmap_get_In V o k v). Qed.

Lemma jsobj_get_replace o k l v :
  JsObject.get l (JsObject.replace k v o) =
  match JsObject.get k o with
  | Some _ => if String.eqb k l then Some v else JsObject.get l o
  | None => JsObject.get l o
  end.
Proof.
  induction o as [|[k0 v0] o IH]; simpl; [reflexivity|].
  destruct (String.eqb k0 k) eqn:E; simpl.
  - apply String.eqb_eq in E as ->. now destruct (String.eqb k l).
  - rewrite IH. destruct (JsObject.get k o); [|reflexivity].
    destruct (String.eqb k l) eqn:E'; [|reflexivity].
    apply String.eqb_eq in E' as ->. now rewrite E.
Qed.

Lemma jsobj_get_insertIndex o i k l v :
  JsObject.get k o = None ->
  JsObject.get l (JsObject.insertIndex i k v o) =
  if String.eqb k l then Some v else JsObject.get l o.
Proof.
  induction o as [|[k0 v0] o IH]; simpl; [reflexivity|].
  destruct (String.eqb k0 k) eqn:E; [discriminate|]. intros G.
  destruct (JsObject.arrayIndex k0) as [j|]; [destruct (j <? i)%N|]; simpl;
    try reflexivity.
  rewrite (IH G). destruct (String.eqb k l) eqn:E'; [|reflexivity].
  apply String.eqb_eq in E' as ->. now rewrite E.
Qed.

Lemma jsobj_get_snoc o k l v :
  JsObject.get k o = None ->
  JsObject.get l (o ++ [(k, v)])%list =
  if String.eqb k l then Some v else JsObject.get l o.
Proof.
  induction o as [|[k0 v0] o IH]; simpl; [reflexivity|].
  destruct (String.eqb k0 k) eqn:E; [discriminate|]. intros G.
  rewrite (IH G). destruct (String.eqb k l) eqn:E'.
  - apply String.eqb_eq in E' as ->. now rewrite E.
  - reflexivity.
Qed.

(** Reading a key after [o[k] = v]: the value assigned, unless the key is
    ["__proto__"], which no assignment makes an own property. *)
Lemma jsobj_get_assign o k l v :
  JsObject.get l (JsObject.assign k v o) =
  if String.eqb k l && negb (String.eqb k "__proto__") then Some v
  else JsObject.get l o.
Proof.
  unfold JsObject.assign. destruct (String.eqb k "__proto__").
  - now rewrite andb_false_r.
  - rewrite andb_true_r. destruct (JsObject.get k o) eqn:G.
    + now rewrite jsobj_get_replace, G.
    + destruct (JsObject.arrayIndex k).
      * now apply jsobj_get_insertIndex.
      * now apply jsobj_get_snoc.
Qed.

Lemma jsobj_In_replace o k v x : In x (JsObject.replace k v o) -> x = (k, v) \/ In x o.
Proof.
  induction o as [|[k0 v0] o IH]; simpl; [tauto|].
  destruct (String.eqb k0 k); simpl; intros [H | H]; auto.
  destruct (IH H); auto.
Qed.

Lemma jsobj_In_insertIndex o i k v x :
  In x (JsObject.insertIndex i k v o) <-> x = (k, v) \/ In x o.
Proof.
  induction o as [|[k0 v0] o IH]; simpl.
  - split; intros [H | H]; auto.
  - destruct (JsObject.arrayIndex k0) as [j|]; [destruct (j <? i)%N|]; simpl;
      rewrite ?IH; intuition auto.
Qed.

Lemma jsobj_In_assign o k v x : In x (JsObject.assign k v o) -> x = (k, v) \/ In x o.
Proof.
  unfold JsObject.assign. destruct (String.eqb k "__proto__"); [now right|].
  destruct (JsObject.get k o).
  - apply jsobj_In_replace.
  - destruct (JsObject.arrayIndex k).
    + apply jsobj_In_insertIndex.
    + intros H. apply in_app_or in H as [H | [H | []]]; auto.
Qed.

Lemma jsobj_keys_replace o k v :
  JsObject.keys (JsObject.replace k v o) = JsObject.keys o.
Proof.
  induction o as [|[k0 v0] o IH]; simpl; [reflexivity|].
  destruct (String.eqb k0 k) eqn:E; simpl.
  - apply String.eqb_eq in E. now subst.
  - now rewrite IH.
Qed.

Lemma jsobj_NoDup_insertIndex o i k v :
  ~ In k (JsObject.keys o) -> NoDup (JsObject.keys o) ->
  NoDup (JsObject.keys (JsObject.insertIndex i k v o)).
Proof.
  induction o as [|[k0 v0] o IH]; simpl; intros N ND.
  - now repeat constructor.
  - destruct (JsObject.arrayIndex k0) as [j|]; [destruct (j <? i)%N|]; simpl;
      try (constructor; [simpl; tauto | assumption]).
    inversion ND as [|? ? Hn ND']; subst. constructor.
    + intros H. apply in_map_iff in H as ([k1 v1] & E & H). simpl in E. subst k1.
      apply jsobj_In_insertIndex in H as [[= -> ->] | H]; [tauto|].
      apply Hn. now apply (in_map fst) in H.
    + apply IH; tauto.
Qed.

Lemma jsobj_NoDup_assign o k v :
  NoDup (JsObject.keys o) -> NoDup (JsObject.keys (JsObject.assign k v o)).
Proof.
  intros ND. unfold JsObject.assign. destruct (String.eqb k "__proto__"); [assumption|].
  destruct (JsObject.get k o) eqn:G.
  - now rewrite jsobj_keys_replace.
  - apply jsobj_get_None in G. destruct (JsObject.arrayIndex k).
    + now apply jsobj_NoDup_insertIndex.
    + unfold JsObject.keys. rewrite map_app. simpl.
      apply NoDup_rev in ND. rewrite <- (rev_involutive (_ ++ _)%list).
      apply NoDup_rev. rewrite rev_app_distr. simpl. constructor; [|assumption].
      now rewrite <- in_rev.
Qed.

End JsObjectFacts.

(** ** From [videoMap] to the bundle *)

Section BundleFacts.

Import GenerateBundleLogic Scan.

Lemma LangPaths_eta (e : LangPaths) :
  {| videoPath := videoPath e; subtitlePath := subtitlePath e |} = e.
Proof. now destruct e. Qed.

Lemma languagesOf_snoc (lm : JsMap.t LangPaths) (k : string) (e : LangPaths) :
  languagesOf (lm ++ [(k, e)])%list = JsObject.assign k e (languagesOf lm).
Proof.
  unfold languagesOf, JsMap.entries. rewrite fold_left_app. simpl.
  now rewrite LangPaths_eta.
Qed.

Lemma languagesOf_In (lm : JsMap.t LangPaths) (x : string * LangPaths) :
  In x (languagesOf lm) -> In x lm.
Proof.
  induction lm as [|[k e] lm IH] using rev_ind; [intros []|].
  rewrite languagesOf_snoc. intros H. apply in_or_app.
  apply jsobj_In_assign in H as [-> | H]; [right; now left | left; now apply IH].
Qed.

Lemma languagesOf_NoDup (lm : JsMap.t LangPaths) :
  NoDup (JsObject.keys (languagesOf lm)).
Proof.
  induction lm as [|[k e] lm IH] using rev_ind; [constructor|].
  rewrite languagesOf_snoc. now apply jsobj_NoDup_assign.
Qed.

(** The own properties of [languages] are the entries of [langMap], except
    for the key ["__proto__"]. *)
Lemma languagesOf_get (lm : JsMap.t LangPaths) (l : string) :
  NoDup (JsMap.keys lm) ->
  JsObject.get l (languagesOf lm) =
  if String.eqb l "__proto__" then None else JsMap.get l lm.
Proof.
  induction lm as [|[k e] lm IH] using rev_ind; intros ND.
  - now destruct (String.eqb l "__proto__").
  - unfold JsMap.keys in ND. rewrite map_app in ND. simpl in ND.
    apply NoDup_remove in ND as [ND Hk]. rewrite app_nil_r in ND, Hk.
    rewrite languagesOf_snoc, jsobj_get_assign, (IH ND).
    change (JsMap.get l (lm ++ [(k, e)])%list) with (JsObject.get l (lm ++ [(k, e)])%list).
    rewrite jsobj_get_snoc by (now apply jsmap_get_None).
    destruct (String.eqb k l) eqn:E; simpl; [|reflexivity].
    apply String.eqb_eq in E as ->.
    destruct (String.eqb l "__proto__"); simpl; reflexivity.
Qed.

Lemma findVideo_videosOf (v : string) (b : Bundle) (vm : VideoMap) :
  videos b = videosOf vm ->
  findVideo v b =
  match JsMap.get v vm with
  | Some lm => Some {| id := v; title := v; languages := languagesOf lm |}
  | None => None
  end.
Proof.
  unfold findVideo. intros ->. unfold videosOf, JsMap.entries.
  induction vm as [|[k lm] vm IH]; simpl; [reflexivity|].
  rewrite IH. destruct (String.eqb k v) eqn:E; [|reflexivity].
  apply String.eqb_eq in E. now subst.
Qed.

Lemma langEntryOf_buildBundle (clinic department : string) (files : list string)
    (v l : string) :
  langEntryOf v l (buildBundle clinic department files) =
  JsObject.get l (languagesOf (langMapOf v (scanFiles clinic department files))).
Proof.
  unfold langEntryOf.
  rewrite (findVideo_videosOf v _ (scanFiles clinic department files)) by reflexivity.
  unfold langMapOf. now destruct (JsMap.get v _).
Qed.

(** Every language entry of a bundle is an entry of the scanned map, under
    the same video and language. *)
Lemma bundle_entry_from_scan (clinic department : string) (files : list string)
    (video : VideoEntry) (l : string) (e : LangPaths) :
  In video (videos (buildBundle clinic department files)) ->
  In (l, e) (languages video) ->
  exists lm, In (id video, lm) (scanFiles clinic department files) /\ In (l, e) lm.
Proof.
  simpl. unfold videosOf, JsMap.entries. intros Hv Hl.
  apply in_map_iff in Hv as ([v lm] & <- & Hv). simpl in *.
  exists lm. split; [assumption | now apply languagesOf_In].
Qed.

Lemma bundle_entry_ok (clinic department : string) (files : list string)
    (video : VideoEntry) (l : string) (e : LangPaths) :
  In video (videos (buildBundle clinic department files)) ->
  In (l, e) (languages video) ->
  EntryOk clinic department files (id video) l e.
Proof.
  intros Hv Hl.
  destruct (bundle_entry_from_scan _ _ _ _ _ _ Hv Hl) as (lm & H1 & H2).
  exact (scanFiles_EntryOk clinic department files _ _ _ _ H1 H2).
Qed.

(** A path value of a bundle that is not empty is a listed name that
    matches the grammar for the namespace. *)
Lemma bundlePaths_from_listing (clinic department : string) (files : list string)
    (path : string) :
  In path (bundlePaths (buildBundle clinic department files)) ->
  path <> EmptyString ->
  In path files /\ exists v l ext, Spec.AssetPath clinic department path v l ext.
Proof.
  unfold bundlePaths, pathsOfVideo, pathsOfEntry. intros H N.
  apply in_flat_map in H as (video & Hv & H).
  apply in_flat_map in H as ([l e] & Hl & H).
  destruct (bundle_entry_ok _ _ _ _ _ _ Hv Hl) as (H1 & H2 & _).
  simpl in H. destruct H as [<- | [<- | []]].
  - destruct H1 as [H1 | [H1 A]]; [easy|]. split; [assumption|].
    exists (id video), l, "mp4". now apply accepted_iff.
  - destruct H2 as [H2 | [H2 A]]; [easy|]. split; [assumption|].
    exists (id video), l, "vtt". now apply accepted_iff.
Qed.

End BundleFacts.

(** ** Counting path values *)

Section Counting.

Lemma flat_map_map {A B C : Type} (f : B -> list C) (h : A -> B) (xs : list A) :
  flat_map f (map h xs) = flat_map (fun x => f (h x)) xs.
Proof. induction xs as [|x xs IH]; simpl; [reflexivity | now rewrite IH]. Qed.

Lemma count_flat_map_zero {A : Type} (g : A -> list string) (xs : list A) (name : string) :
  (forall x, In x xs -> count_occ string_dec (g x) name = 0) ->
  count_occ string_dec (flat_map g xs) name = 0.
Proof.
  induction xs as [|x xs IH]; simpl; intros H; [reflexivity|].
  rewrite count_occ_app, (H x) by (now left). simpl. apply IH.
  intros y Hy. apply H. now right.
Qed.

(** Among entries with distinct keys, a name that occurs once under the
    key [k] and not at all under the others occurs once. *)
Lemma count_flat_map_one {B : Type} (g : string * B -> list string)
    (xs : list (string * B)) (k name : string) :
  NoDup (map fst xs) ->
  (forall k' y, In (k', y) xs -> k' <> k -> count_occ string_dec (g (k', y)) name = 0) ->
  (forall y, In (k, y) xs -> count_occ string_dec (g (k, y)) name = 1) ->
  In k (map fst xs) ->
  count_occ string_dec (flat_map g xs) name = 1.
Proof.
  induction xs as [|[k0 y0] xs IH]; simpl; intros ND H0 H1 Hk; [easy|].
  inversion ND as [|? ? Hn ND']; subst. rewrite count_occ_app.
  destruct (string_dec k0 k) as [-> | N].
  - rewrite (H1 y0) by (now left).
    rewrite count_flat_map_zero; [reflexivity|].
    intros [k' y'] Hy. apply H0; [now right|].
    intros ->. apply Hn. now apply (in_map fst) in Hy.
  - rewrite (H0 k0 y0) by (auto). simpl. apply IH; auto.
    destruct Hk; [easy | assumption].
Qed.

Lemma count_pair (a b name : string) :
  count_occ string_dec [a; b] name =
  (if string_dec a name then 1 else 0) + (if string_dec b name then 1 else 0).
Proof. simpl. destruct (string_dec a name), (string_dec b name); reflexivity. Qed.

End Counting.

(** ** The bundle: what is in it and what is not *)

Section BundleClaims.

Import GenerateBundleLogic Scan.

Variables clinic department : string.

Lemma asset_match_split (s c d v l e : string) :
  asset_match s = Some (c, d, v, l, e) ->
  exists f, Str.split "/" s = ["videos"; c; d; v; l; f].
Proof.
  unfold asset_match.
  destruct (Str.split "/" s) as [|root [|c' [|d' [|v' [|l' [|f [|? ?]]]]]]];
    try discriminate.
  destruct (String.eqb root "videos") eqn:R; [|discriminate].
  apply String.eqb_eq in R as ->.
  destruct (Str.nonempty c'), (Str.nonempty d'), (Str.nonempty v'), (Str.nonempty l');
    cbn [andb]; try discriminate.
  destruct (fileExt f); [|discriminate].
  intros [= -> -> -> -> ->]. now exists f.
Qed.

(** A name the grammar accepts for the namespace is not outside it. *)
Lemma AssetPath_not_outside (name v l ext : string) :
  Spec.AssetPath clinic department name v l ext ->
  ~ Grammar.outside clinic department name.
Proof.
  intros H. apply asset_match_iff in H.
  destruct (asset_match_split _ _ _ _ _ _ H) as [f S].
  destruct (asset_match_endsWith _ _ _ _ _ _ H) as [E | E];
    unfold Grammar.outside, Grammar.segmentsUnderRoot, Grammar.hasAssetExtension;
    rewrite S, E; simpl; intros [O | [O | O]];
    try discriminate;
    try (now apply (O _ eq_refl));
    try (destruct (O _ eq_refl); congruence).
  rewrite orb_true_r in O. discriminate.
Qed.

(** The path of the other kind in an entry is not the name. *)
Lemma path_of_other_key (files : list string) (name v l ext v' l' ext' path : string) :
  accepted clinic department name = Some (v, l, ext) ->
  fromListing clinic department files v' l' ext' path ->
  (v', l', ext') <> (v, l, ext) ->
  path <> name.
Proof.
  intros A [-> | [_ A']] N E.
  - now apply (accepted_nonempty _ _ _ _ _ _ A).
  - subst path. rewrite A in A'. injection A' as <- <- <-. now apply N.
Qed.

Lemma entry_count_zero (files : list string) (name v l ext v' l' : string)
    (e : LangPaths) :
  accepted clinic department name = Some (v, l, ext) ->
  EntryOk clinic department files v' l' e ->
  v' <> v \/ l' <> l ->
  count_occ string_dec (pathsOfEntry e) name = 0.
Proof.
  intros A (H1 & H2 & _) N. unfold pathsOfEntry. rewrite count_pair.
  destruct (string_dec (videoPath e) name) as [E | _].
  - exfalso. revert E. apply (path_of_other_key _ _ _ _ _ _ _ _ _ A H1).
    intros [= -> -> _]. now destruct N.
  - destruct (string_dec (subtitlePath e) name) as [E | _]; [|reflexivity].
    exfalso. revert E. apply (path_of_other_key _ _ _ _ _ _ _ _ _ A H2).
    intros [= -> -> _]. now destruct N.
Qed.

Lemma entry_count_one (files : list string) (name v l ext : string) (e : LangPaths) :
  accepted clinic department name = Some (v, l, ext) ->
  EntryOk clinic department files v l e ->
  Spec.fieldOf ext e = name ->
  count_occ string_dec (pathsOfEntry e) name = 1.
Proof.
  intros A (H1 & H2 & _) F. unfold pathsOfEntry. rewrite count_pair.
  unfold Spec.fieldOf in F.
  destruct (accepted_ext _ _ _ _ _ _ A) as [-> | ->]; simpl in F.
  - destruct (string_dec (videoPath e) name) as [_ | N]; [|easy].
    destruct (string_dec (subtitlePath e) name) as [E | _]; [|reflexivity].
    exfalso. revert E. now apply (path_of_other_key _ _ _ _ _ _ _ _ _ A H2).
  - destruct (string_dec (subtitlePath e) name) as [_ | N]; [|easy].
    destruct (string_dec (videoPath e) name) as [E | _]; [|reflexivity].
    exfalso. revert E. now apply (path_of_other_key _ _ _ _ _ _ _ _ _ A H1).
Qed.

End BundleClaims.

Section BundleTheorems.

Import GenerateBundleLogic Scan.

Variables clinic department : string.

Lemma lastOfItsKind_split (files : list string) (name v l ext : string) :
  Spec.lastOfItsKind clinic department files name v l ext ->
  exists before after,
    files = (before ++ name :: after)%list /\
    forall other, In other after ->
      accepted clinic department other <> Some (v, l, ext).
Proof.
  intros (before & after & -> & H). exists before, after. split; [reflexivity|].
  intros other Ho A. apply (H other Ho). now apply accepted_iff.
Qed.

(** Last write wins, in the bundle: under a language code that becomes an
    own property of [languages], the entry of the last object of a kind
    holds its name. *)
Lemma last_write_wins (files : list string) (name v l ext : string) :
  l <> "__proto__" ->
  Spec.AssetPath clinic department name v l ext ->
  Spec.lastOfItsKind clinic department files name v l ext ->
  exists e, langEntryOf v l (buildBundle clinic department files) = Some e /\
            Spec.fieldOf ext e = name.
Proof.
  intros Np A L.
  apply accepted_iff in A.
  apply lastOfItsKind_split in L as (before & after & -> & Hn).
  rewrite langEntryOf_buildBundle.
  rewrite languagesOf_get by (apply langMapOf_NoDup, scanFiles_WellKeyed).
  apply String.eqb_neq in Np. rewrite Np.
  exact (scan_last clinic department before after name v l ext A Hn).
Qed.

(** No bundle has a language entry under ["__proto__"], whatever the
    listing holds for that language code. *)
Lemma no_proto_entry (files : list string) (v : string) :
  langEntryOf v "__proto__" (buildBundle clinic department files) = None.
Proof.
  rewrite langEntryOf_buildBundle.
  now rewrite languagesOf_get by (apply langMapOf_NoDup, scanFiles_WellKeyed).
Qed.

(** C2, as amended.  Every listed name that matches the grammar for the
    namespace, is the last of the listing with its video, language and
    extension, and whose language code is not ["__proto__"], is the value
    of exactly one [videoPath] or [subtitlePath] of the bundle. *)
Theorem completeness_of_last (files : list string) (name v l ext : string) :
  l <> "__proto__" ->
  Spec.AssetPath clinic department name v l ext ->
  Spec.lastOfItsKind clinic department files name v l ext ->
  occurrences name (buildBundle clinic department files) = 1.
Proof.
  intros Np A L.
  destruct (last_write_wins files name v l ext Np A L) as (e & He & F).
  apply accepted_iff in A.
  rewrite langEntryOf_buildBundle in He.
  pose proof (scanFiles_WellKeyed clinic department files) as W.
  pose proof (scanFiles_EntryOk clinic department files) as Ok.
  set (vm := scanFiles clinic department files) in *.
  unfold occurrences, bundlePaths, pathsOfVideo. simpl. fold vm.
  unfold videosOf, JsMap.entries. rewrite flat_map_map. simpl.
  assert (Gv : exists lm, JsMap.get v vm = Some lm).
  { unfold langMapOf in He. destruct (JsMap.get v vm) as [lm|]; [now exists lm | discriminate]. }
  destruct Gv as [lm Gv].
  apply (count_flat_map_one _ vm v name).
  - apply W.
  - intros v' lm' Hv' Nv. apply count_flat_map_zero. intros [l' e'] Hl'.
    apply languagesOf_In in Hl'.
    apply (entry_count_zero clinic department files name v l ext v' l');
      [assumption | now apply (Ok v' lm') | now left].
  - intros lm' Hv'.
    assert (lm' = lm) as ->.
    { apply (jsmap_In_get _ _ _ _ (proj1 W)) in Hv'. congruence. }
    unfold langMapOf in He. rewrite Gv in He.
    apply (count_flat_map_one _ (languagesOf lm) l name).
    + apply languagesOf_NoDup.
    + intros l' e' Hl' Nl. apply languagesOf_In in Hl'.
      apply (entry_count_zero clinic department files name v l ext v l');
        [assumption | now apply (Ok v lm) | now right].
    + intros e' Hl'.
      assert (e' = e) as ->.
      { apply (jsmap_In_get _ _ _ _ (languagesOf_NoDup lm)) in Hl'.
        change (JsMap.get l (languagesOf lm)) with (JsObject.get l (languagesOf lm)) in Hl'.
        congruence. }
      apply languagesOf_In in Hl'.
      apply (entry_count_one clinic department files name v l ext);
        [assumption | now apply (Ok v lm) | assumption].
    + apply jsobj_get_In in He. now apply (in_map fst) in He.
  - apply jsmap_get_In in Gv. now apply (in_map fst) in Gv.
Qed.

(** C4.  A name the grammar rejects for the namespace (not five segments
    under [videos/], or an extension other than [mp4] and [vtt], or another
    clinic or department) is no [videoPath] and no [subtitlePath] of the
    bundle, whatever the listing. *)
Theorem grammar_rejection (files : list string) (name : string) :
  name <> EmptyString ->
  Grammar.outside clinic department name ->
  ~ In name (bundlePaths (buildBundle clinic department files)).
Proof.
  intros N O H.
  destruct (bundlePaths_from_listing _ _ _ _ H N) as (_ & v & l & ext & A).
  exact (AssetPath_not_outside clinic department name v l ext A O).
Qed.

(** C5.  In the bundle of any listing, every language entry of every video
    has a [videoPath] or a [subtitlePath] that is not empty. *)
Theorem entry_has_path (files : list string) :
  Forall (fun video =>
            Forall (fun kv => videoPath (snd kv) <> EmptyString \/
                              subtitlePath (snd kv) <> EmptyString)
                   (languages video))
         (videos (buildBundle clinic department files)).
Proof.
  apply Forall_forall. intros video Hv. apply Forall_forall. intros [l e] Hl.
  now destruct (bundle_entry_ok _ _ _ _ _ _ Hv Hl) as (_ & _ & H).
Qed.

End BundleTheorems.

(** ** Running storage programs *)

Section ExecFacts.

Lemma exec_bind {A B : Type} (m : Storage A) (f : A -> Storage B) (w : World) :
  exec (bind m f) w =
  match exec m w with
  | (Returned a, w') => exec (f a) w'
  | (Thrown e, w') => (Thrown e, w')
  end.
Proof.
  revert w. induction m as [a | e | p n k IH | p c o k IH | k IH | lv msg k IH];
    intros w; simpl; try reflexivity.
  - destruct (nextFault w); apply IH.
  - destruct (nextFault w); apply IH.
  - apply IH.
  - apply IH.
Qed.

Lemma exec_tryCatch {A : Type} (m : Storage A) (h : error -> Storage A) (w : World) :
  exec (tryCatch m h) w =
  match exec m w with
  | (Returned a, w') => (Returned a, w')
  | (Thrown e, w') => exec (h e) w'
  end.
Proof.
  revert w. induction m as [a | e | p n k IH | p c o k IH | k IH | lv msg k IH];
    intros w; simpl; try reflexivity.
  - destruct (nextFault w); apply IH.
  - destruct (nextFault w); apply IH.
  - apply IH.
  - apply IH.
Qed.

Lemma saves_app (j1 j2 : list event) : saves (j1 ++ j2) = (saves j1 ++ saves j2)%list.
Proof.
  induction j1 as [|[p n | p o f | lv msg] j1 IH]; simpl; try assumption.
  - reflexivity.
  - now rewrite IH.
Qed.

(** The bucket: listing and lookup after a write *)

Lemma bucket_list_put (prefix path : string) (n : option nat) (o : StoredObject)
    (b : Bucket.t) :
  Str.startsWith path prefix = false ->
  Bucket.list prefix n (Bucket.put path o b) = Bucket.list prefix n b.
Proof.
  intros H. unfold Bucket.list. f_equal.
  assert (E : filter (fun x => Str.startsWith x prefix) (Bucket.names (Bucket.put path o b))
              = filter (fun x => Str.startsWith x prefix) (Bucket.names b)).
  { unfold Bucket.names. induction b as [|[k o'] b IH]; simpl.
    - now rewrite H.
    - destruct (String.eqb k path) eqn:E; simpl.
      + apply String.eqb_eq in E as ->. now rewrite H.
      + now rewrite IH. }
  now rewrite E.
Qed.

Lemma bucket_get_put (path : string) (o : StoredObject) (b : Bucket.t) :
  Bucket.get path (Bucket.put path o b) = Some o.
Proof. exact (jsmap_get_set_same StoredObject b path o). Qed.

Lemma bucket_put_put (path : string) (o o' : StoredObject) (b : Bucket.t) :
  Bucket.put path o (Bucket.put path o' b) = Bucket.put path o b.
Proof. exact (jsmap_set_set StoredObject b path o o'). Qed.

Lemma bundlePath_outside_listing (clinic department : string) :
  Str.startsWith (GenerateBundleLogic.bundlePathOf clinic department)
                 (GenerateBundleLogic.listPrefix clinic department) = false.
Proof. reflexivity. Qed.

End ExecFacts.

(** ** The bundle builder against the bucket *)

Section BuilderRuns.

Import GenerateBundleLogic.

Variables clinic department : string.

(** A run of the builder, by the outcome of its two calls. *)
Lemma exec_generateBundleLogic (w : World) :
  let files := Bucket.list (listPrefix clinic department) None (bucket w) in
  let path := bundlePathOf clinic department in
  let snapshot := {| objContent := bundleJsonOf clinic department files;
                     objOptions := bundleSaveOptions |} in
  let w1 := {| bucket := bucket w; faults := tl (faults w); clock := clock w;
               journal := (journal w ++ [EvList (listPrefix clinic department) None])%list |} in
  exec (generateBundleLogic clinic department) w =
  match nextFault w with
  | Some e => (Thrown e, w1)
  | None =>
      match nextFault w1 with
      | Some e =>
          (Thrown e,
           {| bucket := bucket w; faults := tl (faults w1); clock := clock w;
              journal := (journal w1 ++ [EvSave path snapshot (Some e)])%list |})
      | None =>
          (Returned path,
           {| bucket := Bucket.put path snapshot (bucket w);
              faults := tl (faults w1); clock := clock w;
              journal := (journal w1 ++ [EvSave path snapshot None])%list |})
      end
  end.
Proof.
  cbv zeta. unfold generateBundleLogic, getFiles, save. cbn [bind exec].
  destruct (nextFault w); [reflexivity|]. cbn [bind exec].
  match goal with |- context [nextFault ?x] => destruct (nextFault x) end; reflexivity.
Qed.

(** C6.  The builder writes at most once, and only after the listing: when
    the listing fails, the error reaches the caller, no write is issued and
    the bucket is as it was; when the listing succeeds, exactly one write
    is issued, that of the whole snapshot, and either the path is returned
    or the error of that write reaches the caller. *)
Theorem single_write (w : World) :
  let run := exec (generateBundleLogic clinic department) w in
  match nextFault w with
  | Some e =>
      fst run = Thrown e /\
      bucket (snd run) = bucket w /\
      saves (journal (snd run)) = saves (journal w)
  | None =>
      (exists content,
         saves (journal (snd run)) =
         (saves (journal w)
            ++ [(bundlePathOf clinic department,
                 {| objContent := content; objOptions := bundleSaveOptions |})])%list) /\
      (fst run = Returned (bundlePathOf clinic department) \/
       exists e, fst run = Thrown e /\ bucket (snd run) = bucket w)
  end.
Proof.
  cbv zeta. rewrite exec_generateBundleLogic. cbv zeta.
  destruct (nextFault w) as [e|].
  { cbn [fst snd bucket journal]. rewrite saves_app. cbn [saves].
    rewrite app_nil_r. now repeat split. }
  match goal with |- context [nextFault ?x] => destruct (nextFault x) as [e|] end;
    cbn [fst snd bucket journal]; rewrite !saves_app; cbn [saves]; rewrite app_nil_r.
  - split; [eexists; reflexivity|]. right. now exists e.
  - split; [eexists; reflexivity|]. now left.
Qed.

(** The snapshot is a function of the clinic, the department and the
    listing: on two buckets that list the same names under the prefix, the
    builder writes the same path with the same text. *)
Lemma snapshot_determined_by_listing (b b' : Bucket.t) (ticks ticks' : list string) :
  Bucket.list (listPrefix clinic department) None b =
    Bucket.list (listPrefix clinic department) None b' ->
  saves (journal (snd (exec (generateBundleLogic clinic department) (world b [] ticks)))) =
  saves (journal (snd (exec (generateBundleLogic clinic department) (world b' [] ticks')))).
Proof.
  intros E. rewrite !exec_generateBundleLogic.
  cbn [world nextFault faults tl fst snd bucket journal app saves].
  now rewrite E.
Qed.

(** C1.  Two runs of the builder in succession, with no other change to the
    bucket: the write of the first run leaves the listing as it was, the
    text written is the JSON of the bundle of (clinic, department,
    listing), the second run writes the same path with the same JSON text,
    both return the path, and the bucket after the second run is the
    bucket after the first. *)
Theorem rebuild_idempotent (b : Bucket.t) (ticks ticks' : list string) :
  let first := exec (generateBundleLogic clinic department) (world b [] ticks) in
  let second :=
    exec (generateBundleLogic clinic department) (world (bucket (snd first)) [] ticks') in
  Bucket.list (listPrefix clinic department) None (bucket (snd first)) =
    Bucket.list (listPrefix clinic department) None b /\
  saves (journal (snd first)) =
    [(bundlePathOf clinic department,
      {| objContent :=
           bundleJsonOf clinic department
             (Bucket.list (listPrefix clinic department) None b);
         objOptions := bundleSaveOptions |})] /\
  saves (journal (snd second)) = saves (journal (snd first)) /\
  fst first = Returned (bundlePathOf clinic department) /\
  fst second = fst first /\
  bucket (snd second) = bucket (snd first).
Proof.
  cbv zeta. rewrite !exec_generateBundleLogic.
  cbn [world nextFault faults tl fst snd bucket journal app saves].
  rewrite !bucket_list_put by apply bundlePath_outside_listing.
  repeat split. apply bucket_put_put.
Qed.

Lemma slash_never_accepted (f : string) :
  Str.lacks "/" clinic = false \/ Str.lacks "/" department = false ->
  Scan.accepted clinic department f = None.
Proof.
  intros H. destruct (Scan.accepted clinic department f) as [[[v l] e]|] eqn:A;
    [|reflexivity].
  apply accepted_iff in A. destruct A as [? ? ? ? [_ Lc] [_ Ld] _ _ _ _].
  destruct H; congruence.
Qed.

(** C10.  When the clinic or the department contains ["/"], the bundle of
    every listing has no videos, and a run of the builder that meets no
    fault writes that bundle at the snapshot location and returns its
    path. *)
Theorem slash_namespace_empty_bundle
    (H : Str.lacks "/" clinic = false \/ Str.lacks "/" department = false)
    (files : list string) (b : Bucket.t) (ticks : list string) :
  videos (buildBundle clinic department files) = [] /\
  let run := exec (generateBundleLogic clinic department) (world b [] ticks) in
  fst run = Returned (bundlePathOf clinic department) /\
  Bucket.get (bundlePathOf clinic department) (bucket (snd run)) =
    Some {| objContent :=
              JSON.stringify
                (jsonOfBundle (Build_Bundle "1.0" clinic department []));
            objOptions := bundleSaveOptions |}.
Proof.
  assert (E : forall fs, scanFiles clinic department fs = []).
  { intros fs. induction fs as [|f fs IH] using rev_ind; [reflexivity|].
    now rewrite scanFiles_snoc, scanFile_eq, slash_never_accepted, IH. }
  split.
  - simpl. now rewrite E.
  - cbv zeta. rewrite exec_generateBundleLogic.
    cbn [world nextFault faults tl fst snd bucket journal]. split; [reflexivity|].
    rewrite bucket_get_put. unfold bundleJsonOf, buildBundle. now rewrite E.
Qed.

End BuilderRuns.

(** ** The language-folder initializer *)

Section Trim.

Lemma trimStart_blank (s : string) : Str.blank s = true -> Str.trimStart s = EmptyString.
Proof.
  induction s as [|c s IH]; simpl; [reflexivity|].
  destruct (Str.isWhiteSpace c); [exact IH | discriminate].
Qed.

Lemma trimStart_head (s : string) :
  Str.trimStart s = EmptyString /\ Str.blank s = true \/
  exists c t, Str.trimStart s = String c t /\ Str.isWhiteSpace c = false.
Proof.
  induction s as [|c s IH]; simpl; [now left|].
  destruct (Str.isWhiteSpace c) eqn:E; [exact IH|].
  right. now exists c, s.
Qed.

Lemma trimEnd_head (c : ascii) (t : string) :
  Str.isWhiteSpace c = false -> Str.trimEnd (String c t) <> EmptyString.
Proof. simpl. intros ->. now destruct (Str.trimEnd t). Qed.

(** A name trims to the empty string exactly when all of it is white
    space. *)
Lemma trim_empty_iff (s : string) : Str.trim s = EmptyString <-> Str.blank s = true.
Proof.
  unfold Str.trim. split.
  - destruct (trimStart_head s) as [[_ B] | (c & t & E & W)]; [now intros _|].
    rewrite E. intros H. now apply trimEnd_head in H.
  - intros B. now rewrite trimStart_blank.
Qed.

End Trim.

Section InitializerRuns.

Import LanguageFolderUtils.

Variables clinic department : string.

(** C8.  For a [videoName] that is empty or all white space, the
    initializer returns without an error after one warning: it makes no
    call to the bucket, so no marker is created, whatever the clinic, the
    department, the languages and the state of the service. *)
Theorem blank_videoName_noop (videoName : string) (languages : option (list string))
    (w : World) :
  Str.blank videoName = true ->
  let run := exec (createLanguageFolders clinic department videoName languages) w in
  fst run = Returned tt /\
  bucket (snd run) = bucket w /\
  faults (snd run) = faults w /\
  journal (snd run) =
    (journal w ++ [EvConsole WARN "[LANG-SETUP] empty videoName, skipping"])%list.
Proof.
  intros B. apply trim_empty_iff in B. unfold createLanguageFolders.
  rewrite B. simpl. now repeat split.
Qed.

End InitializerRuns.

(** ** The upload trigger of the language folders *)

Section Trigger.

(** C9, as amended.  For an upload name [videos/<clinic>/<department>/
    <videoName>/...], that is a name whose third segment is followed by
    ["/"], the trigger calls the initializer with the third segment as
    [videoName] and the fixed list of sixteen languages, which is the
    default list of the initializer. *)
Theorem trigger_invokes_initializer (c d v rest : string) :
  Spec.isSegment c -> Spec.isSegment d -> Spec.isSegment v ->
  let name := "videos/" ++ c ++ "/" ++ d ++ "/" ++ v ++ "/" ++ rest in
  Index.createLanguageFolders (Some name) =
    Console LOG
      ("[LANGUAGE FOLDERS] " ++ name ++ " -> creating folders for "
         ++ c ++ "/" ++ d ++ "/" ++ v)
      (tryCatch
         (LanguageFolderUtils.createLanguageFolders c d v (Some Index.SUPPORTED_LANGUAGES) ;;
          console LOG ("[LANGUAGE FOLDERS] Folders created for "
                       ++ c ++ "/" ++ d ++ "/" ++ v))
         (fun e => console ERROR ("[LANGUAGE FOLDERS] Error creating folders: " ++ e))) /\
  Index.SUPPORTED_LANGUAGES = LanguageFolderUtils.defaultLanguages /\
  List.length Index.SUPPORTED_LANGUAGES = 16.
Proof.
  intros Hc Hd Hv name.
  assert (M : videoDir_match name = Some (c, d, v)).
  { apply videoDir_match_iff. repeat (split; [assumption|]). now exists rest. }
  unfold Index.createLanguageFolders. rewrite M. now repeat split.
Qed.

End Trigger.

Section FolderRuns.

Import LanguageFolderUtils.

Variables clinic department name : string.

Local Abbreviation prefixOf := (langFolderPathOf clinic department name).
Local Abbreviation markerOf := (placeholderPathOf clinic department name).
Local Abbreviation Run := (FolderRun clinic department name).

Lemma hasObject_iff (b : Bucket.t) (p : string) :
  Spec.hasObject b p = true <->
  exists n, In n (Bucket.names b) /\ Str.startsWith n p = true.
Proof. unfold Spec.hasObject. apply existsb_exists. Qed.

Lemma hasObject_grows (b b' : Bucket.t) (p : string) :
  (forall n, In n (Bucket.names b) -> In n (Bucket.names b')) ->
  Spec.hasObject b p = true -> Spec.hasObject b' p = true.
Proof.
  intros G H. apply hasObject_iff in H as (n & Hn & S).
  apply hasObject_iff. exists n. auto.
Qed.

Lemma hasObject_false_back (b b' : Bucket.t) (p : string) :
  (forall n, In n (Bucket.names b) -> In n (Bucket.names b')) ->
  Spec.hasObject b' p = false -> Spec.hasObject b p = false.
Proof.
  intros G H. destruct (Spec.hasObject b p) eqn:E; [|reflexivity].
  apply (hasObject_grows b b' p G) in E. congruence.
Qed.

(** The probe [getFiles({ prefix, maxResults: 1 })] finds nothing exactly
    when no object has the prefix. *)
Lemma probe_empty (b : Bucket.t) (p : string) :
  (List.length (Bucket.list p (Some 1) b) =? 0)%nat = negb (Spec.hasObject b p).
Proof.
  unfold Bucket.list, Spec.hasObject.
  induction (Bucket.names b) as [|n ns IH]; simpl; [reflexivity|].
  destruct (Str.startsWith n p); simpl; [reflexivity | exact IH].
Qed.

Lemma names_put (path : string) (o : StoredObject) (b : Bucket.t) (n : string) :
  In n (Bucket.names (Bucket.put path o b)) <-> n = path \/ In n (Bucket.names b).
Proof.
  unfold Bucket.names. induction b as [|[k o'] b IH]; simpl.
  - intuition auto.
  - destruct (String.eqb k path) eqn:E; simpl.
    + apply String.eqb_eq in E as ->. intuition auto.
    + rewrite IH. intuition auto.
Qed.

Lemma marker_under_prefix (lang : string) :
  Str.startsWith (markerOf lang) (prefixOf lang) = true.
Proof. apply startsWith_app. Qed.

Lemma marker_injective (lang lang' : string) :
  markerOf lang = markerOf lang' -> lang = lang'.
Proof.
  unfold placeholderPathOf, langFolderPathOf. intros H.
  apply append_inv_tail in H.
  do 3 (apply append_inv_head in H; apply append_inv_head in H).
  apply append_inv_head in H. now apply append_inv_tail in H.
Qed.

Lemma Run_refl (langs : list string) (w w' : World) :
  bucket w' = bucket w ->
  (exists extra, journal w' = (journal w ++ extra)%list /\ saves extra = []) ->
  Run langs w w'.
Proof.
  intros B (extra & J & S). exists extra. rewrite S, B. now repeat split.
Qed.

Lemma Run_trans (langs : list string) (w1 w2 w3 : World) :
  Run langs w1 w2 -> Run langs w2 w3 -> Run langs w1 w3.
Proof.
  intros (x1 & J1 & S1 & B1 & G1) (x2 & J2 & S2 & B2 & G2).
  exists (x1 ++ x2)%list. repeat split.
  - now rewrite J2, J1, app_assoc.
  - intros p o H. rewrite saves_app in H. apply in_app_or in H as [H | H].
    + exact (S1 p o H).
    + destruct (S2 p o H) as (lang & Hl & -> & N). exists lang.
      repeat split; [assumption|]. now apply (hasObject_false_back _ _ _ G1).
  - rewrite saves_app. intros H. apply app_eq_nil in H as [H1 H2].
    now rewrite (B2 H2), (B1 H1).
  - auto.
Qed.

Lemma Run_incl (langs langs' : list string) (w w' : World) :
  incl langs langs' -> Run langs w w' -> Run langs' w w'.
Proof.
  intros I (x & J & S & B & G). exists x. repeat split; try assumption.
  intros p o H. destruct (S p o H) as (lang & Hl & E & N). exists lang. auto.
Qed.

(** One round of the loop. *)
Lemma setupLanguage_run (lang : string) (created : list string) (w : World) :
  let run := exec (setupLanguage clinic department name lang created) w in
  Run [lang] w (snd run) /\
  ((exists cs, fst run = Returned cs) ->
   Spec.hasObject (bucket (snd run)) (prefixOf lang) = true) /\
  (Spec.hasObject (bucket w) (prefixOf lang) = true ->
   saves (journal (snd run)) = saves (journal w) /\ bucket (snd run) = bucket w).
Proof.
  cbv zeta. unfold setupLanguage, getFiles, save, now, console. cbn [bind exec].
  destruct (nextFault w) as [e|]; cbn [bind exec fst snd bucket journal].
  - split; [|split].
    + apply Run_refl; [reflexivity|]. now exists [EvList (prefixOf lang) (Some 1)].
    + intros [cs H]. discriminate.
    + intros _. rewrite saves_app. simpl. now rewrite app_nil_r.
  - rewrite probe_empty. destruct (Spec.hasObject (bucket w) (prefixOf lang)) eqn:Has;
      cbn [negb bind exec fst snd bucket journal].
    + split; [|split].
      * apply Run_refl; [reflexivity|]. now exists [EvList (prefixOf lang) (Some 1)].
      * intros _. exact Has.
      * intros _. rewrite saves_app. simpl. now rewrite app_nil_r.
    + match goal with |- context [nextFault ?x] => destruct (nextFault x) as [e|] end;
        cbn [bind exec fst snd bucket journal].
      * split; [|split]; [| intros [cs H]; discriminate | intros H; discriminate].
        eexists. split; [rewrite <- app_assoc; reflexivity|]. simpl.
        split; [|split]; [| easy | auto].
        intros p o [[= <- <-] | []]. exists lang. repeat split; [now left | assumption].
      * split; [|split]; [| | intros H; discriminate].
        -- eexists. split; [rewrite <- !app_assoc; reflexivity|]. simpl.
           split; [|split]; [| easy |].
           ++ intros p o [[= <- <-] | []]. exists lang.
              repeat split; [now left | assumption].
           ++ intros n Hn. apply names_put. now right.
        -- intros _. apply hasObject_iff. exists (markerOf lang). split.
           ++ apply names_put. now left.
           ++ apply marker_under_prefix.
Qed.

(** The whole loop. *)
Lemma forOf_run (langs : list string) (created : list string) (w : World) :
  let run := exec (forOf langs (setupLanguage clinic department name) created) w in
  Run langs w (snd run) /\
  ((exists cs, fst run = Returned cs) ->
   forall lang, In lang langs ->
     Spec.hasObject (bucket (snd run)) (prefixOf lang) = true).
Proof.
  cbv zeta. revert created w. induction langs as [|lang langs IH]; intros created w.
  - simpl. split; [|intros _ ? []]. apply Run_refl; [reflexivity|].
    exists []. now rewrite app_nil_r.
  - cbn [forOf]. rewrite exec_bind.
    destruct (setupLanguage_run lang created w) as (R1 & H1 & _).
    destruct (exec (setupLanguage clinic department name lang created) w) as [[cs|e] w1];
      cbn [fst snd] in *.
    + destruct (IH cs w1) as (R2 & H2). split.
      * apply (Run_trans _ w w1).
        -- apply (Run_incl [lang]); [|assumption]. intros x [<- | []]. now left.
        -- apply (Run_incl langs); [|assumption]. intros x Hx. now right.
      * intros Ret l [<- | Hl].
        -- destruct R2 as (_ & _ & _ & _ & G).
           apply (hasObject_grows (bucket w1)); [assumption|].
           apply H1. now exists cs.
        -- now apply H2.
    + split.
      * apply (Run_incl [lang]); [|assumption]. intros x [<- | []]. now left.
      * intros [cs H]. discriminate.
Qed.

(** Without faults of the service the initializer returns. *)
Lemma setupLanguage_returns (lang : string) (created : list string) (w : World) :
  faults w = [] ->
  exists cs w',
    exec (setupLanguage clinic department name lang created) w = (Returned cs, w') /\
    faults w' = [].
Proof.
  intros F. unfold setupLanguage, getFiles, save, now, console, nextFault.
  cbn [bind exec]. unfold nextFault. rewrite F. cbn [bind exec].
  destruct (List.length _ =? 0)%nat; cbn [bind exec faults tl]; unfold nextFault;
    cbn [faults tl bind exec]; do 2 eexists; split; reflexivity.
Qed.

Lemma forOf_returns (langs : list string) (created : list string) (w : World) :
  faults w = [] ->
  exists cs w',
    exec (forOf langs (setupLanguage clinic department name) created) w = (Returned cs, w') /\
    faults w' = [].
Proof.
  revert created w. induction langs as [|lang langs IH]; intros created w F.
  - exists created, w. now split.
  - cbn [forOf]. rewrite exec_bind.
    destruct (setupLanguage_returns lang created w F) as (cs & w1 & -> & F1).
    now apply IH.
Qed.

End FolderRuns.

Section InitializerIdempotence.

Import LanguageFolderUtils.

Variables clinic department : string.

Lemma Run_console (name : string) (langs : list string) (w : World)
    (lv : level) (msg : string) :
  FolderRun clinic department name langs w (logged lv msg w).
Proof. apply Run_refl; [reflexivity|]. now exists [EvConsole lv msg]. Qed.

(** A run with a name that is not empty: the loop between two lines of
    the console. *)
Lemma exec_createLanguageFolders (videoName : string) (languages : option (list string))
    (w : World) :
  let name := Str.trim videoName in
  let langs := match languages with Some ls => ls | None => defaultLanguages end in
  Str.nonempty name = true ->
  exists (msg0 : string) (msg1 : list string -> string) (msg2 : error -> string),
    exec (createLanguageFolders clinic department videoName languages) w =
    match exec (forOf langs (setupLanguage clinic department name) []) (logged LOG msg0 w) with
    | (Returned cs, w1) => (Returned tt, logged LOG (msg1 cs) w1)
    | (Thrown e, w1) => (Thrown e, logged ERROR (msg2 e) w1)
    end.
Proof.
  cbv zeta. intros N. unfold createLanguageFolders. rewrite N. cbn [negb].
  unfold console at 1. cbn [bind exec]. rewrite exec_tryCatch, exec_bind.
  match goal with |- context [exec (forOf _ _ _) (?mk _ _ _ (_ ++ [EvConsole LOG ?m])%list)] =>
    exists m end.
  eexists (fun cs => if (0 <? List.length cs)%nat then _ else _), (fun e => _).
  unfold logged at 1.
  match goal with |- context [exec (forOf ?a ?b ?c) ?x] =>
    destruct (exec (forOf a b c) x) as [[cs|e] w1] end.
  - destruct (0 <? List.length cs)%nat; reflexivity.
  - reflexivity.
Qed.

(** A run of the initializer: what it may change, and what holds of the
    bucket when it returns. *)
Lemma createLanguageFolders_run (videoName : string) (languages : option (list string))
    (w : World) :
  let name := Str.trim videoName in
  let langs := match languages with Some ls => ls | None => defaultLanguages end in
  let run := exec (createLanguageFolders clinic department videoName languages) w in
  FolderRun clinic department name langs w (snd run) /\
  (Str.nonempty name = false ->
   saves (journal (snd run)) = saves (journal w) /\ bucket (snd run) = bucket w) /\
  (Str.nonempty name = true -> fst run = Returned tt ->
   forall lang, In lang langs ->
     Spec.hasObject (bucket (snd run)) (langFolderPathOf clinic department name lang) = true).
Proof.
  cbv zeta.
  destruct (Str.nonempty (Str.trim videoName)) eqn:N.
  - destruct (exec_createLanguageFolders videoName languages w N)
      as (msg0 & msg1 & msg2 & ->).
    set (name := Str.trim videoName).
    set (langs := match languages with Some ls => ls | None => defaultLanguages end).
    pose proof (Run_console name langs w LOG msg0) as R0.
    destruct (forOf_run clinic department name langs [] (logged LOG msg0 w)) as (R1 & H1).
    destruct (exec (forOf langs (setupLanguage clinic department name) [])
                   (logged LOG msg0 w)) as [[cs|e] w1]; cbn [fst snd] in *.
    + split; [|split]; [| discriminate |].
      * apply (Run_trans _ _ _ _ w (logged LOG msg0 w)); [assumption|].
        apply (Run_trans _ _ _ _ _ w1); [assumption | apply Run_console].
      * intros _ _ lang Hl. apply H1; [now exists cs | assumption].
    + split; [|split]; [| discriminate | discriminate].
      apply (Run_trans _ _ _ _ w (logged LOG msg0 w)); [assumption|].
      apply (Run_trans _ _ _ _ _ w1); [assumption | apply Run_console].
  - unfold createLanguageFolders. rewrite N. unfold console.
    cbn [negb bind exec fst snd bucket journal].
    split; [apply (Run_console _ _ w) | split; [|discriminate]].
    intros _. rewrite saves_app. simpl. now rewrite app_nil_r.
Qed.

Lemma initializer_returns_without_faults (videoName : string)
    (languages : option (list string)) (b : Bucket.t) (ticks : list string) :
  fst (exec (createLanguageFolders clinic department videoName languages)
            (world b [] ticks)) = Returned tt.
Proof.
  destruct (Str.nonempty (Str.trim videoName)) eqn:N.
  - destruct (exec_createLanguageFolders videoName languages (world b [] ticks) N)
      as (msg0 & msg1 & msg2 & ->).
    match goal with |- context [exec (forOf ?ls _ ?c) ?x] =>
      destruct (forOf_returns clinic department (Str.trim videoName) ls c x eq_refl)
        as (cs & w' & -> & _) end.
    reflexivity.
  - unfold createLanguageFolders. now rewrite N.
Qed.

(** C7.  After a call of the initializer that returned, a second call with
    the same arguments on the bucket it left issues no write and leaves the
    bucket as it is, whatever the service does in the second call; and in
    any call, a language that has an object under its prefix when the call
    begins gets no marker. *)
Theorem folders_idempotent (videoName : string) (languages : option (list string))
    (b : Bucket.t) (plan : list (option error)) (ticks : list string) :
  let name := Str.trim videoName in
  let first :=
    exec (createLanguageFolders clinic department videoName languages)
         (world b plan ticks) in
  (fst first = Returned tt ->
   forall plan' ticks',
     let second :=
       exec (createLanguageFolders clinic department videoName languages)
            (world (bucket (snd first)) plan' ticks') in
     saves (journal (snd second)) = [] /\ bucket (snd second) = bucket (snd first)) /\
  (forall lang,
     Spec.hasObject b (langFolderPathOf clinic department name lang) = true ->
     ~ In (placeholderPathOf clinic department name lang)
          (map fst (saves (journal (snd first))))).
Proof.
  cbv zeta. split.
  - intros Ret plan' ticks'.
    destruct (createLanguageFolders_run videoName languages (world b plan ticks))
      as (_ & _ & Has).
    destruct (createLanguageFolders_run videoName languages
                (world (bucket (snd (exec (createLanguageFolders clinic department
                                             videoName languages) (world b plan ticks))))
                       plan' ticks'))
      as ((extra & J & S & B & _) & Blank & _).
    destruct (Str.nonempty (Str.trim videoName)) eqn:N.
    + cbn [world journal bucket app] in J, S, B. rewrite J.
      destruct (saves extra) as [|[p o] rest] eqn:E; [split; [reflexivity | now apply B]|].
      exfalso. destruct (S p o (or_introl eq_refl)) as (lang & Hl & _ & No).
      rewrite (Has eq_refl Ret lang Hl) in No. discriminate.
    + exact (Blank eq_refl).
  - intros lang Has H.
    destruct (createLanguageFolders_run videoName languages (world b plan ticks))
      as ((extra & J & S & _) & _).
    cbn [world journal bucket app] in J, S. rewrite J in H.
    apply in_map_iff in H as ([p o] & E & H). simpl in E. subst p.
    destruct (S _ o H) as (lang' & _ & E & No).
    apply marker_injective in E. subst lang'. congruence.
Qed.

End InitializerIdempotence.

(** ** The listing of the examples, and the inputs on which claims fail *)

Section Examples.

Import GenerateBundleLogic.

Example bundle_of_three_objects :
  buildBundle "c1" "d1"
    ["videos/c1/d1/v1/en/a.mp4"; "videos/c1/d1/v1/en/a.vtt"; "videos/c1/d1/v1/fr/b.mp4"]
  = {| version := "1.0"; clinic := "c1"; department := "d1";
       videos :=
         [{| id := "v1"; title := "v1";
             languages :=
               [("en", {| videoPath := "videos/c1/d1/v1/en/a.mp4";
                          subtitlePath := "videos/c1/d1/v1/en/a.vtt" |});
                ("fr", {| videoPath := "videos/c1/d1/v1/fr/b.mp4";
                          subtitlePath := EmptyString |})] |}] |}.
Proof. reflexivity. Qed.

Example bundle_of_reupload :
  langEntryOf "v1" "en"
    (buildBundle "c1" "d1" ["videos/c1/d1/v1/en/old.mp4"; "videos/c1/d1/v1/en/new.mp4"])
  = Some {| videoPath := "videos/c1/d1/v1/en/new.mp4"; subtitlePath := EmptyString |}.
Proof. reflexivity. Qed.

Example json_of_empty_listing :
  bundleJsonOf "c1" "d1" [] =
  "{" ++ JSON.LF
  ++ "  " ++ JSON.quote "version" ++ ": " ++ JSON.quote "1.0" ++ "," ++ JSON.LF
  ++ "  " ++ JSON.quote "clinic" ++ ": " ++ JSON.quote "c1" ++ "," ++ JSON.LF
  ++ "  " ++ JSON.quote "department" ++ ": " ++ JSON.quote "d1" ++ "," ++ JSON.LF
  ++ "  " ++ JSON.quote "videos" ++ ": []" ++ JSON.LF
  ++ "}".
Proof. reflexivity. Qed.

Example index_keys_first :
  JsObject.keys
    (languagesOf [("en", Scan.blankEntry); ("10", Scan.blankEntry); ("9", Scan.blankEntry);
                  ("07", Scan.blankEntry)])
  = ["9"; "10"; "en"; "07"].
Proof. reflexivity. Qed.

Example initializer_on_empty_bucket :
  let run := exec (LanguageFolderUtils.createLanguageFolders "c1" "d1" "v1" None)
                  (Spec.calm []) in
  fst run = Returned tt /\
  Bucket.names (bucket (snd run)) =
    map (LanguageFolderUtils.placeholderPathOf "c1" "d1" "v1")
        LanguageFolderUtils.defaultLanguages.
Proof. split; reflexivity. Qed.

(** C2, as stated, fails: of two uploads of the same video, language and
    extension, the earlier one matches the grammar and is listed, and is
    the value of no path of the bundle. *)
Lemma completeness_fails_on_reupload :
  let old := "videos/c1/d1/v1/en/old.mp4" in
  let files := [old; "videos/c1/d1/v1/en/new.mp4"] in
  In old files /\
  Spec.AssetPath "c1" "d1" old "v1" "en" "mp4" /\
  occurrences old (buildBundle "c1" "d1" files) = 0 /\
  ~ completenessOfEveryMatch.
Proof.
  cbv zeta.
  assert (A : Spec.AssetPath "c1" "d1" "videos/c1/d1/v1/en/old.mp4" "v1" "en" "mp4")
    by (apply accepted_iff; reflexivity).
  split; [now left | split; [exact A | split; [reflexivity|]]].
  intros C.
  specialize (C "c1" "d1" ["videos/c1/d1/v1/en/old.mp4"; "videos/c1/d1/v1/en/new.mp4"]
                "videos/c1/d1/v1/en/old.mp4" "v1" "en" "mp4" (or_introl eq_refl) A).
  discriminate C.
Qed.

(** C3 at the language code ["__proto__"]: two uploads of the same video,
    language and extension match the grammar, the scan records the last
    one, and the bundle has no entry for the language at all: the video is
    listed with no languages. *)
Theorem proto_language_entry_lost :
  let old := "videos/c1/d1/v1/__proto__/old.mp4" in
  let new := "videos/c1/d1/v1/__proto__/new.mp4" in
  let files := [old; new] in
  Spec.AssetPath "c1" "d1" old "v1" "__proto__" "mp4" /\
  Spec.AssetPath "c1" "d1" new "v1" "__proto__" "mp4" /\
  Spec.lastOfItsKind "c1" "d1" files new "v1" "__proto__" "mp4" /\
  Scan.lookup "v1" "__proto__" (scanFiles "c1" "d1" files) =
    Some {| videoPath := new; subtitlePath := EmptyString |} /\
  langEntryOf "v1" "__proto__" (buildBundle "c1" "d1" files) = None /\
  videos (buildBundle "c1" "d1" files) =
    [{| id := "v1"; title := "v1"; languages := [] |}].
Proof.
  cbv zeta. repeat split; try reflexivity; try (apply accepted_iff; reflexivity).
  exists ["videos/c1/d1/v1/__proto__/old.mp4"], []. split; [reflexivity | intros ? []].
Qed.

(** C9, as stated, fails: an object directly under the department has a
    third segment, and the trigger returns without calling the
    initializer. *)
Lemma trigger_skips_object_under_department :
  Spec.firstThreeSegments "videos/c1/d1/v1" = Some ("c1", "d1", "v1") /\
  Index.createLanguageFolders (Some "videos/c1/d1/v1") = Ret tt /\
  ~ triggerOnThirdSegment.
Proof.
  split; [reflexivity | split; [reflexivity|]].
  intros T. destruct (T "videos/c1/d1/v1" "c1" "d1" "v1" eq_refl) as [msg E].
  assert (L : Index.createLanguageFolders (Some "videos/c1/d1/v1") = Ret tt) by reflexivity.
  rewrite L in E. discriminate E.
Qed.

End Examples.

(** ** The theorems at concrete inputs *)

Section Witnesses.

Import GenerateBundleLogic.

Lemma completeness_of_last_witness :
  let new := "videos/c1/d1/v1/en/new.mp4" in
  let files := ["videos/c1/d1/v1/en/old.mp4"; new; "videos/c1/d1/v1/en/new.vtt"] in
  "en" <> "__proto__" /\
  Spec.AssetPath "c1" "d1" new "v1" "en" "mp4" /\
  Spec.lastOfItsKind "c1" "d1" files new "v1" "en" "mp4" /\
  occurrences new (buildBundle "c1" "d1" files) = 1.
Proof.
  cbv zeta.
  assert (N : "en" <> "__proto__") by discriminate.
  assert (A : Spec.AssetPath "c1" "d1" "videos/c1/d1/v1/en/new.mp4" "v1" "en" "mp4")
    by (apply accepted_iff; reflexivity).
  assert (L : Spec.lastOfItsKind "c1" "d1"
                ["videos/c1/d1/v1/en/old.mp4"; "videos/c1/d1/v1/en/new.mp4";
                 "videos/c1/d1/v1/en/new.vtt"]
                "videos/c1/d1/v1/en/new.mp4" "v1" "en" "mp4").
  { exists ["videos/c1/d1/v1/en/old.mp4"], ["videos/c1/d1/v1/en/new.vtt"].
    split; [reflexivity|]. intros other [<- | []] H.
    apply accepted_iff in H. discriminate H. }
  split; [exact N | split; [exact A | split; [exact L|]]].
  exact (completeness_of_last "c1" "d1" _ _ "v1" "en" "mp4" N A L).
Defined.

Lemma grammar_rejection_witness :
  let name := "videos/c1/d1/v1/a.mp4" in
  let files := ["videos/c1/d1/v1/en/a.mp4"; name; "videos/c1/d1/v1/en/notes.txt"] in
  name <> EmptyString /\
  Grammar.outside "c1" "d1" name /\
  ~ In name (bundlePaths (buildBundle "c1" "d1" files)).
Proof.
  cbv zeta.
  assert (N : "videos/c1/d1/v1/a.mp4" <> EmptyString) by discriminate.
  assert (O : Grammar.outside "c1" "d1" "videos/c1/d1/v1/a.mp4").
  { left. intros segs H. injection H as <-. discriminate. }
  split; [exact N | split; [exact O|]].
  exact (grammar_rejection "c1" "d1" _ _ N O).
Defined.

Lemma folders_idempotent_witness :
  let b := [("videos/c1/d1/v1/fr/b.mp4",
             {| objContent := "video"; objOptions := bundleSaveOptions |})] in
  let first :=
    exec (LanguageFolderUtils.createLanguageFolders "c1" "d1" " v1 " (Some ["en"; "fr"]))
         (world b [] []) in
  fst first = Returned tt /\
  Spec.hasObject b (LanguageFolderUtils.langFolderPathOf "c1" "d1" "v1" "fr") = true /\
  (forall plan' ticks',
     let second :=
       exec (LanguageFolderUtils.createLanguageFolders "c1" "d1" " v1 " (Some ["en"; "fr"]))
            (world (bucket (snd first)) plan' ticks') in
     saves (journal (snd second)) = [] /\ bucket (snd second) = bucket (snd first)) /\
  ~ In (LanguageFolderUtils.placeholderPathOf "c1" "d1" "v1" "fr")
       (map fst (saves (journal (snd first)))).
Proof.
  cbv zeta.
  destruct (folders_idempotent "c1" "d1" " v1 " (Some ["en"; "fr"])
              [("videos/c1/d1/v1/fr/b.mp4",
                {| objContent := "video"; objOptions := bundleSaveOptions |})] [] [])
    as [H1 H2].
  split; [reflexivity | split; [reflexivity | split]].
  - exact (H1 eq_refl).
  - exact (H2 "fr" eq_refl).
Defined.

Lemma blank_videoName_noop_witness :
  let run := exec (LanguageFolderUtils.createLanguageFolders "c1" "d1" "  " None)
                  (Spec.calm []) in
  Str.blank "  " = true /\
  fst run = Returned tt /\
  bucket (snd run) = [] /\
  faults (snd run) = [] /\
  journal (snd run) = [EvConsole WARN "[LANG-SETUP] empty videoName, skipping"].
Proof.
  cbv zeta. split; [reflexivity|].
  exact (blank_videoName_noop "c1" "d1" "  " None (Spec.calm []) eq_refl).
Defined.

Lemma trigger_invokes_initializer_witness :
  Spec.isSegment "default" /\ Spec.isSegment "ophthalmology" /\
  Spec.isSegment "BunterStar" /\
  exists msg,
    Index.createLanguageFolders (Some "videos/default/ophthalmology/BunterStar/en/a.mp4") =
    Console LOG msg
      (tryCatch
         (LanguageFolderUtils.createLanguageFolders "default" "ophthalmology" "BunterStar"
            (Some LanguageFolderUtils.defaultLanguages) ;;
          console LOG "[LANGUAGE FOLDERS] Folders created for default/ophthalmology/BunterStar")
         (fun e => console ERROR ("[LANGUAGE FOLDERS] Error creating folders: " ++ e))).
Proof.
  assert (Hc : Spec.isSegment "default") by (split; reflexivity).
  assert (Hd : Spec.isSegment "ophthalmology") by (split; reflexivity).
  assert (Hv : Spec.isSegment "BunterStar") by (split; reflexivity).
  split; [exact Hc | split; [exact Hd | split; [exact Hv|]]].
  destruct (trigger_invokes_initializer "default" "ophthalmology" "BunterStar" "en/a.mp4"
              Hc Hd Hv) as (E & _ & _).
  eexists. exact E.
Defined.

Lemma slash_namespace_empty_bundle_witness :
  Str.lacks "/" "north/east" = false /\
  videos (buildBundle "north/east" "d1" ["videos/north/east/d1/v1/en/a.mp4"]) = [] /\
  Bucket.names
    (bucket (snd (exec (generateBundleLogic "north/east" "d1") (world [] [] []))))
  = ["bundles/north/east/d1/bundle.json"].
Proof.
  split; [reflexivity|].
  destruct (slash_namespace_empty_bundle "north/east" "d1" (or_introl eq_refl)
              ["videos/north/east/d1/v1/en/a.mp4"] [] []) as (V & _ & _).
  split; [exact V | reflexivity].
Defined.

End Witnesses.

(* ################################################################# *)
(** * Further properties of the code *)

(** ** The bundle builder: videos and languages *)

Section BuilderVideos.

Import GenerateBundleLogic Scan More.

Variables clinic department : string.

Lemma distinct_In (xs : list string) (x : string) : In x (distinct xs) <-> In x xs.
Proof.
  induction xs as [|a xs IH]; simpl; [tauto|].
  rewrite filter_In, IH, negb_true_iff, String.eqb_neq.
  destruct (string_dec a x) as [-> | N]; [tauto|].
  split; [tauto|]. intros [H | H]; [tauto|]. right. split; [assumption | congruence].
Qed.

Lemma distinct_snoc_old (xs : list string) (x : string) :
  In x xs -> distinct (xs ++ [x]) = distinct xs.
Proof.
  induction xs as [|a xs IH]; intros H; [easy|].
  cbn [app distinct]. destruct (string_dec a x) as [-> | N].
  - destruct (in_dec string_dec x xs) as [I | I]; [now rewrite IH|].
    clear IH H. f_equal.
    assert (E : forall ys, ~ In x ys ->
                filter (fun y => negb (String.eqb y x)) (distinct (ys ++ [x]))
                = filter (fun y => negb (String.eqb y x)) (distinct ys)).
    { clear. induction ys as [|b ys IH]; intros N; cbn [app distinct filter].
      - now rewrite String.eqb_refl.
      - assert (Nb : b <> x) by (intros ->; apply N; now left).
        apply String.eqb_neq in Nb as Eb. rewrite Eb. cbn [negb]. f_equal.
        assert (C : forall zs,
                  filter (fun y => negb (String.eqb y x))
                         (filter (fun y => negb (String.eqb y b)) zs)
                  = filter (fun y => negb (String.eqb y b))
                           (filter (fun y => negb (String.eqb y x)) zs)).
        { induction zs as [|z zs IHz]; [reflexivity|]. cbn [filter].
          destruct (negb (String.eqb z b)) eqn:E1, (negb (String.eqb z x)) eqn:E2;
            cbn [filter]; rewrite ?E1, ?E2, IHz; reflexivity. }
        rewrite !C, IH; [reflexivity|]. intros H. apply N. now right. }
    now apply E.
  - destruct H as [H | H]; [easy|]. now rewrite IH.
Qed.

Lemma distinct_snoc_new (xs : list string) (x : string) :
  ~ In x xs -> distinct (xs ++ [x]) = (distinct xs ++ [x])%list.
Proof.
  induction xs as [|a xs IH]; intros N; [reflexivity|].
  cbn [app distinct]. rewrite IH by (intros H; apply N; now right).
  rewrite filter_app. cbn [filter].
  assert (E : String.eqb x a = false) by (apply String.eqb_neq; intros ->; apply N; now left).
  now rewrite E.
Qed.

Lemma jsmap_has_In {V : Type} (m : JsMap.t V) (k : string) :
  JsMap.has k m = true <-> In k (JsMap.keys m).
Proof.
  unfold JsMap.has. destruct (JsMap.get k m) eqn:G.
  - split; [intros _ | reflexivity]. apply jsmap_get_In in G.
    now apply (in_map fst) in G.
  - apply jsmap_get_None in G. split; [discriminate | tauto].
Qed.

Lemma acceptedVideoIds_snoc (files : list string) (f : string) :
  acceptedVideoIds clinic department (files ++ [f]) =
  (acceptedVideoIds clinic department files
     ++ match accepted clinic department f with
        | Some (v, _, _) => [v]
        | None => []
        end)%list.
Proof.
  unfold acceptedVideoIds. rewrite flat_map_app. simpl. now rewrite app_nil_r.
Qed.

(** The keys of the scanned map: the accepted video identifiers, each at
    its first occurrence. *)
Lemma scan_keys (files : list string) :
  JsMap.keys (scanFiles clinic department files) =
  distinct (acceptedVideoIds clinic department files).
Proof.
  induction files as [|f files IH] using rev_ind; [reflexivity|].
  rewrite scanFiles_snoc, scanFile_eq, acceptedVideoIds_snoc.
  destruct (accepted clinic department f) as [[[v l] e]|].
  - unfold record. rewrite jsmap_keys_set.
    destruct (JsMap.has v (scanFiles clinic department files)) eqn:H.
    + apply jsmap_has_In in H. rewrite IH in H. apply (proj1 (distinct_In _ _)) in H.
      rewrite distinct_snoc_old by assumption. exact IH.
    + rewrite distinct_snoc_new, IH; [reflexivity|].
      intros I. apply (proj2 (distinct_In _ _)) in I. rewrite <- IH in I.
      apply jsmap_has_In in I. congruence.
  - now rewrite app_nil_r.
Qed.

Lemma videos_ids (files : list string) :
  map id (videos (buildBundle clinic department files)) =
  JsMap.keys (scanFiles clinic department files).
Proof.
  simpl. unfold videosOf, JsMap.entries, JsMap.keys. rewrite map_map. reflexivity.
Qed.

(** X1.  The videos of a bundle are the video identifiers of the accepted
    files in the order of their first occurrence in the listing, one entry
    for each, and the title of every video is its identifier. *)
Theorem videos_in_first_seen_order (files : list string) :
  map id (videos (buildBundle clinic department files)) =
    distinct (acceptedVideoIds clinic department files) /\
  NoDup (map id (videos (buildBundle clinic department files))) /\
  Forall (fun video => title video = id video)
         (videos (buildBundle clinic department files)).
Proof.
  split; [|split].
  - now rewrite videos_ids, scan_keys.
  - rewrite videos_ids. apply scanFiles_WellKeyed.
  - apply Forall_forall. intros video H. simpl in H. unfold videosOf in H.
    apply in_map_iff in H as (entry & <- & _). reflexivity.
Qed.

(** X2.  Within a video, no language code occurs twice among the keys of
    [languages], and ["__proto__"] is never one of them. *)
Theorem language_keys_distinct (files : list string) :
  Forall (fun video =>
            NoDup (JsObject.keys (languages video)) /\
            ~ In "__proto__" (JsObject.keys (languages video)))
         (videos (buildBundle clinic department files)).
Proof.
  apply Forall_forall. intros video H. simpl in H. unfold videosOf in H.
  apply in_map_iff in H as ([v lm] & <- & H). simpl. split.
  - apply languagesOf_NoDup.
  - apply jsobj_get_None.
    assert (W : NoDup (JsMap.keys lm)).
    { apply (proj2 (scanFiles_WellKeyed clinic department files) v). exact H. }
    now rewrite languagesOf_get.
Qed.

Lemma scan_filter (files : list string) (vm : VideoMap) :
  fold_left (scanFile clinic department) (filter (isAccepted clinic department) files) vm =
  fold_left (scanFile clinic department) files vm.
Proof.
  revert vm. induction files as [|f files IH]; intros vm; simpl; [reflexivity|].
  unfold isAccepted at 1. rewrite (scanFile_eq clinic department vm f).
  destruct (accepted clinic department f) as [[[v l] e]|] eqn:A; simpl.
  - rewrite scanFile_eq, A. apply IH.
  - apply IH.
Qed.

(** X3.  Names that fail a test of the scan are skipped and leave no trace:
    the bundle of a listing, and its JSON text, are those of the listing
    without the rejected names. *)
Theorem rejected_names_leave_no_trace (files : list string) :
  buildBundle clinic department files =
    buildBundle clinic department (filter (isAccepted clinic department) files) /\
  bundleJsonOf clinic department files =
    bundleJsonOf clinic department (filter (isAccepted clinic department) files).
Proof.
  assert (E : scanFiles clinic department (filter (isAccepted clinic department) files)
              = scanFiles clinic department files) by apply scan_filter.
  unfold bundleJsonOf, buildBundle. now rewrite E.
Qed.

End BuilderVideos.

(** ** The order of the language keys *)

Section KeyOrder.

Import GenerateBundleLogic More.

Variable V : Type.

Lemma orderedFrom_snoc (lo : N) (ks : list string) (k : string) :
  JsObject.arrayIndex k = None ->
  orderedFrom lo ks = true -> orderedFrom lo (ks ++ [k]) = true.
Proof.
  intros Hk. revert lo. induction ks as [|a ks IH]; intros lo; simpl.
  - now rewrite Hk.
  - destruct (JsObject.arrayIndex a) as [n|].
    + rewrite !andb_true_iff. intros [H1 H2]. split; [assumption | now apply IH].
    + rewrite forallb_app. intros ->. simpl. now rewrite Hk.
Qed.

Lemma orderedFrom_insertIndex (lo i : N) (k : string) (v : V) (o : JsObject.t V) :
  JsObject.arrayIndex k = Some i -> (lo <= i)%N ->
  orderedFrom lo (JsObject.keys o) = true ->
  orderedFrom lo (JsObject.keys (JsObject.insertIndex i k v o)) = true.
Proof.
  intros Hk. revert lo. induction o as [|[a va] o IH]; intros lo L; simpl.
  - intros _. rewrite Hk. now rewrite (proj2 (N.leb_le lo i) L).
  - destruct (JsObject.arrayIndex a) as [j|] eqn:Ha.
    + rewrite andb_true_iff, N.leb_le. intros [H1 H2].
      destruct (j <? i)%N eqn:J; simpl.
      * rewrite Ha. apply N.ltb_lt in J.
        rewrite (proj2 (N.leb_le lo j) H1). simpl. apply IH; [lia | assumption].
      * rewrite Hk, Ha. apply N.ltb_ge in J.
        rewrite (proj2 (N.leb_le lo i) L), (proj2 (N.leb_le i j) J). exact H2.
    + intros H. simpl. rewrite Hk, Ha.
      now rewrite (proj2 (N.leb_le lo i) L).
Qed.

Lemma ownKeyOrder_assign (k : string) (v : V) (o : JsObject.t V) :
  ownKeyOrder (JsObject.keys o) = true ->
  ownKeyOrder (JsObject.keys (JsObject.assign k v o)) = true.
Proof.
  unfold ownKeyOrder, JsObject.assign. intros H.
  destruct (String.eqb k "__proto__"); [assumption|].
  destruct (JsObject.get k o).
  - now rewrite jsobj_keys_replace.
  - destruct (JsObject.arrayIndex k) as [i|] eqn:Hk.
    + apply orderedFrom_insertIndex; [assumption | lia | assumption].
    + unfold JsObject.keys. rewrite map_app. now apply orderedFrom_snoc.
Qed.

End KeyOrder.

Section KeyOrderOfBundle.

Import GenerateBundleLogic More.

(** X4.  In the [languages] of every video of a bundle, the language codes
    that are array indices (canonical decimal numerals below [2^32 - 1])
    come first, in ascending numeric order, whatever the order of the
    listing; the other codes follow. *)
Theorem language_keys_index_first (clinic department : string) (files : list string) :
  Forall (fun video => ownKeyOrder (JsObject.keys (languages video)) = true)
         (videos (buildBundle clinic department files)).
Proof.
  apply Forall_forall. intros video H. simpl in H. unfold videosOf in H.
  apply in_map_iff in H as ([v lm] & <- & _). simpl. clear.
  induction lm as [|[k e] lm IH] using rev_ind; [reflexivity|].
  rewrite languagesOf_snoc. now apply ownKeyOrder_assign.
Qed.

Example numeric_codes_reordered :
  JsObject.keys
    (languages
       (hd {| id := EmptyString; title := EmptyString; languages := [] |}
           (videos (buildBundle "c1" "d1"
                      ["videos/c1/d1/v1/en/a.mp4"; "videos/c1/d1/v1/12/a.mp4";
                       "videos/c1/d1/v1/7/a.mp4"]))))
  = ["7"; "12"; "en"].
Proof. reflexivity. Qed.

End KeyOrderOfBundle.

(** ** The bundle builder: which paths are set *)

Section BuilderPaths.

Import GenerateBundleLogic Scan.

Variables clinic department : string.

Lemma accepted_dec (f : string) (key : string * string * string) :
  {accepted clinic department f = Some key} + {accepted clinic department f <> Some key}.
Proof.
  destruct (accepted clinic department f) as [[[v l] e]|]; [|right; discriminate].
  destruct key as [[v' l'] e'].
  destruct (string_dec v v') as [-> | N]; [|right; congruence].
  destruct (string_dec l l') as [-> | N]; [|right; congruence].
  destruct (string_dec e e') as [-> | N]; [now left | right; congruence].
Qed.

(** Among the files of a kind in a listing, one is the last. *)
Lemma last_accepted_exists (files : list string) (key : string * string * string) :
  (exists f, In f files /\ accepted clinic department f = Some key) ->
  exists before name after,
    files = (before ++ name :: after)%list /\
    accepted clinic department name = Some key /\
    forall other, In other after -> accepted clinic department other <> Some key.
Proof.
  induction files as [|x files IH] using rev_ind; intros (f & Hf & A); [easy|].
  destruct (accepted_dec x key) as [Ax | Nx].
  - exists files, x, []. now repeat split.
  - apply in_app_or in Hf as [Hf | [<- | []]]; [|congruence].
    destruct IH as (before & name & after & -> & An & Ha); [now exists f|].
    exists before, name, (after ++ [x])%list. split; [|split; [assumption|]].
    + now rewrite <- app_assoc.
    + intros other Ho. apply in_app_or in Ho as [Ho | [<- | []]]; auto.
Qed.

Lemma scan_lookup_of_file (files : list string) (f v l ext : string) :
  In f files -> accepted clinic department f = Some (v, l, ext) ->
  exists e, lookup v l (scanFiles clinic department files) = Some e /\
            Spec.fieldOf ext e <> EmptyString.
Proof.
  intros Hf A.
  destruct (last_accepted_exists files (v, l, ext)) as (before & name & after & -> & An & Ha);
    [now exists f|].
  destruct (scan_last clinic department before after name v l ext An Ha) as (e & L & F).
  exists e. split; [assumption|]. rewrite F.
  now apply (accepted_nonempty clinic department name v l ext).
Qed.

Lemma bundle_entry_lookup (files : list string) (video : VideoEntry) (l : string)
    (e : LangPaths) :
  In video (videos (buildBundle clinic department files)) ->
  In (l, e) (languages video) ->
  lookup (id video) l (scanFiles clinic department files) = Some e.
Proof.
  intros Hv Hl.
  destruct (bundle_entry_from_scan _ _ _ _ _ _ Hv Hl) as (lm & H1 & H2).
  pose proof (scanFiles_WellKeyed clinic department files) as [ND W].
  unfold lookup, langMapOf. rewrite (jsmap_In_get _ _ _ _ ND H1).
  apply jsmap_In_get; [now apply (W (id video)) | assumption].
Qed.

(** X5.  In a language entry of a bundle, [videoPath] is empty exactly when
    the listing has no [mp4] object that matches the grammar for that video
    and language, and [subtitlePath] is empty exactly when it has no such
    [vtt] object. *)
Theorem path_empty_iff_no_object (files : list string) (video : VideoEntry)
    (l : string) (e : LangPaths) :
  In video (videos (buildBundle clinic department files)) ->
  In (l, e) (languages video) ->
  (videoPath e = EmptyString <->
   forall f, In f files -> ~ Spec.AssetPath clinic department f (id video) l "mp4") /\
  (subtitlePath e = EmptyString <->
   forall f, In f files -> ~ Spec.AssetPath clinic department f (id video) l "vtt").
Proof.
  intros Hv Hl.
  pose proof (bundle_entry_lookup files video l e Hv Hl) as L.
  destruct (bundle_entry_ok _ _ _ _ _ _ Hv Hl) as (O1 & O2 & _).
  split; split.
  - intros E f Hf A. apply accepted_iff in A.
    destruct (scan_lookup_of_file files f _ _ _ Hf A) as (e' & L' & N).
    rewrite L in L'. injection L' as <-. now apply N.
  - intros H. destruct O1 as [E | [Hf A]]; [assumption|].
    exfalso. apply (H _ Hf). now apply accepted_iff.
  - intros E f Hf A. apply accepted_iff in A.
    destruct (scan_lookup_of_file files f _ _ _ Hf A) as (e' & L' & N).
    rewrite L in L'. injection L' as <-. now apply N.
  - intros H. destruct O2 as [E | [Hf A]]; [assumption|].
    exfalso. apply (H _ Hf). now apply accepted_iff.
Qed.

(** X6.  For a language code other than ["__proto__"], a bundle has an
    entry for a video and that language exactly when the listing has an
    object that matches the grammar for them. *)
Theorem language_listed_iff (files : list string) (v l : string) :
  l <> "__proto__" ->
  (langEntryOf v l (buildBundle clinic department files) <> None <->
   exists f ext, In f files /\ Spec.AssetPath clinic department f v l ext).
Proof.
  intros Np. rewrite langEntryOf_buildBundle.
  rewrite languagesOf_get by (apply langMapOf_NoDup, scanFiles_WellKeyed).
  apply String.eqb_neq in Np. rewrite Np.
  change (JsMap.get l (langMapOf v (scanFiles clinic department files)))
    with (lookup v l (scanFiles clinic department files)).
  split.
  - destruct (lookup v l (scanFiles clinic department files)) as [e|] eqn:L; [|easy].
    intros _. unfold lookup, langMapOf in L.
    destruct (JsMap.get v (scanFiles clinic department files)) as [lm|] eqn:G; [|discriminate].
    apply jsmap_get_In in G, L.
    destruct (scanFiles_EntryOk clinic department files v lm l e G L) as (O1 & O2 & [N | N]).
    + destruct O1 as [E | [Hf A]]; [easy|].
      exists (videoPath e), "mp4". split; [assumption | now apply accepted_iff].
    + destruct O2 as [E | [Hf A]]; [easy|].
      exists (subtitlePath e), "vtt". split; [assumption | now apply accepted_iff].
  - intros (f & ext & Hf & A). apply accepted_iff in A.
    destruct (scan_lookup_of_file files f v l ext Hf A) as (e & -> & _). discriminate.
Qed.

(** X7.  For a clinic and a department without ["/"], a name that begins
    with the prefix of the listing and matches the pattern has that clinic
    and department: on the names of its own listing the equality test of
    the scan rejects nothing. *)
Theorem listed_match_is_accepted (name fc fd v l e : string) :
  Spec.isSegment clinic -> Spec.isSegment department ->
  Str.startsWith name (listPrefix clinic department) = true ->
  asset_match name = Some (fc, fd, v, l, e) ->
  accepted clinic department name = Some (v, l, e).
Proof.
  intros Hc Hd S M.
  apply startsWith_iff in S as [r ->].
  destruct (asset_match_split _ _ _ _ _ _ M) as [f Sp].
  unfold listPrefix in Sp.
  assert (E : ("videos/" ++ clinic ++ "/" ++ department ++ "/") ++ r
              = "videos" ++ "/" ++ clinic ++ "/" ++ department ++ "/" ++ r)
    by now normalize_append.
  rewrite E in Sp.
  rewrite (isSegment_split "videos") in Sp by (now split).
  rewrite !isSegment_split in Sp by assumption.
  injection Sp as <- <- _. unfold accepted. rewrite M.
  now rewrite !String.eqb_refl.
Qed.

End BuilderPaths.

(** ** The bundle builder: paths and the bucket *)

Section BuilderBucket.

Import GenerateBundleLogic Scan.

Lemma slash_cut (a a' x x' : string) :
  Str.lacks "/" a = true -> Str.lacks "/" a' = true ->
  a ++ "/" ++ x = a' ++ "/" ++ x' -> a = a' /\ x = x'.
Proof.
  intros L L' E.
  assert (S : Str.split "/" (a ++ "/" ++ x) = Str.split "/" (a' ++ "/" ++ x'))
    by now rewrite E.
  change (a ++ "/" ++ x) with (a ++ String "/" x) in S.
  change (a' ++ "/" ++ x') with (a' ++ String "/" x') in S.
  rewrite !split_app in S by assumption. injection S as -> _.
  split; [reflexivity|]. apply append_inv_head in E. now injection E.
Qed.

(** X8.  For clinic names without ["/"], two namespaces with the same
    snapshot location, or with the same listing prefix, are the same
    namespace. *)
Theorem namespace_paths_injective (c d c' d' : string) :
  Str.lacks "/" c = true -> Str.lacks "/" c' = true ->
  (bundlePathOf c d = bundlePathOf c' d' -> c = c' /\ d = d') /\
  (listPrefix c d = listPrefix c' d' -> c = c' /\ d = d').
Proof.
  intros L L'. unfold bundlePathOf, listPrefix. split; intros E.
  - apply (append_inv_head "bundles/") in E.
    apply slash_cut in E as [-> E]; [|assumption|assumption].
    split; [reflexivity|]. now apply append_inv_tail in E.
  - apply (append_inv_head "videos/") in E.
    apply slash_cut in E as [-> E]; [|assumption|assumption].
    split; [reflexivity|]. now apply append_inv_tail in E.
Qed.

Lemma bucket_get_put_other (p q : string) (o : StoredObject) (b : Bucket.t) :
  p <> q -> Bucket.get p (Bucket.put q o b) = Bucket.get p b.
Proof. intros N. exact (jsmap_get_set_other StoredObject b q p o N). Qed.

(** X9.  Whatever the bucket and whatever the service does, a run of the
    builder leaves every object other than the snapshot of its namespace
    as it was. *)
Theorem builder_touches_only_snapshot (clinic department : string) (w : World)
    (p : string) :
  p <> bundlePathOf clinic department ->
  Bucket.get p (bucket (snd (exec (generateBundleLogic clinic department) w))) =
  Bucket.get p (bucket w).
Proof.
  intros N. rewrite exec_generateBundleLogic. cbv zeta.
  destruct (nextFault w); [reflexivity|].
  match goal with |- context [nextFault ?x] => destruct (nextFault x) end;
    cbn [snd bucket]; [reflexivity|].
  now apply bucket_get_put_other.
Qed.

Lemma marker_has_no_asset_suffix (x : string) :
  Str.endsWith (x ++ ".placeholder") ".mp4" = false /\
  Str.endsWith (x ++ ".placeholder") ".vtt" = false.
Proof.
  assert (E : x ++ ".placeholder" = (x ++ ".placeho") ++ "lder") by now rewrite append_assoc.
  split.
  - destruct (Str.endsWith (x ++ ".placeholder") ".mp4") eqn:H; [|reflexivity].
    apply endsWith_iff in H as [pre H]. rewrite E in H.
    apply append_eq_length in H as [_ H]; [discriminate|].
    apply (f_equal String.length) in H. rewrite !length_append in H. simpl in H.
    rewrite length_append. simpl. lia.
  - destruct (Str.endsWith (x ++ ".placeholder") ".vtt") eqn:H; [|reflexivity].
    apply endsWith_iff in H as [pre H]. rewrite E in H.
    apply append_eq_length in H as [_ H]; [discriminate|].
    apply (f_equal String.length) in H. rewrite !length_append in H. simpl in H.
    rewrite length_append. simpl. lia.
Qed.

(** X10.  The marker of a language folder is no asset for the builder: for
    every namespace and every listing, no marker path is accepted by the
    scan, and none is a path of the bundle. *)
Theorem markers_never_in_bundle (c d name lang clinic department : string)
    (files : list string) :
  accepted clinic department
    (LanguageFolderUtils.placeholderPathOf c d name lang) = None /\
  ~ In (LanguageFolderUtils.placeholderPathOf c d name lang)
       (bundlePaths (buildBundle clinic department files)).
Proof.
  assert (A : forall v l e,
            accepted clinic department
              (LanguageFolderUtils.placeholderPathOf c d name lang) <> Some (v, l, e)).
  { intros v l e H. unfold accepted in H.
    destruct (asset_match _) as [[[[[fc fd] v'] l'] e']|] eqn:M; [|discriminate].
    destruct (marker_has_no_asset_suffix
                (LanguageFolderUtils.langFolderPathOf c d name lang)) as [E1 E2].
    destruct (asset_match_endsWith _ _ _ _ _ _ M) as [E | E];
      unfold LanguageFolderUtils.placeholderPathOf in E; congruence. }
  split.
  - destruct (accepted _ _ _) as [[[v l] e]|] eqn:H; [|reflexivity].
    exfalso. exact (A v l e eq_refl).
  - intros H. apply bundlePaths_from_listing in H as (_ & v & l & e & P).
    + apply accepted_iff in P. now apply A in P.
    + discriminate.
Qed.

End BuilderBucket.

(** ** The entry points of [index.ts] *)

Section HandlerFacts.

Import GenerateBundleLogic Handlers.

(** The prefix pattern of the bundle triggers, as a matcher and as an
    expression. *)
Lemma namespace_match_iff (path c d : string) :
  namespace_match path = Some (c, d) <->
  Spec.isSegment c /\ Spec.isSegment d /\
  exists rest, path = "videos/" ++ c ++ "/" ++ d ++ "/" ++ rest.
Proof.
  split.
  - unfold namespace_match. intros H.
    pose proof (join_split "/" path) as J.
    pose proof (split_all_lack "/" path) as A.
    destruct (Str.split "/" path) as [|root [|c' [|d' [|x tl]]]]; try discriminate.
    destruct (String.eqb root "videos") eqn:R; [|discriminate].
    destruct (Str.nonempty c') eqn:Nc; [|discriminate].
    destruct (Str.nonempty d') eqn:Nd; [|discriminate].
    injection H as -> ->. apply String.eqb_eq in R as ->.
    repeat match goal with H : Forall _ (_ :: _) |- _ => inversion H; subst; clear H end.
    split; [now split | split; [now split|]].
    now exists (Str.join "/" (x :: tl)).
  - intros (Hc & Hd & rest & ->). unfold namespace_match.
    change ("videos/" ++ c ++ "/" ++ d ++ "/" ++ rest)
      with ("videos" ++ "/" ++ c ++ "/" ++ d ++ "/" ++ rest).
    rewrite (isSegment_split "videos") by (now split).
    rewrite !isSegment_split by assumption.
    pose proof (split_nonnil "/" rest) as N.
    destruct (Str.split "/" rest); [easy|].
    now destruct Hc as [-> _], Hd as [-> _].
Qed.

Lemma namespace_match_regex (path : string) :
  (forall cs, Regex.MatchesPrefix namespace_re path cs ->
     exists c d, cs = [c; d] /\ namespace_match path = Some (c, d)) /\
  (forall c d, namespace_match path = Some (c, d) ->
     Regex.MatchesPrefix namespace_re path [c; d]).
Proof.
  unfold Regex.MatchesPrefix, namespace_re. split.
  - intros cs (m & rest & -> & H).
    apply inv_cat_lit in H as (s0 & -> & H).
    apply inv_cat_segment in H as (c & s1 & cs1 & -> & -> & Hc & H).
    apply inv_cat_lit in H as (s2 & -> & H).
    apply inv_cat_segment in H as (d & s3 & cs3 & -> & -> & Hd & H).
    inversion H; subst.
    exists c, d. split; [reflexivity|].
    apply namespace_match_iff. split; [assumption | split; [assumption|]].
    exists rest. now normalize_append.
  - intros c d H. apply namespace_match_iff in H as (Hc & Hd & rest & ->).
    exists ("videos/" ++ c ++ "/" ++ d ++ "/"), rest. split.
    + now normalize_append.
    + apply cat_lit, cat_segment; [assumption|]. apply cat_lit.
      apply (@Regex.MCat Regex.segment (Regex.Lit "/") d "/" [d] []);
        [now apply matches_segment | constructor].
Qed.

Lemma exec_swallow (m : Storage unit) (msg : error -> string) (w : World) :
  fst (exec (tryCatch m (fun e => console ERROR (msg e))) w) = Returned tt.
Proof.
  rewrite exec_tryCatch. destruct (exec m w) as [[[]|e] w']; reflexivity.
Qed.

(** X11.  The three storage triggers never throw: whatever the name of the
    object, the bucket and the faults of the service, each handler
    returns. *)
Theorem triggers_never_throw (eventName : option string) (w : World) :
  fst (exec (autoGenerateBundle eventName) w) = Returned tt /\
  fst (exec (cleanupBundle eventName) w) = Returned tt /\
  fst (exec (Index.createLanguageFolders eventName) w) = Returned tt.
Proof.
  split; [|split].
  - unfold autoGenerateBundle.
    destruct (namespace_match _) as [[c d]|]; [|reflexivity].
    unfold console at 1. cbn [bind exec]. apply exec_swallow.
  - unfold cleanupBundle.
    destruct (namespace_match _) as [[c d]|]; [|reflexivity].
    unfold console at 1. cbn [bind exec]. apply exec_swallow.
  - unfold Index.createLanguageFolders, Index.invokeInitializer.
    destruct (videoDir_match _) as [[[c d] v]|]; [|reflexivity].
    unfold console at 1. cbn [bind exec]. apply exec_swallow.
Qed.

Lemma split_bundlePath (clinic department : string) :
  exists tl, Str.split "/" (bundlePathOf clinic department) = "bundles" :: tl.
Proof.
  unfold bundlePathOf.
  change ("bundles/" ++ clinic ++ "/" ++ department ++ "/bundle.json")
    with ("bundles" ++ String "/" (clinic ++ "/" ++ department ++ "/bundle.json")).
  rewrite split_app by reflexivity. now eexists.
Qed.

(** X12.  The snapshot written by the builder starts no further work: for
    every clinic and department, each of the three triggers ignores the
    name of the snapshot, so a rebuild never causes another rebuild. *)
Theorem triggers_ignore_snapshot (clinic department : string) :
  autoGenerateBundle (Some (bundlePathOf clinic department)) = Ret tt /\
  cleanupBundle (Some (bundlePathOf clinic department)) = Ret tt /\
  Index.createLanguageFolders (Some (bundlePathOf clinic department)) = Ret tt.
Proof.
  destruct (split_bundlePath clinic department) as [tl S].
  assert (N : namespace_match (bundlePathOf clinic department) = None).
  { unfold namespace_match. rewrite S. now destruct tl as [|? [|? [|? ?]]]. }
  assert (V : videoDir_match (bundlePathOf clinic department) = None).
  { unfold videoDir_match. rewrite S. now destruct tl as [|? [|? [|? [|? ?]]]]. }
  unfold autoGenerateBundle, cleanupBundle, Index.createLanguageFolders.
  now rewrite N, V.
Qed.

(** X13.  For an object under [videos/<clinic>/<department>/], the upload
    trigger and the delete trigger rebuild the snapshot of that namespace:
    the object is under the prefix the builder lists, and without faults
    the bucket after the handler is the bucket with the snapshot of the
    current listing written. *)
Theorem bundle_triggers_rebuild_namespace (c d rest : string) (b : Bucket.t)
    (ticks : list string) :
  Spec.isSegment c -> Spec.isSegment d ->
  let name := "videos/" ++ c ++ "/" ++ d ++ "/" ++ rest in
  let snapshot :=
    {| objContent := bundleJsonOf c d (Bucket.list (listPrefix c d) None b);
       objOptions := bundleSaveOptions |} in
  Str.startsWith name (listPrefix c d) = true /\
  bucket (snd (exec (autoGenerateBundle (Some name)) (world b [] ticks))) =
    Bucket.put (bundlePathOf c d) snapshot b /\
  bucket (snd (exec (cleanupBundle (Some name)) (world b [] ticks))) =
    Bucket.put (bundlePathOf c d) snapshot b.
Proof.
  intros Hc Hd name snapshot.
  assert (M : namespace_match name = Some (c, d)).
  { apply namespace_match_iff. split; [assumption | split; [assumption|]]. now exists rest. }
  split; [|split].
  - apply startsWith_iff. exists rest. unfold name, listPrefix. now normalize_append.
  - unfold autoGenerateBundle. rewrite M. unfold console at 1. cbn [bind exec].
    rewrite exec_tryCatch, exec_bind, exec_generateBundleLogic. reflexivity.
  - unfold cleanupBundle. rewrite M. unfold console at 1. cbn [bind exec].
    rewrite exec_tryCatch, exec_bind, exec_generateBundleLogic. reflexivity.
Qed.

(** X14.  The HTTP handler rejects a request whose clinic or department is
    missing or empty: it answers 400 and does nothing else, neither a call
    to the bucket nor a line on the console. *)
Theorem http_missing_parameter (queryClinic queryDepartment : option string)
    (w : World) :
  queryClinic = None \/ queryClinic = Some EmptyString \/
  queryDepartment = None \/ queryDepartment = Some EmptyString ->
  exec (generateBundle queryClinic queryDepartment) w =
  (Returned {| status := 400; body := "Missing clinic or department parameters." |}, w).
Proof.
  unfold generateBundle.
  intros [-> | [-> | [-> | ->]]]; simpl; try reflexivity;
    destruct queryClinic as [[|? ?]|]; reflexivity.
Qed.

Lemma exec_generateBundle (clinic department : string) (w : World) :
  Str.nonempty clinic = true -> Str.nonempty department = true ->
  exec (generateBundle (Some clinic) (Some department)) w =
  match exec (generateBundleLogic clinic department)
             (logged LOG ("[HTTP] Generating bundle for " ++ clinic ++ "/" ++ department) w)
  with
  | (Returned path, w1) =>
      (Returned {| status := 200; body := "bundle.json created at " ++ path |}, w1)
  | (Thrown e, w1) =>
      (Returned {| status := 500; body := "Error generating bundle.json" |},
       logged ERROR ("[HTTP] Error generating bundle: " ++ e) w1)
  end.
Proof.
  intros Nc Nd. unfold generateBundle. rewrite Nc, Nd. cbn [negb orb].
  rewrite exec_tryCatch. unfold console at 1. cbn [bind exec].
  rewrite exec_bind. unfold logged at 1.
  destruct (exec (generateBundleLogic clinic department) _) as [[path|e] w1]; reflexivity.
Qed.

(** X15.  For a clinic and a department that are not empty, the HTTP
    handler always answers and never throws: 200 with the path of the
    snapshot when the builder returned, 500 with a fixed text, which does
    not carry the error, when the builder threw; the bucket is the one the
    builder left. *)
Theorem http_answers (clinic department : string) (w : World) :
  Str.nonempty clinic = true -> Str.nonempty department = true ->
  exists msg,
    let built := exec (generateBundleLogic clinic department) (logged LOG msg w) in
    let run := exec (generateBundle (Some clinic) (Some department)) w in
    bucket (snd run) = bucket (snd built) /\
    match fst built with
    | Returned _ =>
        fst run = Returned {| status := 200;
                              body := "bundle.json created at "
                                        ++ bundlePathOf clinic department |}
    | Thrown _ =>
        fst run = Returned {| status := 500; body := "Error generating bundle.json" |}
    end.
Proof.
  intros Nc Nd.
  exists ("[HTTP] Generating bundle for " ++ clinic ++ "/" ++ department).
  cbv zeta. rewrite (exec_generateBundle clinic department w Nc Nd).
  rewrite exec_generateBundleLogic. cbv zeta.
  destruct (nextFault _); [split; reflexivity|].
  destruct (nextFault _); split; reflexivity.
Qed.

End HandlerFacts.

(** ** The initializer: what a call leaves behind *)

Section TrimFacts.

Lemma trimEnd_keeps_head (c : ascii) (t : string) :
  Str.isWhiteSpace c = false -> exists u, Str.trimEnd (String c t) = String c u.
Proof.
  intros W. simpl. rewrite W. destruct (Str.trimEnd t) as [|b u]; now eexists.
Qed.

Lemma trimEnd_idempotent (s : string) : Str.trimEnd (Str.trimEnd s) = Str.trimEnd s.
Proof.
  induction s as [|a s IH]; [reflexivity|].
  cbn [Str.trimEnd]. destruct (Str.trimEnd s) as [|b u] eqn:E.
  - destruct (Str.isWhiteSpace a) eqn:W; [reflexivity|].
    simpl. now rewrite W.
  - change (Str.trimEnd (String a (String b u)))
      with (match Str.trimEnd (String b u) with
            | EmptyString =>
                if Str.isWhiteSpace a then EmptyString else String a EmptyString
            | String c t => String a (String c t)
            end).
    now rewrite IH.
Qed.

Lemma trim_idempotent (s : string) : Str.trim (Str.trim s) = Str.trim s.
Proof.
  unfold Str.trim.
  destruct (trimStart_head s) as [[-> _] | (c & t & -> & W)]; [reflexivity|].
  destruct (trimEnd_keeps_head c t W) as [u E]. rewrite E.
  simpl Str.trimStart. rewrite W. rewrite <- E. apply trimEnd_idempotent.
Qed.

Lemma trimStart_lacks (c : ascii) (s : string) :
  Str.lacks c s = true -> Str.lacks c (Str.trimStart s) = true.
Proof.
  induction s as [|a s IH]; [reflexivity|]. intros H. simpl.
  destruct (Str.isWhiteSpace a); [|assumption].
  simpl in H. apply andb_true_iff in H as [_ H]. now apply IH.
Qed.

Lemma trimEnd_lacks (c : ascii) (s : string) :
  Str.lacks c s = true -> Str.lacks c (Str.trimEnd s) = true.
Proof.
  induction s as [|a s IH]; [reflexivity|]. simpl.
  rewrite andb_true_iff. intros [Ha H]. specialize (IH H).
  destruct (Str.trimEnd s) as [|b u].
  - destruct (Str.isWhiteSpace a); [reflexivity|]. simpl. now rewrite Ha.
  - simpl. rewrite Ha. exact IH.
Qed.

Lemma trim_lacks (c : ascii) (s : string) :
  Str.lacks c s = true -> Str.lacks c (Str.trim s) = true.
Proof. intros H. now apply trimEnd_lacks, trimStart_lacks. Qed.

End TrimFacts.

Section InitializerMore.

Import LanguageFolderUtils More.

Variables clinic department : string.

Lemma keeps_refl (b : Bucket.t) : keeps b b.
Proof. intros n H. now split. Qed.

Lemma keeps_trans (b1 b2 b3 : Bucket.t) : keeps b1 b2 -> keeps b2 b3 -> keeps b1 b3.
Proof.
  intros K1 K2 n H. destruct (K1 n H) as [H2 E2]. destruct (K2 n H2) as [H3 E3].
  split; [assumption | congruence].
Qed.

Lemma probes_app (j1 j2 : list event) : probes (j1 ++ j2) = (probes j1 ++ probes j2)%list.
Proof.
  induction j1 as [|[p n | p o f | lv msg] j1 IH]; simpl; try assumption.
  - reflexivity.
  - now rewrite IH.
Qed.

(** One round of the loop: one probe, and the objects of the bucket stay. *)
Lemma setupLanguage_keeps (name lang : string) (created : list string) (w : World) :
  let run := exec (setupLanguage clinic department name lang created) w in
  keeps (bucket w) (bucket (snd run)) /\
  probes (journal (snd run)) =
    (probes (journal w) ++ [langFolderPathOf clinic department name lang])%list.
Proof.
  cbv zeta. unfold setupLanguage, getFiles, save, now, console. cbn [bind exec].
  destruct (nextFault w) as [e|]; cbn [bind exec fst snd bucket journal].
  - split; [apply keeps_refl | now rewrite probes_app].
  - rewrite probe_empty.
    destruct (Spec.hasObject (bucket w) (langFolderPathOf clinic department name lang))
      eqn:Has; cbn [negb bind exec fst snd bucket journal].
    + split; [apply keeps_refl | now rewrite probes_app].
    + match goal with |- context [nextFault ?x] => destruct (nextFault x) as [e|] end;
        cbn [bind exec fst snd bucket journal].
      * split; [apply keeps_refl|]. rewrite !probes_app. simpl. now rewrite app_nil_r.
      * split.
        -- intros n Hn. split; [apply names_put; now right|].
           apply bucket_get_put_other. intros ->.
           assert (T : Spec.hasObject (bucket w)
                         (langFolderPathOf clinic department name lang) = true).
           { apply hasObject_iff. eexists. split; [exact Hn|].
             apply (marker_under_prefix clinic department name lang). }
           congruence.
        -- rewrite !probes_app. simpl. now rewrite !app_nil_r.
Qed.

Lemma forOf_keeps (name : string) (langs created : list string) (w : World) :
  let run := exec (forOf langs (setupLanguage clinic department name) created) w in
  keeps (bucket w) (bucket (snd run)) /\
  exists k, k <= List.length langs /\
    probes (journal (snd run)) =
      (probes (journal w)
         ++ map (langFolderPathOf clinic department name) (firstn k langs))%list /\
    ((exists cs, fst run = Returned cs) -> k = List.length langs).
Proof.
  cbv zeta. revert created w. induction langs as [|lang langs IH]; intros created w.
  - simpl. split; [apply keeps_refl|]. exists 0. rewrite app_nil_r. now repeat split.
  - cbn [forOf]. rewrite exec_bind.
    destruct (setupLanguage_keeps name lang created w) as (K1 & P1).
    destruct (exec (setupLanguage clinic department name lang created) w) as [[cs|e] w1];
      cbn [fst snd] in *.
    + destruct (IH cs w1) as (K2 & k & Lk & P2 & R2). split.
      * now apply (keeps_trans _ (bucket w1)).
      * exists (S k). split; [simpl; lia | split].
        -- rewrite P2, P1, <- app_assoc. reflexivity.
        -- intros H. simpl. f_equal. now apply R2.
    + split; [assumption|]. exists 1. split; [simpl; lia | split].
      * rewrite P1. simpl. now destruct langs.
      * intros [cs H]. discriminate.
Qed.

(** X16.  A call of the initializer, whatever the service does, never
    removes or changes an object that was in the bucket: every object is
    still there with its content. *)
Theorem initializer_keeps_objects (videoName : string) (languages : option (list string))
    (w : World) :
  keeps (bucket w)
        (bucket (snd (exec (createLanguageFolders clinic department videoName languages) w))).
Proof.
  destruct (Str.nonempty (Str.trim videoName)) eqn:N.
  - destruct (exec_createLanguageFolders clinic department videoName languages w N)
      as (msg0 & msg1 & msg2 & ->).
    match goal with |- context [exec (forOf ?ls _ ?c) ?x] =>
      destruct (forOf_keeps (Str.trim videoName) ls c x) as (K & _);
      destruct (exec (forOf ls (setupLanguage clinic department (Str.trim videoName)) c) x)
        as [[cs|e] w1] end; exact K.
  - unfold createLanguageFolders. rewrite N. apply keeps_refl.
Qed.

(** X17.  The initializer probes the languages in the order of the list,
    each once, and stops at the first call that fails: the prefixes probed
    are those of an initial part of the list, and of the whole list when
    the call returns. *)
Theorem languages_probed_in_order (videoName : string) (languages : option (list string))
    (b : Bucket.t) (plan : list (option error)) (ticks : list string) :
  Str.nonempty (Str.trim videoName) = true ->
  let langs := match languages with Some ls => ls | None => defaultLanguages end in
  let run := exec (createLanguageFolders clinic department videoName languages)
                  (world b plan ticks) in
  exists k, k <= List.length langs /\
    probes (journal (snd run)) =
      map (langFolderPathOf clinic department (Str.trim videoName)) (firstn k langs) /\
    (fst run = Returned tt -> k = List.length langs).
Proof.
  intros N. cbv zeta.
  destruct (exec_createLanguageFolders clinic department videoName languages
              (world b plan ticks) N) as (msg0 & msg1 & msg2 & ->).
  match goal with |- context [exec (forOf ?ls _ ?c) ?x] =>
    destruct (forOf_keeps (Str.trim videoName) ls c x) as (_ & k & Lk & P & R);
    destruct (exec (forOf ls (setupLanguage clinic department (Str.trim videoName)) c) x)
      as [[cs|e] w1] end;
    cbn [fst snd world logged journal] in *; exists k; rewrite probes_app, P.
  - split; [assumption | split; [simpl; now rewrite app_nil_r|]].
    intros _. apply R. now exists cs.
  - split; [assumption | split; [simpl; now rewrite app_nil_r|]].
    intros H. discriminate.
Qed.

(** X18.  When a call of the initializer with a name that is not blank
    returns, every language of the list has an object under its prefix. *)
Theorem folders_provisioned (videoName : string) (languages : option (list string))
    (w : World) (lang : string) :
  Str.nonempty (Str.trim videoName) = true ->
  fst (exec (createLanguageFolders clinic department videoName languages) w) = Returned tt ->
  In lang (match languages with Some ls => ls | None => defaultLanguages end) ->
  Spec.hasObject
    (bucket (snd (exec (createLanguageFolders clinic department videoName languages) w)))
    (langFolderPathOf clinic department (Str.trim videoName) lang) = true.
Proof.
  intros N R H.
  destruct (createLanguageFolders_run clinic department videoName languages w) as (_ & _ & P).
  now apply P.
Qed.

End InitializerMore.

(** ** The folder trigger and its own markers *)

Section MarkerCascade.

Import LanguageFolderUtils.

Lemma initializer_returns_calm (clinic department videoName : string)
    (languages : option (list string)) (w : World) :
  faults w = [] ->
  fst (exec (createLanguageFolders clinic department videoName languages) w) = Returned tt.
Proof.
  intros F. destruct (Str.nonempty (Str.trim videoName)) eqn:N.
  - destruct (exec_createLanguageFolders clinic department videoName languages w N)
      as (msg0 & msg1 & msg2 & ->).
    match goal with |- context [exec (forOf ?ls _ ?c) ?x] =>
      destruct (forOf_returns clinic department (Str.trim videoName) ls c x F)
        as (cs & w' & -> & _) end.
    reflexivity.
  - unfold createLanguageFolders. now rewrite N.
Qed.

(** A run of the folder trigger on a matched name: the initializer between
    two lines of the console, its error swallowed. *)
Lemma exec_folder_trigger (path c d v : string) (w : World) :
  videoDir_match path = Some (c, d, v) ->
  exists (msg0 msg1 : string) (msg2 : error -> string),
    exec (Index.createLanguageFolders (Some path)) w =
    match exec (createLanguageFolders c d v (Some Index.SUPPORTED_LANGUAGES))
               (logged LOG msg0 w) with
    | (Returned _, w1) => (Returned tt, logged LOG msg1 w1)
    | (Thrown e, w1) => (Returned tt, logged ERROR (msg2 e) w1)
    end.
Proof.
  intros M. unfold Index.createLanguageFolders, Index.invokeInitializer. rewrite M.
  unfold console at 1. cbn [bind exec]. rewrite exec_tryCatch, exec_bind.
  exists ("[LANGUAGE FOLDERS] " ++ path ++ " -> creating folders for "
            ++ c ++ "/" ++ d ++ "/" ++ v),
         ("[LANGUAGE FOLDERS] Folders created for " ++ c ++ "/" ++ d ++ "/" ++ v),
         (fun e => "[LANGUAGE FOLDERS] Error creating folders: " ++ e).
  unfold logged at 1.
  destruct (exec (createLanguageFolders c d v (Some Index.SUPPORTED_LANGUAGES)) _)
    as [[[]|e] w1]; reflexivity.
Qed.

Lemma marker_matches_trigger (c d name lang : string) :
  Spec.isSegment c -> Spec.isSegment d -> Spec.isSegment name ->
  videoDir_match (placeholderPathOf c d name lang) = Some (c, d, name).
Proof.
  intros Hc Hd Hn. apply videoDir_match_iff.
  split; [assumption | split; [assumption | split; [assumption|]]].
  exists (lang ++ "/.placeholder").
  unfold placeholderPathOf, langFolderPathOf. now normalize_append.
Qed.

(** X19.  The markers the folder trigger writes are uploads that start the
    trigger again, and that settles at once: after a run of the trigger for
    an upload under [videos/<clinic>/<department>/<videoName>/] that met no
    fault, the run of the trigger for a marker of that video issues no
    write and leaves the bucket as it is, whatever the service does. *)
Theorem marker_upload_settles (c d v rest lang : string) (b : Bucket.t)
    (ticks : list string) (plan' : list (option error)) (ticks' : list string) :
  Spec.isSegment c -> Spec.isSegment d -> Spec.isSegment v ->
  Str.nonempty (Str.trim v) = true ->
  let first :=
    exec (Index.createLanguageFolders
            (Some ("videos/" ++ c ++ "/" ++ d ++ "/" ++ v ++ "/" ++ rest)))
         (world b [] ticks) in
  let second :=
    exec (Index.createLanguageFolders (Some (placeholderPathOf c d (Str.trim v) lang)))
         (world (bucket (snd first)) plan' ticks') in
  saves (journal (snd second)) = [] /\ bucket (snd second) = bucket (snd first).
Proof.
  intros Hc Hd Hv N. cbv zeta.
  assert (M1 : videoDir_match ("videos/" ++ c ++ "/" ++ d ++ "/" ++ v ++ "/" ++ rest)
               = Some (c, d, v)).
  { apply videoDir_match_iff. repeat (split; [assumption|]). now exists rest. }
  assert (Ht : Spec.isSegment (Str.trim v)).
  { split; [assumption|]. apply trim_lacks. apply Hv. }
  pose proof (marker_matches_trigger c d (Str.trim v) lang Hc Hd Ht) as M2.
  destruct (exec_folder_trigger _ c d v (world b [] ticks) M1) as (a0 & a1 & a2 & ->).
  pose proof (initializer_returns_calm c d v (Some Index.SUPPORTED_LANGUAGES)
                (logged LOG a0 (world b [] ticks)) eq_refl) as R1.
  destruct (createLanguageFolders_run c d v (Some Index.SUPPORTED_LANGUAGES)
              (logged LOG a0 (world b [] ticks))) as (_ & _ & Has).
  destruct (exec (createLanguageFolders c d v (Some Index.SUPPORTED_LANGUAGES))
                 (logged LOG a0 (world b [] ticks))) as [[[]|e] w1];
    cbn [fst snd] in *; [|discriminate].
  specialize (Has N eq_refl). cbn [snd logged bucket].
  destruct (exec_folder_trigger _ c d (Str.trim v) (world (bucket w1) plan' ticks') M2)
    as (b0 & b1 & b2 & ->).
  destruct (createLanguageFolders_run c d (Str.trim v) (Some Index.SUPPORTED_LANGUAGES)
              (logged LOG b0 (world (bucket w1) plan' ticks')))
    as ((extra & J & S & B & _) & _ & _).
  rewrite trim_idempotent in S.
  cbn [logged world journal bucket app] in J, S, B.
  assert (E : saves extra = []).
  { destruct (saves extra) as [|[p o] more]; [reflexivity|].
    exfalso. destruct (S p o (or_introl eq_refl)) as (l & Hl & _ & No).
    rewrite (Has l Hl) in No. discriminate. }
  destruct (exec (createLanguageFolders c d (Str.trim v) (Some Index.SUPPORTED_LANGUAGES))
                 (logged LOG b0 (world (bucket w1) plan' ticks'))) as [[[]|e] w2];
    cbn [fst snd logged journal bucket] in *;
    rewrite saves_app, J; cbn [saves]; rewrite E; split; try reflexivity; now apply B.
Qed.

End MarkerCascade.

(** ** The initializer: what it writes *)

Section InitializerWrites.

Import LanguageFolderUtils.

Variables clinic department : string.

Lemma setupLanguage_saves (name lang : string) (created : list string) (w : World) :
  exists delta,
    saves (journal (snd (exec (setupLanguage clinic department name lang created) w))) =
      (saves (journal w) ++ delta)%list /\
    Forall (fun po => objContent (snd po) = EmptyString /\
                      contentType (objOptions (snd po)) = "text/plain")
           delta.
Proof.
  unfold setupLanguage, getFiles, save, now, console. cbn [bind exec].
  destruct (nextFault w) as [e|]; cbn [bind exec fst snd bucket journal].
  - exists []. rewrite saves_app. simpl. now rewrite !app_nil_r.
  - destruct (List.length _ =? 0)%nat; cbn [bind exec fst snd bucket journal].
    + match goal with |- context [nextFault ?x] => destruct (nextFault x) as [e|] end;
        cbn [bind exec fst snd bucket journal]; rewrite !saves_app; cbn [saves];
        rewrite ?app_nil_r; eexists; (split; [reflexivity|]);
        repeat constructor.
    + exists []. rewrite saves_app. simpl. now rewrite !app_nil_r.
Qed.

Lemma forOf_saves (name : string) (langs created : list string) (w : World) :
  exists delta,
    saves (journal (snd (exec (forOf langs (setupLanguage clinic department name) created) w)))
      = (saves (journal w) ++ delta)%list /\
    Forall (fun po => objContent (snd po) = EmptyString /\
                      contentType (objOptions (snd po)) = "text/plain")
           delta.
Proof.
  revert created w. induction langs as [|lang langs IH]; intros created w.
  - exists []. simpl. now rewrite app_nil_r.
  - cbn [forOf]. rewrite exec_bind.
    destruct (setupLanguage_saves name lang created w) as (d1 & E1 & F1).
    destruct (exec (setupLanguage clinic department name lang created) w) as [[cs|e] w1];
      cbn [fst snd] in *.
    + destruct (IH cs w1) as (d2 & E2 & F2).
      exists (d1 ++ d2)%list. split; [now rewrite E2, E1, app_assoc|].
      now apply Forall_app.
    + now exists d1.
Qed.

(** X20.  Every write of the initializer creates a marker: its path is the
    [.placeholder] of a language of the list under the folder of the
    video, no object of that name was in the bucket when the call began,
    its content is empty and its content type is [text/plain]. *)
Theorem initializer_writes_only_new_markers (videoName : string)
    (languages : option (list string)) (b : Bucket.t) (plan : list (option error))
    (ticks : list string) :
  let langs := match languages with Some ls => ls | None => defaultLanguages end in
  let run := exec (createLanguageFolders clinic department videoName languages)
                  (world b plan ticks) in
  Forall (fun po =>
            (exists lang, In lang langs /\
               fst po = placeholderPathOf clinic department (Str.trim videoName) lang) /\
            ~ In (fst po) (Bucket.names b) /\
            objContent (snd po) = EmptyString /\
            contentType (objOptions (snd po)) = "text/plain")
         (saves (journal (snd run))).
Proof.
  cbv zeta.
  destruct (createLanguageFolders_run clinic department videoName languages
              (world b plan ticks)) as ((extra & J & S & _) & Blank & _).
  cbn [world journal bucket app] in J, S, Blank.
  assert (C : Forall (fun po => objContent (snd po) = EmptyString /\
                                contentType (objOptions (snd po)) = "text/plain")
                     (saves (journal (snd (exec (createLanguageFolders clinic department
                                                  videoName languages)
                                                (world b plan ticks)))))).
  { destruct (Str.nonempty (Str.trim videoName)) eqn:N.
    - destruct (exec_createLanguageFolders clinic department videoName languages
                  (world b plan ticks) N) as (msg0 & msg1 & msg2 & ->).
      match goal with |- context [exec (forOf ?ls _ ?c) ?x] =>
        destruct (forOf_saves (Str.trim videoName) ls c x) as (delta & E & F);
        destruct (exec (forOf ls (setupLanguage clinic department (Str.trim videoName)) c) x)
          as [[cs|e] w1] end;
        cbn [fst snd logged world journal app] in *;
        rewrite saves_app, E; simpl; now rewrite app_nil_r.
    - destruct (Blank eq_refl) as [-> _]. constructor. }
  rewrite J in C |- *. rewrite Forall_forall in C. apply Forall_forall.
  intros [p o] H. destruct (S p o H) as (lang & Hl & -> & No). cbn [fst snd].
  split; [now exists lang | split; [|now apply (C _ H)]].
  intros I.
  assert (T : Spec.hasObject b (langFolderPathOf clinic department (Str.trim videoName) lang)
              = true).
  { apply hasObject_iff. eexists. split; [exact I | apply marker_under_prefix]. }
  congruence.
Qed.

End InitializerWrites.

(** ** The further theorems at concrete inputs *)

Section MoreWitnesses.

Import GenerateBundleLogic.

Lemma path_empty_iff_no_object_witness :
  let files := ["videos/c1/d1/v1/en/a.mp4"] in
  let video := {| id := "v1"; title := "v1";
                  languages := [("en", {| videoPath := "videos/c1/d1/v1/en/a.mp4";
                                          subtitlePath := EmptyString |})] |} in
  let e := {| videoPath := "videos/c1/d1/v1/en/a.mp4"; subtitlePath := EmptyString |} in
  In video (videos (buildBundle "c1" "d1" files)) /\
  In ("en", e) (languages video) /\
  (subtitlePath e = EmptyString <->
   forall f, In f files -> ~ Spec.AssetPath "c1" "d1" f (id video) "en" "vtt").
Proof.
  cbv zeta.
  assert (Hv : In {| id := "v1"; title := "v1";
                     languages := [("en", {| videoPath := "videos/c1/d1/v1/en/a.mp4";
                                             subtitlePath := EmptyString |})] |}
                  (videos (buildBundle "c1" "d1" ["videos/c1/d1/v1/en/a.mp4"])))
    by (left; reflexivity).
  split; [exact Hv | split; [left; reflexivity|]].
  exact (proj2 (path_empty_iff_no_object "c1" "d1" _ _ "en" _ Hv (or_introl eq_refl))).
Defined.

Lemma language_listed_iff_witness :
  "en" <> "__proto__" /\
  (langEntryOf "v1" "en" (buildBundle "c1" "d1" ["videos/c1/d1/v1/en/a.vtt"]) <> None <->
   exists f ext, In f ["videos/c1/d1/v1/en/a.vtt"] /\ Spec.AssetPath "c1" "d1" f "v1" "en" ext).
Proof.
  assert (N : "en" <> "__proto__") by discriminate.
  split; [exact N|].
  exact (language_listed_iff "c1" "d1" ["videos/c1/d1/v1/en/a.vtt"] "v1" "en" N).
Defined.

Lemma listed_match_is_accepted_witness :
  let name := "videos/c1/d1/v1/en/a.mp4" in
  Spec.isSegment "c1" /\ Spec.isSegment "d1" /\
  Str.startsWith name (listPrefix "c1" "d1") = true /\
  asset_match name = Some ("c1", "d1", "v1", "en", "mp4") /\
  Scan.accepted "c1" "d1" name = Some ("v1", "en", "mp4").
Proof.
  cbv zeta.
  assert (Hc : Spec.isSegment "c1") by (split; reflexivity).
  assert (Hd : Spec.isSegment "d1") by (split; reflexivity).
  split; [exact Hc | split; [exact Hd | split; [reflexivity | split; [reflexivity|]]]].
  exact (listed_match_is_accepted "c1" "d1" "videos/c1/d1/v1/en/a.mp4"
           "c1" "d1" "v1" "en" "mp4" Hc Hd eq_refl eq_refl).
Defined.

Lemma namespace_paths_injective_witness :
  Str.lacks "/" "c1" = true /\
  (bundlePathOf "c1" "d1" = bundlePathOf "c1" "d1" -> "c1" = "c1" /\ "d1" = "d1").
Proof.
  split; [reflexivity|].
  exact (proj1 (namespace_paths_injective "c1" "d1" "c1" "d1" eq_refl eq_refl)).
Defined.

Lemma builder_touches_only_snapshot_witness :
  let b := [("videos/c1/d1/v1/en/a.mp4",
             {| objContent := "video"; objOptions := bundleSaveOptions |})] in
  "videos/c1/d1/v1/en/a.mp4" <> bundlePathOf "c1" "d1" /\
  Bucket.get "videos/c1/d1/v1/en/a.mp4"
    (bucket (snd (exec (generateBundleLogic "c1" "d1") (world b [] [])))) =
  Bucket.get "videos/c1/d1/v1/en/a.mp4" b.
Proof.
  cbv zeta.
  assert (N : "videos/c1/d1/v1/en/a.mp4" <> bundlePathOf "c1" "d1") by discriminate.
  split; [exact N|].
  exact (builder_touches_only_snapshot "c1" "d1" _ _ N).
Defined.

Lemma bundle_triggers_rebuild_namespace_witness :
  Spec.isSegment "c1" /\ Spec.isSegment "d1" /\
  Str.startsWith "videos/c1/d1/v1/en/a.mp4" (listPrefix "c1" "d1") = true /\
  Bucket.names
    (bucket (snd (exec (Handlers.autoGenerateBundle (Some "videos/c1/d1/v1/en/a.mp4"))
                       (world [] [] []))))
  = [bundlePathOf "c1" "d1"].
Proof.
  assert (Hc : Spec.isSegment "c1") by (split; reflexivity).
  assert (Hd : Spec.isSegment "d1") by (split; reflexivity).
  destruct (bundle_triggers_rebuild_namespace "c1" "d1" "v1/en/a.mp4" [] [] Hc Hd)
    as (P & E & _).
  split; [exact Hc | split; [exact Hd | split; [exact P|]]].
  cbn [append] in E. rewrite E. reflexivity.
Defined.

Lemma http_missing_parameter_witness :
  (@None string = None \/ @None string = Some EmptyString \/
   Some "d1" = None \/ Some "d1" = Some EmptyString) /\
  exec (Handlers.generateBundle None (Some "d1")) (Spec.calm []) =
  (Returned {| Handlers.status := 400;
               Handlers.body := "Missing clinic or department parameters." |},
   Spec.calm []).
Proof.
  assert (H : @None string = None \/ @None string = Some EmptyString \/
              Some "d1" = None \/ Some "d1" = Some EmptyString) by (left; reflexivity).
  split; [exact H|].
  exact (http_missing_parameter None (Some "d1") (Spec.calm []) H).
Defined.

Lemma http_answers_witness :
  Str.nonempty "c1" = true /\ Str.nonempty "d1" = true /\
  exists msg,
    bucket (snd (exec (Handlers.generateBundle (Some "c1") (Some "d1")) (Spec.calm []))) =
    bucket (snd (exec (generateBundleLogic "c1" "d1") (logged LOG msg (Spec.calm [])))).
Proof.
  split; [reflexivity | split; [reflexivity|]].
  destruct (http_answers "c1" "d1" (Spec.calm []) eq_refl eq_refl) as (msg & B & _).
  exists msg. exact B.
Defined.

Lemma languages_probed_in_order_witness :
  Str.nonempty (Str.trim "v1") = true /\
  exists k, k <= 2 /\
    More.probes
      (journal (snd (exec (LanguageFolderUtils.createLanguageFolders "c1" "d1" "v1"
                             (Some ["en"; "fr"]))
                          (world [] [None; None; Some "unavailable"] [])))) =
    map (LanguageFolderUtils.langFolderPathOf "c1" "d1" "v1") (firstn k ["en"; "fr"]).
Proof.
  split; [reflexivity|].
  destruct (languages_probed_in_order "c1" "d1" "v1" (Some ["en"; "fr"]) []
              [None; None; Some "unavailable"] [] eq_refl) as (k & L & P & _).
  exists k. split; [exact L | exact P].
Defined.

Lemma folders_provisioned_witness :
  let run := exec (LanguageFolderUtils.createLanguageFolders "c1" "d1" "v1" (Some ["en"]))
                  (Spec.calm []) in
  Str.nonempty (Str.trim "v1") = true /\
  fst run = Returned tt /\
  In "en" ["en"] /\
  Spec.hasObject (bucket (snd run))
    (LanguageFolderUtils.langFolderPathOf "c1" "d1" "v1" "en") = true.
Proof.
  cbv zeta.
  split; [reflexivity | split; [reflexivity | split; [left; reflexivity|]]].
  exact (folders_provisioned "c1" "d1" "v1" (Some ["en"]) (Spec.calm []) "en"
           eq_refl eq_refl (or_introl eq_refl)).
Defined.

Lemma marker_upload_settles_witness :
  let first :=
    exec (Index.createLanguageFolders (Some "videos/c1/d1/v1/en/a.mp4")) (world [] [] []) in
  Spec.isSegment "c1" /\ Spec.isSegment "d1" /\ Spec.isSegment "v1" /\
  Str.nonempty (Str.trim "v1") = true /\
  saves (journal (snd (exec (Index.createLanguageFolders
                               (Some (LanguageFolderUtils.placeholderPathOf
                                        "c1" "d1" (Str.trim "v1") "de")))
                            (world (bucket (snd first)) [] [])))) = [].
Proof.
  cbv zeta.
  assert (Hc : Spec.isSegment "c1") by (split; reflexivity).
  assert (Hd : Spec.isSegment "d1") by (split; reflexivity).
  assert (Hv : Spec.isSegment "v1") by (split; reflexivity).
  split; [exact Hc | split; [exact Hd | split; [exact Hv | split; [reflexivity|]]]].
  exact (proj1 (marker_upload_settles "c1" "d1" "v1" "en/a.mp4" "de" [] [] [] []
                  Hc Hd Hv eq_refl)).
Defined.

End MoreWitnesses.
